(** * POSHO-9000: ladder scheduler, leaderboard diff and top-log engine

    A shallow embedding of [src/index.ts] (class [Client] and its helper
    functions) and the proofs of the properties its specification states.

    Conventions of the model.
    - A JavaScript [number] is an integer, [NaN] or a signed infinity: these
      are all the values that [parseInt], [Math.round], [findIndex] and the
      arithmetic of the program produce.  [parseInt] and [parseFloat] round
      what they read to binary64; the sums and differences the program makes
      of such numbers are taken exactly, and the sign of zero is not
      modelled.
    - A JavaScript string is the sequence of bytes of its UTF-8 encoding; the
      files the program reads and writes are UTF-8 text.
    - A [Date] is a number of milliseconds since the epoch, or invalid.  Local
      time is UTC shifted by a constant offset (no change of offset during the
      period considered).
    - The program is single threaded.  Every method runs to completion; the
      clock readings it takes during one synchronous run are the same
      millisecond, which is passed to the model as [now]. *)

From Stdlib Require Import ZArith QArith Qround Lia List Bool Ascii String.
From stdpp Require Import base option list gmap strings.

Local Open Scope string_scope.
Local Open Scope Z_scope.

(** ** Numbers *)

Inductive number : Type :=
| Num (z : Z)
| NaN
| PInf
| NInf.

Module JsNum.

(** [a === b] on numbers. *)
Definition seq (a b : number) : bool :=
  match a, b with
  | Num x, Num y => x =? y
  | PInf, PInf => true
  | NInf, NInf => true
  | _, _ => false
  end.

(** [a !== b]. *)
Definition sneq (a b : number) : bool := negb (seq a b).

(** [a < b]. *)
Definition lt (a b : number) : bool :=
  match a, b with
  | NaN, _ | _, NaN => false
  | Num x, Num y => x <? y
  | NInf, NInf => false
  | NInf, _ => true
  | _, NInf => false
  | PInf, _ => false
  | Num _, PInf => true
  end.

(** [a > b]. *)
Definition gt (a b : number) : bool := lt b a.

(** [a <= b]. *)
Definition le (a b : number) : bool :=
  match a, b with
  | NaN, _ | _, NaN => false
  | Num x, Num y => x <=? y
  | NInf, _ => true
  | _, PInf => true
  | PInf, _ => false
  | Num _, NInf => false
  end.

(** [a >= b]. *)
Definition ge (a b : number) : bool := le b a.

(** [a + b]. *)
Definition add (a b : number) : number :=
  match a, b with
  | NaN, _ | _, NaN => NaN
  | Num x, Num y => Num (x + y)
  | PInf, NInf | NInf, PInf => NaN
  | PInf, _ | _, PInf => PInf
  | NInf, _ | _, NInf => NInf
  end.

(** [- a]. *)
Definition neg (a : number) : number :=
  match a with
  | Num x => Num (- x)
  | NaN => NaN
  | PInf => NInf
  | NInf => PInf
  end.

(** [a - b]. *)
Definition sub (a b : number) : number := add a (neg b).

(** Truthiness of a number: [0] and [NaN] are falsy. *)
Definition truthy (a : number) : bool :=
  match a with
  | Num x => negb (x =? 0)
  | NaN => false
  | PInf | NInf => true
  end.

(** A number that is neither [NaN] nor infinite. *)
Definition finite (a : number) : bool :=
  match a with Num _ => true | _ => false end.

End JsNum.

(** ** Strings *)

Definition ascii_in (lo hi : N) (c : ascii) : bool :=
  ((lo <=? N_of_ascii c) && (N_of_ascii c <=? hi))%N.

Definition is_upper (c : ascii) : bool := ascii_in 65 90 c.
Definition is_lower (c : ascii) : bool := ascii_in 97 122 c.
Definition is_digit (c : ascii) : bool := ascii_in 48 57 c.

Definition lower_ascii (c : ascii) : ascii :=
  if is_upper c then ascii_of_N (N_of_ascii c + 32) else c.

(** [toID]: [('' + text).toLowerCase().replace(/[^a-z0-9]+/g, '')].

    Lower-casing maps [A-Z] to [a-z]; outside ASCII only two characters have a
    lower case that contains an ASCII letter: U+212A KELVIN SIGN (bytes
    E2 84 AA) becomes [k], and U+0130 (bytes C4 B0) becomes [i] followed by a
    combining mark, which the replacement then removes.  Every other
    character outside ASCII stays outside ASCII and is removed. *)
Fixpoint toID (text : string) : string :=
  match text with
  | EmptyString => EmptyString
  | String "226" (String "132" (String "170" rest)) => String "k" (toID rest)
  | String "196" (String "176" rest) => String "i" (toID rest)
  | String c rest =>
      let c' := lower_ascii c in
      if is_lower c' || is_digit c' then String c' (toID rest) else toID rest
  end.

(** [toID(undefined)] is the empty string. *)
Definition toID_opt (text : option string) : string :=
  match text with Some s => toID s | None => "" end.

(** [s.startsWith(p)]. *)
Definition startsWith (s p : string) : bool := String.prefix p s.

(** [s.split(sep)] for a separator of one character. *)
Fixpoint split (sep : ascii) (s : string) : list string :=
  match s with
  | EmptyString => [EmptyString]
  | String c rest =>
      if Ascii.eqb c sep then EmptyString :: split sep rest
      else match split sep rest with
           | field :: fields => String c field :: fields
           | [] => [String c EmptyString]
           end
  end.

(** Leading white space as [parseInt] and [parseFloat] skip it: the ASCII
    blanks and line terminators, and the UTF-8 encodings of U+00A0, U+1680,
    U+2000..U+200A, U+2028, U+2029, U+202F, U+205F, U+3000 and U+FEFF. *)
Fixpoint trimStart (s : string) : string :=
  match s with
  | String "009" r | String "010" r | String "011" r | String "012" r
  | String "013" r | String " " r => trimStart r
  | String "194" (String "160" r) => trimStart r
  | String "225" (String "154" (String "128" r)) => trimStart r
  | String "226" (String "128" (String c r)) =>
      if ascii_in 128 138 c || ascii_in 168 169 c || ascii_in 175 175 c
      then trimStart r else s
  | String "226" (String "129" (String "159" r)) => trimStart r
  | String "227" (String "128" (String "128" r)) => trimStart r
  | String "239" (String "187" (String "191" r)) => trimStart r
  | _ => s
  end.

(** The value of a digit in the given radix (10 or 16), if it is one. *)
Definition digit_value (radix : Z) (c : ascii) : option Z :=
  let n := Z.of_N (N_of_ascii c) in
  if is_digit c then Some (n - 48)
  else if (radix =? 16) && ascii_in 97 102 c then Some (n - 87)
  else if (radix =? 16) && ascii_in 65 70 c then Some (n - 55)
  else None.

(** The longest run of digits at the head of [s]: its value continuing from
    [acc], how many digits it has, and what follows it. *)
Fixpoint digits (radix : Z) (s : string) (acc : Z) (count : Z)
  : Z * Z * string :=
  match s with
  | String c r =>
      match digit_value radix c with
      | Some d => digits radix r (acc * radix + d) (count + 1)
      | None => (acc, count, s)
      end
  | EmptyString => (acc, count, s)
  end.

(** An optional sign: [true] for a minus sign, and the rest of the string. *)
Definition sign (s : string) : bool * string :=
  match s with
  | String "-" r => (true, r)
  | String "+" r => (false, r)
  | _ => (false, s)
  end.

(** *** Binary64

    [parseInt] and [parseFloat] return the binary64 number nearest to the
    numeral they read, ties going to the even mantissa, and an infinity
    beyond the largest one.  (The standard lets an engine drop the digits
    after the twentieth; Node rounds the whole numeral.) *)

(** The integer nearest to [n / d], for [0 <= n] and [0 < d]; of two that
    are equally near, the even one. *)
Definition roundHalfEven (n d : Z) : Z :=
  let q := n / d in
  let r := n mod d in
  if 2 * r <? d then q
  else if d <? 2 * r then q + 1
  else if Z.even q then q else q + 1.

(** [n / d] divided by [2^k], as a fraction. *)
Definition scaleDown (n d k : Z) : Z * Z :=
  if 0 <=? k then (n, d * 2 ^ k) else (n * 2 ^ (- k), d).

(** The [p] with [2^p <= n / d < 2^(p+1)], for [0 < n] and [0 < d]. *)
Definition binade (n d : Z) : Z :=
  let p := Z.log2 n - Z.log2 d in
  let '(n', d') := scaleDown n d p in
  if n' <? d' then p - 1 else p.

(** The binary64 number nearest to [n / d], for [0 <= n] and [0 < d]: a
    mantissa [m <= 2^53] and an exponent [e >= -1074] that stand for
    [m * 2^e], or nothing when the nearest is beyond the largest binary64
    number, which is [(2^53 - 1) * 2^971]. *)
Definition nearestBinary64 (n d : Z) : option (Z * Z) :=
  if n =? 0 then Some (0, 0)
  else
    let e := Z.max (binade n d - 52) (- 1074) in
    let '(n', d') := scaleDown n d e in
    let m := roundHalfEven n' d' in
    if (971 <? e) || ((e =? 971) && (2 ^ 53 <=? m)) then None
    else Some (m, e).

(** The greatest integer that is not above [m * 2^e]. *)
Definition floorBin (m e : Z) : Z :=
  if 0 <=? e then m * 2 ^ e else m / 2 ^ (- e).

(** The number for the integer [v], which is not negative, with its sign:
    the nearest binary64 number is an integer too. *)
Definition ofInteger (negative : bool) (v : Z) : number :=
  match nearestBinary64 v 1 with
  | Some (m, e) => Num (if negative then - floorBin m e else floorBin m e)
  | None => if negative then NInf else PInf
  end.

(** [parseInt(s)], without a radix argument. *)
Definition parseInt (s : string) : number :=
  let '(negative, s1) := sign (trimStart s) in
  let '(radix, s2) :=
    match s1 with
    | String "0" (String "x" r) | String "0" (String "X" r) => (16, r)
    | _ => (10, s1)
    end in
  let '(value, count, _) := digits radix s2 0 0 in
  if count =? 0 then NaN
  else ofInteger negative value.

(** [parseInt(undefined)] is [NaN]. *)
Definition parseInt_opt (s : option string) : number :=
  match s with Some s => parseInt s | None => NaN end.

(** The value of [parseFloat]: a binary64 number [m * 2^e], [NaN] or an
    infinity. *)
Inductive float : Type :=
| FBin (m e : Z)
| FNaN
| FInf (negative : bool).

(** The binary64 number nearest to [n / d], which is not negative, with its
    sign. *)
Definition toFloat (negative : bool) (n d : Z) : float :=
  match nearestBinary64 n d with
  | Some (m, e) => FBin (if negative then - m else m) e
  | None => FInf negative
  end.

(** An exponent part [e], [e+] or [e-] followed by digits, if [s] starts with
    one; otherwise the exponent is 0. *)
Definition exponent (s : string) : Z :=
  match s with
  | String "e" r | String "E" r =>
      let '(negative, r1) := sign r in
      let '(value, count, _) := digits 10 r1 0 0 in
      if count =? 0 then 0 else if negative then - value else value
  | _ => 0
  end.

(** [parseFloat(s)]: the longest prefix of the trimmed string that is a
    decimal literal, [mant * 10^e], rounded to binary64. *)
Definition parseFloat (s : string) : float :=
  let '(negative, s1) := sign (trimStart s) in
  if String.prefix "Infinity" s1 then FInf negative
  else
    let '(int, icount, s2) := digits 10 s1 0 0 in
    let '(mant, fcount, s3) :=
      match s2 with
      | String "." r => digits 10 r int 0
      | _ => (int, 0, s2)
      end in
    if icount + fcount =? 0 then FNaN
    else
      let e := exponent s3 - fcount in
      if 0 <=? e then toFloat negative (mant * 10 ^ e) 1
      else toFloat negative mant (10 ^ (- e)).

(** [Math.round(x)]: the integer nearest to [x], halves going up. *)
Definition Math_round (x : float) : number :=
  match x with
  | FBin m e =>
      if 0 <=? e then Num (m * 2 ^ e)
      else Num ((2 * m + 2 ^ (- e)) / (2 * 2 ^ (- e)))
  | FNaN => NaN
  | FInf negative => if negative then NInf else PInf
  end.

(** ** Arrays and maps *)

(** [l.findIndex(p)]: the index of the first element that satisfies [p], or
    [-1]. *)
Fixpoint findIndex {A} (p : A -> bool) (l : list A) : Z :=
  match l with
  | [] => -1
  | x :: rest =>
      if p x then 0
      else let i := findIndex p rest in if i <? 0 then -1 else i + 1
  end.

(** The integer an index argument is converted to: truncation towards 0. *)
Definition toInteger (q : Q) : Z := Z.quot (Qnum q) (Z.pos (Qden q)).

(** A rational is truthy unless it is 0. *)
Definition truthyQ (q : Q) : bool := negb (Qnum q =? 0).

(** [l.slice(0, n)]: a negative end counts from the end of the array. *)
Definition slice0 {A} (l : list A) (n : Z) : list A :=
  if n <? 0 then take (Z.to_nat (Z.of_nat (length l) + n)) l
  else take (Z.to_nat n) l.

(** A [Map] with string keys, in insertion order: [set] on a key that is
    present replaces its value and keeps its place. *)
Definition JsMap (V : Type) : Type := list (string * V).

Fixpoint map_get {V} (k : string) (m : JsMap V) : option V :=
  match m with
  | [] => None
  | (k', v) :: rest => if String.eqb k' k then Some v else map_get k rest
  end.

Fixpoint map_set {V} (k : string) (v : V) (m : JsMap V) : JsMap V :=
  match m with
  | [] => [(k, v)]
  | (k', v') :: rest =>
      if String.eqb k' k then (k', v) :: rest else (k', v') :: map_set k v rest
  end.

Definition map_values {V} (m : JsMap V) : list V := map snd m.
Definition map_size {V} (m : JsMap V) : Z := Z.of_nat (length m).

(** ** The leaderboard *)

Record LeaderboardEntry : Type := {
  name : string;
  rank : option Z;
  elo : number;
  win : number;
  lose : number
}.

Record Leaderboard : Type := {
  current : option (list LeaderboardEntry);
  last : option (list LeaderboardEntry);
  (** not restricted to the prefix *)
  lookup : gmap string LeaderboardEntry
}.

(** The tuple [[name, elo, oldrank, newrank]] that [getDiffs] stores. *)
Record DiffRecord : Type := {
  d_name : string;
  d_elo : number;
  d_oldrank : number;
  d_newrank : number
}.

Record Lines : Type := { them : Z; total : Z }.

(** One row of the table [styleLeaderboard] renders: the arrow shown before
    the rank when the entry has a diff ([true] for the falling arrow), the
    rank shown, and the entry.  Colours and markup are not modelled. *)
Record BoardRow : Type := {
  row_arrow : option bool;
  row_rank : Z;
  row_entry : LeaderboardEntry
}.

(** One item of the message [trackChanges] reports. *)
Record ChangeMessage : Type := {
  msg_falling : bool;
  (** [None] is shown as a question mark *)
  msg_rank : option number;
  msg_name : string;
  msg_rating : option number;
  msg_italic : bool
}.

(** What the client sends to the room. *)
Inductive Report : Type :=
| LadderTourOpen (format : string)
| LadderTourClose (format : string)
| LadderTourDecay (format : string)
| HtmlLeaderboard (final : option number) (rows : list BoardRow)
| LadderReadFailed
| RankChanges (messages : list ChangeMessage)
| Status (stopped : bool).

(** A file as the client finds it: not there, there and not readable, or
    there with a text. *)
Inductive File : Type :=
| Missing
| Unreadable
| Contents (text : string).

(** The callbacks the scheduler arms with [setTimeout]. *)
Inductive Callback : Type :=
| FinalCapture
| CloseLadderWatcher
| OpenLadderWatcher.

Record Timer : Type := { callback : Callback; delay : number }.

(** The fields of [Client] that the scheduler, the leaderboard and the top
    log use, followed by the environment the client acts on. *)
Record Client : Type := {
  config_open : string;
  config_close : string;
  config_cutoff : option Z;
  format : string;
  prefix : string;
  deadline : option Z;
  final : option Timer;
  started : bool;
  showdiffs : bool;
  leaderboard : Leaderboard;
  cooldown : option Z;
  changed : bool;
  lines : Lines;
  looping : bool;
  ladderopen : bool;
  (** the ladder file of the format, when it can be read *)
  ladder_tsv : option string;
  (** the file [tops.json] *)
  tops_json : File;
  (** the messages sent so far, oldest first *)
  outbox : list Report;
  (** the timers armed and not cancelled, oldest first *)
  timers : list Timer;
  (** local time minus UTC, in milliseconds *)
  timezone : Z
}.

(** Assignments to the fields of the client. *)
Definition set_prefix (v : string) (c : Client) : Client :=
  {| config_open := config_open c; config_close := config_close c;
     config_cutoff := config_cutoff c; format := format c; prefix := v;
     deadline := deadline c; final := final c; started := started c;
     showdiffs := showdiffs c; leaderboard := leaderboard c;
     cooldown := cooldown c; changed := changed c; lines := lines c;
     looping := looping c; ladderopen := ladderopen c;
     ladder_tsv := ladder_tsv c; tops_json := tops_json c;
     outbox := outbox c; timers := timers c; timezone := timezone c |}.

Definition set_deadline (v : option Z) (c : Client) : Client :=
  {| config_open := config_open c; config_close := config_close c;
     config_cutoff := config_cutoff c; format := format c;
     prefix := prefix c; deadline := v; final := final c;
     started := started c; showdiffs := showdiffs c;
     leaderboard := leaderboard c; cooldown := cooldown c;
     changed := changed c; lines := lines c; looping := looping c;
     ladderopen := ladderopen c; ladder_tsv := ladder_tsv c;
     tops_json := tops_json c; outbox := outbox c; timers := timers c;
     timezone := timezone c |}.

Definition set_final (v : option Timer) (c : Client) : Client :=
  {| config_open := config_open c; config_close := config_close c;
     config_cutoff := config_cutoff c; format := format c;
     prefix := prefix c; deadline := deadline c; final := v;
     started := started c; showdiffs := showdiffs c;
     leaderboard := leaderboard c; cooldown := cooldown c;
     changed := changed c; lines := lines c; looping := looping c;
     ladderopen := ladderopen c; ladder_tsv := ladder_tsv c;
     tops_json := tops_json c; outbox := outbox c; timers := timers c;
     timezone := timezone c |}.

Definition set_started (v : bool) (c : Client) : Client :=
  {| config_open := config_open c; config_close := config_close c;
     config_cutoff := config_cutoff c; format := format c;
     prefix := prefix c; deadline := deadline c; final := final c;
     started := v; showdiffs := showdiffs c; leaderboard := leaderboard c;
     cooldown := cooldown c; changed := changed c; lines := lines c;
     looping := looping c; ladderopen := ladderopen c;
     ladder_tsv := ladder_tsv c; tops_json := tops_json c;
     outbox := outbox c; timers := timers c; timezone := timezone c |}.

Definition set_leaderboard (v : Leaderboard) (c : Client) : Client :=
  {| config_open := config_open c; config_close := config_close c;
     config_cutoff := config_cutoff c; format := format c;
     prefix := prefix c; deadline := deadline c; final := final c;
     started := started c; showdiffs := showdiffs c; leaderboard := v;
     cooldown := cooldown c; changed := changed c; lines := lines c;
     looping := looping c; ladderopen := ladderopen c;
     ladder_tsv := ladder_tsv c; tops_json := tops_json c;
     outbox := outbox c; timers := timers c; timezone := timezone c |}.

Definition set_changed (v : bool) (c : Client) : Client :=
  {| config_open := config_open c; config_close := config_close c;
     config_cutoff := config_cutoff c; format := format c;
     prefix := prefix c; deadline := deadline c; final := final c;
     started := started c; showdiffs := showdiffs c;
     leaderboard := leaderboard c; cooldown := cooldown c; changed := v;
     lines := lines c; looping := looping c; ladderopen := ladderopen c;
     ladder_tsv := ladder_tsv c; tops_json := tops_json c;
     outbox := outbox c; timers := timers c; timezone := timezone c |}.

Definition set_lines (v : Lines) (c : Client) : Client :=
  {| config_open := config_open c; config_close := config_close c;
     config_cutoff := config_cutoff c; format := format c;
     prefix := prefix c; deadline := deadline c; final := final c;
     started := started c; showdiffs := showdiffs c;
     leaderboard := leaderboard c; cooldown := cooldown c;
     changed := changed c; lines := v; looping := looping c;
     ladderopen := ladderopen c; ladder_tsv := ladder_tsv c;
     tops_json := tops_json c; outbox := outbox c; timers := timers c;
     timezone := timezone c |}.

Definition set_looping (v : bool) (c : Client) : Client :=
  {| config_open := config_open c; config_close := config_close c;
     config_cutoff := config_cutoff c; format := format c;
     prefix := prefix c; deadline := deadline c; final := final c;
     started := started c; showdiffs := showdiffs c;
     leaderboard := leaderboard c; cooldown := cooldown c;
     changed := changed c; lines := lines c; looping := v;
     ladderopen := ladderopen c; ladder_tsv := ladder_tsv c;
     tops_json := tops_json c; outbox := outbox c; timers := timers c;
     timezone := timezone c |}.

Definition set_ladderopen (v : bool) (c : Client) : Client :=
  {| config_open := config_open c; config_close := config_close c;
     config_cutoff := config_cutoff c; format := format c;
     prefix := prefix c; deadline := deadline c; final := final c;
     started := started c; showdiffs := showdiffs c;
     leaderboard := leaderboard c; cooldown := cooldown c;
     changed := changed c; lines := lines c; looping := looping c;
     ladderopen := v; ladder_tsv := ladder_tsv c; tops_json := tops_json c;
     outbox := outbox c; timers := timers c; timezone := timezone c |}.

Definition set_ladder_tsv (v : option string) (c : Client) : Client :=
  {| config_open := config_open c; config_close := config_close c;
     config_cutoff := config_cutoff c; format := format c;
     prefix := prefix c; deadline := deadline c; final := final c;
     started := started c; showdiffs := showdiffs c;
     leaderboard := leaderboard c; cooldown := cooldown c;
     changed := changed c; lines := lines c; looping := looping c;
     ladderopen := ladderopen c; ladder_tsv := v; tops_json := tops_json c;
     outbox := outbox c; timers := timers c; timezone := timezone c |}.

Definition set_tops_json (v : File) (c : Client) : Client :=
  {| config_open := config_open c; config_close := config_close c;
     config_cutoff := config_cutoff c; format := format c;
     prefix := prefix c; deadline := deadline c; final := final c;
     started := started c; showdiffs := showdiffs c;
     leaderboard := leaderboard c; cooldown := cooldown c;
     changed := changed c; lines := lines c; looping := looping c;
     ladderopen := ladderopen c; ladder_tsv := ladder_tsv c; tops_json := v;
     outbox := outbox c; timers := timers c; timezone := timezone c |}.

Definition set_outbox (v : list Report) (c : Client) : Client :=
  {| config_open := config_open c; config_close := config_close c;
     config_cutoff := config_cutoff c; format := format c;
     prefix := prefix c; deadline := deadline c; final := final c;
     started := started c; showdiffs := showdiffs c;
     leaderboard := leaderboard c; cooldown := cooldown c;
     changed := changed c; lines := lines c; looping := looping c;
     ladderopen := ladderopen c; ladder_tsv := ladder_tsv c;
     tops_json := tops_json c; outbox := v; timers := timers c;
     timezone := timezone c |}.

Definition set_timers (v : list Timer) (c : Client) : Client :=
  {| config_open := config_open c; config_close := config_close c;
     config_cutoff := config_cutoff c; format := format c;
     prefix := prefix c; deadline := deadline c; final := final c;
     started := started c; showdiffs := showdiffs c;
     leaderboard := leaderboard c; cooldown := cooldown c;
     changed := changed c; lines := lines c; looping := looping c;
     ladderopen := ladderopen c; ladder_tsv := ladder_tsv c;
     tops_json := tops_json c; outbox := outbox c; timers := v;
     timezone := timezone c |}.

(** [this.report(message)]: the message is queued for the room. *)
Definition report (message : Report) (c : Client) : Client :=
  set_outbox (outbox c ++ [message]) c.

(** *** [getDiffs] *)

(** [num ? l.slice(0, num) : l]. *)
Definition firstN {A} (num : option Q) (l : list A) : list A :=
  match num with
  | Some q => if truthyQ q then slice0 l (toInteger q) else l
  | None => l
  end.

(** [l.findIndex(e => toID(e.name) === id) + 1]. *)
Definition rankOf (id : string) (l : list LeaderboardEntry) : Z :=
  findIndex (fun e => String.eqb (toID (name e)) id) l + 1.

(** [l[i].elo].  [getDiffs] reads it at an index that [findIndex] returned,
    where the array has an element (see [findIndex_lookup]). *)
Definition eloAt (l : list LeaderboardEntry) (i : Z) : number :=
  match l !! Z.to_nat i with
  | Some e => elo e
  | None => NaN
  end.

(** The tuple the first loop computes for the player at index [i] of
    [lastN]. *)
Definition diffOfLast (current : list LeaderboardEntry) (i : Z)
    (player : LeaderboardEntry) : DiffRecord :=
  let id := toID (name player) in
  let oldrank := Num (i + 1) in
  let found := rankOf id current in
  if found =? 0 then
    {| d_name := name player; d_elo := Num 0;
       d_oldrank := oldrank; d_newrank := PInf |}
  else
    {| d_name := name player; d_elo := eloAt current (found - 1);
       d_oldrank := oldrank; d_newrank := Num found |}.

(** The first loop, over [lastN.entries()], from index [i] on. *)
Fixpoint diffsOfLast (current : list LeaderboardEntry) (i : Z)
    (lastN : list LeaderboardEntry) (diffs : JsMap DiffRecord)
  : JsMap DiffRecord :=
  match lastN with
  | [] => diffs
  | player :: rest =>
      let d := diffOfLast current i player in
      diffsOfLast current (i + 1) rest
        (if JsNum.sneq (d_oldrank d) (d_newrank d)
         then map_set (toID (name player)) d diffs
         else diffs)
  end.

(** The tuple the second loop computes for the player at index [i] of
    [currentN]. *)
Definition diffOfCurrent (last : list LeaderboardEntry) (i : Z)
    (player : LeaderboardEntry) : DiffRecord :=
  let id := toID (name player) in
  let newrank := Num (i + 1) in
  let found := rankOf id last in
  {| d_name := name player; d_elo := elo player;
     d_oldrank := if found =? 0 then PInf else Num found;
     d_newrank := newrank |}.

(** The second loop, over [currentN.entries()], from index [i] on. *)
Fixpoint diffsOfCurrent (last : list LeaderboardEntry) (i : Z)
    (currentN : list LeaderboardEntry) (diffs : JsMap DiffRecord)
  : JsMap DiffRecord :=
  match currentN with
  | [] => diffs
  | player :: rest =>
      let d := diffOfCurrent last i player in
      diffsOfCurrent last (i + 1) rest
        (if JsNum.sneq (d_oldrank d) (d_newrank d)
         then map_set (toID (name player)) d diffs
         else diffs)
  end.

Definition getDiffs (last current : list LeaderboardEntry) (num : option Q)
  : JsMap DiffRecord :=
  let diffs := diffsOfLast current 0 (firstN num last) [] in
  diffsOfCurrent last 0 (firstN num current) diffs.

(** *** [styleLeaderboard] and [getLeaderboard] *)

(** The rows of the table, from index [i] on. *)
Fixpoint boardRows (diffs : JsMap DiffRecord) (i : Z)
    (board : list LeaderboardEntry) : list BoardRow :=
  match board with
  | [] => []
  | p :: rest =>
      {| row_arrow :=
           match map_get (toID (name p)) diffs with
           | Some diff => Some (JsNum.lt (d_oldrank diff) (d_newrank diff))
           | None => None
           end;
         row_rank := i + 1;
         row_entry := p |} :: boardRows diffs (i + 1) rest
  end.

Definition styleLeaderboard (board : list LeaderboardEntry)
    (final : option number) (c : Client) : Report :=
  let is_final := match final with Some f => JsNum.truthy f | None => false end in
  let diffs :=
    match last (leaderboard c) with
    | Some previous => if is_final then [] else getDiffs previous board None
    | None => []
    end in
  HtmlLeaderboard (if is_final then final else None) (boardRows diffs 0 board).

(** The rows of the ladder file that have at least four fields. *)
Definition ladderRows (text : string) : list (list string) :=
  List.filter (fun row => 4 <=? Z.of_nat (length row))
              (map (split "009") (split "010" text)).

(** One turn of the loop over the rows.  The entry stored in the map is the
    object that is given its rank afterwards, so the map sees the rank. *)
Definition addRow (prefix : string)
    (acc : gmap string LeaderboardEntry * list LeaderboardEntry)
    (data : list string)
  : gmap string LeaderboardEntry * list LeaderboardEntry :=
  let '(table, board) := acc in
  let userid := toID (nth 1 data "") in
  let tracked := startsWith userid prefix in
  let entry :=
    {| name := nth 1 data "";
       rank := if tracked then Some (Z.of_nat (length board) + 1) else None;
       elo := Math_round (parseFloat (nth 0 data ""));
       win := parseInt (nth 2 data "");
       lose := parseInt (nth 3 data "") |} in
  (<[userid := entry]> table, if tracked then (board ++ [entry])%list else board).

Definition set_lookup (table : gmap string LeaderboardEntry) (c : Client)
  : Client :=
  set_leaderboard {| current := current (leaderboard c);
                     last := last (leaderboard c);
                     lookup := table |} c.

Definition set_last (board : option (list LeaderboardEntry)) (c : Client)
  : Client :=
  set_leaderboard {| current := current (leaderboard c);
                     last := board;
                     lookup := lookup (leaderboard c) |} c.

Definition set_current (board : option (list LeaderboardEntry)) (c : Client)
  : Client :=
  set_leaderboard {| current := board;
                     last := last (leaderboard c);
                     lookup := lookup (leaderboard c) |} c.

(** [getLeaderboard(display)]: the array it returns and the client after the
    call.  Reading the file is the first thing the [try] block does; when it
    throws, control goes to the [catch] block at once. *)
Definition getLeaderboard (display : bool) (c : Client)
  : list LeaderboardEntry * Client :=
  match ladder_tsv c with
  | Some text =>
      let '(table, board) :=
        fold_left (addRow (prefix c)) (ladderRows text) (∅, []) in
      let c1 := set_lookup table c in
      (board,
       if display then
         set_lines {| them := 0; total := 0 |}
           (set_changed false
              (set_last (Some board)
                 (report (styleLeaderboard board None c1) c1)))
       else c1)
  | None =>
      ([], if display then report LadderReadFailed c else c)
  end.

(** *** [trackChanges] *)

Definition FACTOR : Q := 3 # 2.

(** The comparison [(a, b) => a[3] - b[3]] is positive. *)
Definition newrankAfter (a b : DiffRecord) : bool :=
  JsNum.gt (JsNum.sub (d_newrank a) (d_newrank b)) (Num 0).

(** [Array.prototype.sort] is stable; a comparison that is [NaN] counts as
    equal. *)
Fixpoint insertByNewrank (a : DiffRecord) (l : list DiffRecord)
  : list DiffRecord :=
  match l with
  | [] => [a]
  | b :: rest =>
      if newrankAfter a b then b :: insertByNewrank a rest else a :: l
  end.

Definition sortByNewrank (l : list DiffRecord) : list DiffRecord :=
  foldr insertByNewrank [] l.

(** [(oldrank > n && newrank <= n) || (oldrank <= n && newrank > n)]. *)
Definition crossesCutoff (n : Z) (d : DiffRecord) : bool :=
  (JsNum.gt (d_oldrank d) (Num n) && JsNum.le (d_newrank d) (Num n))
  || (JsNum.le (d_oldrank d) (Num n) && JsNum.gt (d_newrank d) (Num n)).

(** The test of the [if] that sets [this.changed]. *)
Definition setsChanged (n : Z) (d : DiffRecord) : bool :=
  negb (crossesCutoff n d).

Definition changeMessage (n : Z) (d : DiffRecord) : ChangeMessage :=
  {| msg_falling := JsNum.lt (d_oldrank d) (d_newrank d);
     msg_rank := if JsNum.seq (d_newrank d) PInf then None
                 else Some (d_newrank d);
     msg_name := d_name d;
     msg_rating := if JsNum.truthy (d_elo d) then Some (d_elo d) else None;
     msg_italic := JsNum.gt (d_newrank d) (Num n) |}.

Definition trackChanges (board : list LeaderboardEntry) (display : bool)
    (c : Client) : Client :=
  match current (leaderboard c), config_cutoff c with
  | Some previous, Some n =>
      if n =? 0 then c
      else
        let diffs := getDiffs previous board (Some (inject_Z n * FACTOR)%Q) in
        if map_size diffs =? 0 then c
        else
          let sorted := sortByNewrank (map_values diffs) in
          let c1 :=
            fold_left (fun c d => if setsChanged n d then set_changed true c
                                  else c) sorted c in
          if display then report (RankChanges (map (changeMessage n) sorted)) c1
          else c1
  | _, _ => c
  end.

(** ** Dates *)

(** The time value of a [Date]: milliseconds since the epoch, [None] for an
    invalid date. *)
Definition Date : Type := option Z.

Definition msPerSecond : Z := 1000.
Definition msPerMinute : Z := 60000.
Definition msPerHour : Z := 3600000.
Definition msPerDay : Z := 86400000.

(** [+date]. *)
Definition valueOf (d : Date) : number :=
  match d with Some t => Num t | None => NaN end.

Definition Day (t : Z) : Z := t / msPerDay.
Definition TimeWithinDay (t : Z) : Z := t mod msPerDay.
Definition HourFromTime (t : Z) : Z := (t / msPerHour) mod 24.
Definition MinFromTime (t : Z) : Z := (t / msPerMinute) mod 60.
Definition SecFromTime (t : Z) : Z := (t / msPerSecond) mod 60.
Definition msFromTime (t : Z) : Z := t mod msPerSecond.

Definition MakeTime (hour min sec ms : Z) : Z :=
  hour * msPerHour + min * msPerMinute + sec * msPerSecond + ms.

Definition MakeDate (day time : Z) : Z := day * msPerDay + time.

(** A time value beyond 8.64e15 milliseconds from the epoch is invalid. *)
Definition TimeClip (t : Z) : Date :=
  if Z.abs t <=? 8640000000000000 then Some t else None.

(** The year, month (from 1) and day of the month of a day number. *)
Definition civil (day : Z) : Z * Z * Z :=
  let z := day + 719468 in
  let era := z / 146097 in
  let doe := z - era * 146097 in
  let yoe := (doe - doe / 1460 + doe / 36524 - doe / 146096) / 365 in
  let doy := doe - (365 * yoe + yoe / 4 - yoe / 100) in
  let mp := (5 * doy + 2) / 153 in
  let d := doy - (153 * mp + 2) / 5 + 1 in
  let m := if mp <? 10 then mp + 3 else mp - 9 in
  (yoe + era * 400 + (if m <=? 2 then 1 else 0), m, d).

Section LocalTime.

(** Local time minus UTC, in milliseconds: one offset for all the instants
    of a run.  A change of offset of the host's zone (daylight saving)
    between a clock reading and a time computed from it is not modelled. *)
Variable tz : Z.

Definition getFullYear (t : Z) : Z := fst (fst (civil (Day (t + tz)))).
(** January is month 0. *)
Definition getMonth (t : Z) : Z := snd (fst (civil (Day (t + tz)))) - 1.
Definition getDate (t : Z) : Z := snd (civil (Day (t + tz))).
Definition getHours (t : Z) : Z := HourFromTime (t + tz).
Definition getMinutes (t : Z) : Z := MinFromTime (t + tz).
Definition getSeconds (t : Z) : Z := SecFromTime (t + tz).

Definition setHours (d : Date) (hour : number) : Date :=
  match d, hour with
  | Some t, Num h =>
      let l := t + tz in
      TimeClip (MakeDate (Day l)
                  (MakeTime h (MinFromTime l) (SecFromTime l) (msFromTime l))
                - tz)
  | _, _ => None
  end.

Definition setMinutes (d : Date) (min : number) : Date :=
  match d, min with
  | Some t, Num m =>
      let l := t + tz in
      TimeClip (MakeDate (Day l)
                  (MakeTime (HourFromTime l) m (SecFromTime l) (msFromTime l))
                - tz)
  | _, _ => None
  end.

Definition setSeconds (d : Date) (sec : number) : Date :=
  match d, sec with
  | Some t, Num s =>
      let l := t + tz in
      TimeClip (MakeDate (Day l)
                  (MakeTime (HourFromTime l) (MinFromTime l) s (msFromTime l))
                - tz)
  | _, _ => None
  end.

(** [d.setDate(date)]: the day number of the first of the month of [d] is
    that of [d] less its day of the month plus one. *)
Definition setDate (d : Date) (date : number) : Date :=
  match d, date with
  | Some t, Num dt =>
      let l := t + tz in
      let first := Day l - (snd (civil (Day l)) - 1) in
      TimeClip (MakeDate (first + dt - 1) (TimeWithinDay l) - tz)
  | _, _ => None
  end.

(** [d.setDate(d.getDate() + 1)]. *)
Definition nextDay (d : Date) : Date :=
  setDate d (match d with Some t => Num (getDate t + 1) | None => NaN end).

(** The body shared by [getNextOpenTime] and [getNextCloseTime], which
    differ in the configured time they read. *)
Definition nextTimeOfDay (configured : string) (now : Z) : Date :=
  let parts := split ":" configured in
  let hours := parts !! 0%nat in
  let minutes := parts !! 1%nat in
  let time := setHours (Some now) (parseInt_opt hours) in
  let time := setMinutes time (parseInt_opt minutes) in
  let time := setSeconds time (Num 0) in
  if JsNum.gt (Num now) (valueOf time) then nextDay time else time.

End LocalTime.

(** ** The scheduler *)

Definition getNextOpenTime (now : Z) (c : Client) : Date :=
  nextTimeOfDay (timezone c) (config_open c) now.

Definition getNextCloseTime (now : Z) (c : Client) : Date :=
  nextTimeOfDay (timezone c) (config_close c) now.

(** [setTimeout(callback, delay)] for the two watchers. *)
Definition setTimeout (cb : Callback) (d : number) (c : Client) : Client :=
  set_timers (timers c ++ [{| callback := cb; delay := d |}]) c.

(** [+target - Date.now() - 500]. *)
Definition delayUntil (target : Date) (now : Z) : number :=
  JsNum.sub (JsNum.sub (valueOf target) (Num now)) (Num 500).

(** [+this.deadline!]: a deadline that is not set converts to [NaN]. *)
Definition deadlineValue (c : Client) : number :=
  match deadline c with Some t => Num t | None => NaN end.

Definition openLadder (now : Z) (c : Client) : Client :=
  let c := set_ladderopen true c in
  let c := report (LadderTourOpen (format c)) c in
  if JsNum.ge (Num now) (deadlineValue c) then set_looping false c
  else setTimeout CloseLadderWatcher
         (delayUntil (getNextCloseTime now c) now) c.

Definition closeLadder (decay : bool) (now : Z) (c : Client) : Client :=
  let c := set_ladderopen false c in
  let c := report (LadderTourClose (format c)) c in
  let c := setTimeout OpenLadderWatcher
             (delayUntil (getNextOpenTime now c) now) c in
  if decay then report (LadderTourDecay (format c)) c else c.

(** [setDeadline(argument)], where [date] is [new Date(argument)].  An
    invalid date and the epoch itself are both refused by [!+date]. *)
Definition setDeadline (date : Date) (now : Z) (c : Client) : Client :=
  match date with
  | None => c
  | Some t =>
      if t =? 0 then c
      else
        let c := set_deadline (Some t) c in
        let c := set_final (Some {| callback := FinalCapture;
                                    delay := delayUntil (Some t) now |}) c in
        if looping c then c
        else
          let c :=
            if JsNum.lt (valueOf (getNextOpenTime now c))
                        (valueOf (getNextCloseTime now c))
            then closeLadder false now c
            else openLadder now c in
          set_looping true c
  end.

(** ** JSON *)

(** The values [JSON.parse] produces and [JSON.stringify] serializes.  An
    object lists its properties in order. *)
#[local] Unset Elimination Schemes.
Inductive value : Type :=
| VNull
| VBool (b : bool)
| VNum (n : number)
| VStr (s : string)
| VArr (elements : list value)
| VObj (members : list (string * value)).
#[local] Set Elimination Schemes.

(** *** [JSON.stringify]

    Every printer takes the text that follows what it prints. *)

Definition digitChar (d : Z) : ascii := ascii_of_N (Z.to_N (48 + d)).

(** The decimal digits of [n], least significant first, each put before
    [rest]. *)
Fixpoint showDigits (fuel : nat) (n : Z) (rest : string) : string :=
  match fuel with
  | O => rest
  | S fuel' =>
      let rest' := String (digitChar (n mod 10)) rest in
      if n <? 10 then rest' else showDigits fuel' (n / 10) rest'
  end.

(** The decimal form of an integer, as [String(z)] gives it below 1e21. *)
Definition showZ (z : Z) (rest : string) : string :=
  if z <? 0
  then String "-" (showDigits (S (Z.to_nat (Z.log2 (- z)))) (- z) rest)
  else showDigits (S (Z.to_nat (Z.log2 z))) z rest.

Definition hexChar (n : N) : ascii :=
  if (n <? 10)%N then ascii_of_N (48 + n) else ascii_of_N (87 + n).

(** One character of a string, escaped as [JSON.stringify] escapes it. *)
Definition quoteChar (c : ascii) (rest : string) : string :=
  match c with
  | "034"%char => String "\" (String "034" rest)
  | "\"%char => String "\" (String "\" rest)
  | "008"%char => String "\" (String "b" rest)
  | "012"%char => String "\" (String "f" rest)
  | "010"%char => String "\" (String "n" rest)
  | "013"%char => String "\" (String "r" rest)
  | "009"%char => String "\" (String "t" rest)
  | _ =>
      if (N_of_ascii c <? 32)%N
      then String "\" (String "u" (String "0" (String "0"
             (String (hexChar (N_of_ascii c / 16))
                (String (hexChar (N_of_ascii c mod 16)) rest)))))
      else String c rest
  end.

Fixpoint quoteChars (s : string) (rest : string) : string :=
  match s with
  | EmptyString => rest
  | String c s' => quoteChar c (quoteChars s' rest)
  end.

Definition quote (s : string) (rest : string) : string :=
  String "034" (quoteChars s (String "034" rest)).

(** A number that is not finite is serialized as [null]. *)
Definition printNumber (n : number) (rest : string) : string :=
  match n with
  | Num z => showZ z rest
  | _ => "null" ++ rest
  end.

Section Printers.

(** The printer of a value. *)
Variable print : value -> string -> string.

(** The elements of an array after its first bracket. *)
Fixpoint printElements (first : bool) (l : list value) (rest : string)
  : string :=
  match l with
  | [] => String "]" rest
  | v :: l' =>
      let text := print v (printElements false l' rest) in
      if first then text else String "," text
  end.

(** The members of an object after its first brace. *)
Fixpoint printMembers (first : bool) (l : list (string * value))
    (rest : string) : string :=
  match l with
  | [] => String "}" rest
  | (k, v) :: l' =>
      let text :=
        quote k (String ":" (print v (printMembers false l' rest))) in
      if first then text else String "," text
  end.

End Printers.

Fixpoint printValue (v : value) (rest : string) : string :=
  match v with
  | VNull => "null" ++ rest
  | VBool true => "true" ++ rest
  | VBool false => "false" ++ rest
  | VNum n => printNumber n rest
  | VStr s => quote s rest
  | VArr elements => String "[" (printElements printValue true elements rest)
  | VObj members => String "{" (printMembers printValue true members rest)
  end.

Definition JSON_stringify (v : value) : string := printValue v "".

(** *** [JSON.parse] *)

(** The result of a parser: a value and the text after it, a syntax error,
    or a text the model has no value for (a number that is not an integer,
    or an escape that is half of a surrogate pair).  [OutOfFuel] does not
    occur with the fuel [JSON_parse] gives (lemma [JSON_parse_fuelled]). *)
Inductive parsed (A : Type) : Type :=
| Parsed (a : A) (rest : string)
| SyntaxError
| Unsupported
| OutOfFuel.
Arguments Parsed {A} a rest.
Arguments SyntaxError {A}.
Arguments Unsupported {A}.
Arguments OutOfFuel {A}.

Definition parsedMap {A B} (f : A -> B) (p : parsed A) : parsed B :=
  match p with
  | Parsed a rest => Parsed (f a) rest
  | SyntaxError => SyntaxError
  | Unsupported => Unsupported
  | OutOfFuel => OutOfFuel
  end.

Definition isJsonSpace (c : ascii) : bool :=
  match c with
  | " "%char | "009"%char | "010"%char | "013"%char => true
  | _ => false
  end.

Fixpoint skipWs (s : string) : string :=
  match s with
  | String c r => if isJsonSpace c then skipWs r else s
  | EmptyString => s
  end.

Definition chr (n : Z) : ascii := ascii_of_N (Z.to_N n).

(** The UTF-8 encoding of a code point, put before [rest]. *)
Definition utf8 (cp : Z) (rest : string) : string :=
  if cp <? 128 then String (chr cp) rest
  else if cp <? 2048 then
    String (chr (192 + cp / 64)) (String (chr (128 + cp mod 64)) rest)
  else if cp <? 65536 then
    String (chr (224 + cp / 4096))
      (String (chr (128 + (cp / 64) mod 64))
         (String (chr (128 + cp mod 64)) rest))
  else
    String (chr (240 + cp / 262144))
      (String (chr (128 + (cp / 4096) mod 64))
         (String (chr (128 + (cp / 64) mod 64))
            (String (chr (128 + cp mod 64)) rest))).

Definition hex4 (a b c d : ascii) : option Z :=
  match digit_value 16 a, digit_value 16 b, digit_value 16 c,
        digit_value 16 d with
  | Some x, Some y, Some z, Some w => Some (((x * 16 + y) * 16 + z) * 16 + w)
  | _, _, _, _ => None
  end.

(** The character an escape stands for, [u] apart. *)
Definition escaped (e : ascii) : option ascii :=
  if Ascii.eqb e "034" then Some "034"%char
  else if Ascii.eqb e "\" then Some "\"%char
  else if Ascii.eqb e "/" then Some "/"%char
  else if Ascii.eqb e "b" then Some "008"%char
  else if Ascii.eqb e "f" then Some "012"%char
  else if Ascii.eqb e "n" then Some "010"%char
  else if Ascii.eqb e "r" then Some "013"%char
  else if Ascii.eqb e "t" then Some "009"%char
  else None.

(** The characters of a string literal after its opening quote. *)
Fixpoint parseChars (s : string) : parsed string :=
  match s with
  | EmptyString => SyntaxError
  | String c r =>
      if Ascii.eqb c "034" then Parsed EmptyString r
      else if Ascii.eqb c "\" then
        match r with
        | String e r1 =>
            if Ascii.eqb e "u" then
              match r1 with
              | String h1 (String h2 (String h3 (String h4 r2))) =>
                  match hex4 h1 h2 h3 h4 with
                  | None => SyntaxError
                  | Some u =>
                      if (u <? 55296) || (57343 <? u)
                      then parsedMap (utf8 u) (parseChars r2)
                      else if u <? 56320 then
                        match r2 with
                        | String b (String e'
                            (String l1 (String l2 (String l3 (String l4 r3))))) =>
                            match hex4 l1 l2 l3 l4 with
                            | Some l =>
                                if Ascii.eqb b "\" && Ascii.eqb e' "u"
                                   && (56320 <=? l) && (l <=? 57343)
                                then parsedMap
                                       (utf8 (65536 + (u - 55296) * 1024
                                              + (l - 56320)))
                                       (parseChars r3)
                                else Unsupported
                            | None => Unsupported
                            end
                        | _ => Unsupported
                        end
                      else Unsupported
                  end
              | _ => SyntaxError
              end
            else
              match escaped e with
              | Some ch => parsedMap (String ch) (parseChars r1)
              | None => SyntaxError
              end
        | EmptyString => SyntaxError
        end
      else if (N_of_ascii c <? 32)%N then SyntaxError
      else parsedMap (String c) (parseChars r)
  end.

(** The exponent part of a number literal, if there is one: its value and the
    text after it. *)
Definition parseExponent (s : string) : parsed Z :=
  match s with
  | String "e" r | String "E" r =>
      let '(negative, r1) := sign r in
      let '(value, count, r2) := digits 10 r1 0 0 in
      if count =? 0 then SyntaxError
      else Parsed (if negative then - value else value) r2
  | _ => Parsed 0 s
  end.

(** The minus sign of a number literal, if it has one. *)
Definition minusSign (s : string) : bool * string :=
  match s with
  | String "-" r => (true, r)
  | _ => (false, s)
  end.

(** The integer part of a number literal: 0, or digits of which the first
    is not 0. *)
Definition integerPart (s : string) : parsed Z :=
  match s with
  | String c r =>
      if is_digit c then
        if Ascii.eqb c "0" then Parsed 0 r
        else let '(int, _, s2) := digits 10 s 0 0 in Parsed int s2
      else SyntaxError
  | EmptyString => SyntaxError
  end.

(** The fraction of a number literal, if it has one: a point and at least
    one digit.  The digits continue the integer part [int]; the result is
    the mantissa and the number of digits of the fraction. *)
Definition fractionPart (int : Z) (s : string) : parsed (Z * Z) :=
  match s with
  | String "." r =>
      let '(mant, count, s3) := digits 10 r int 0 in
      if count =? 0 then SyntaxError else Parsed (mant, count) s3
  | _ => Parsed (int, 0) s
  end.

(** A number literal: an optional minus sign, an integer part, an optional
    fraction and an optional exponent.  Its value [m * 10^k] is kept when it
    is an integer. *)
Definition parseNumber (s : string) : parsed number :=
  let '(negative, s1) := minusSign s in
  match integerPart s1 with
  | Parsed int s2 =>
      match fractionPart int s2 with
      | Parsed (mant, count) s3 =>
          match parseExponent s3 with
          | Parsed e s4 =>
              let m := if negative then - mant else mant in
              let k := e - count in
              if 0 <=? k then Parsed (Num (m * 10 ^ k)) s4
              else if m mod 10 ^ (- k) =? 0
                   then Parsed (Num (m / 10 ^ (- k))) s4
                   else Unsupported
          | SyntaxError => SyntaxError
          | Unsupported => Unsupported
          | OutOfFuel => OutOfFuel
          end
      | SyntaxError => SyntaxError
      | Unsupported => Unsupported
      | OutOfFuel => OutOfFuel
      end
  | SyntaxError => SyntaxError
  | Unsupported => Unsupported
  | OutOfFuel => OutOfFuel
  end.

(** The rest of [s] after the character [c], when [s] starts with it. *)
Definition afterChar (c : ascii) (s : string) : option string :=
  match s with
  | String c' r => if Ascii.eqb c' c then Some r else None
  | EmptyString => None
  end.

(** The rest of [s] after the word [w], when [s] starts with it. *)
Fixpoint afterWord (w s : string) : option string :=
  match w with
  | EmptyString => Some s
  | String c w' =>
      match afterChar c s with
      | Some r => afterWord w' r
      | None => None
      end
  end.

(** One of the three literal names, when [s] starts with one. *)
Definition parseLiteral (s : string) : option (value * string) :=
  match afterWord "null" s, afterWord "true" s, afterWord "false" s with
  | Some r, _, _ => Some (VNull, r)
  | _, Some r, _ => Some (VBool true, r)
  | _, _, Some r => Some (VBool false, r)
  | _, _, _ => None
  end.

(** A value, the elements of an array after its first bracket, and the
    members of an object after its first brace. *)
Fixpoint parseValue (fuel : nat) (s : string) : parsed value :=
  match fuel with
  | O => OutOfFuel
  | S fuel =>
      let s := skipWs s in
      match afterChar "034" s, afterChar "[" s, afterChar "{" s with
      | Some r, _, _ => parsedMap VStr (parseChars r)
      | _, Some r, _ =>
          match afterChar "]" (skipWs r) with
          | Some r' => Parsed (VArr []) r'
          | None => parsedMap VArr (parseElements fuel r)
          end
      | _, _, Some r =>
          match afterChar "}" (skipWs r) with
          | Some r' => Parsed (VObj []) r'
          | None => parsedMap VObj (parseMembers fuel r)
          end
      | None, None, None =>
          match parseLiteral s with
          | Some (v, r) => Parsed v r
          | None => parsedMap VNum (parseNumber s)
          end
      end
  end
with parseElements (fuel : nat) (s : string) : parsed (list value) :=
  match fuel with
  | O => OutOfFuel
  | S fuel =>
      match parseValue fuel s with
      | Parsed v r =>
          match afterChar "," (skipWs r), afterChar "]" (skipWs r) with
          | Some r', _ => parsedMap (cons v) (parseElements fuel r')
          | _, Some r' => Parsed [v] r'
          | None, None => SyntaxError
          end
      | SyntaxError => SyntaxError
      | Unsupported => Unsupported
      | OutOfFuel => OutOfFuel
      end
  end
with parseMembers (fuel : nat) (s : string) : parsed (list (string * value)) :=
  match fuel with
  | O => OutOfFuel
  | S fuel =>
      match afterChar "034" (skipWs s) with
      | Some r =>
          match parseChars r with
          | Parsed k r1 =>
              match afterChar ":" (skipWs r1) with
              | Some r2 =>
                  match parseValue fuel r2 with
                  | Parsed v r3 =>
                      match afterChar "," (skipWs r3),
                            afterChar "}" (skipWs r3) with
                      | Some r', _ =>
                          parsedMap (cons (k, v)) (parseMembers fuel r')
                      | _, Some r' => Parsed [(k, v)] r'
                      | None, None => SyntaxError
                      end
                  | SyntaxError => SyntaxError
                  | Unsupported => Unsupported
                  | OutOfFuel => OutOfFuel
                  end
              | None => SyntaxError
              end
          | SyntaxError => SyntaxError
          | Unsupported => Unsupported
          | OutOfFuel => OutOfFuel
          end
      | None => SyntaxError
      end
  end.

(** [JSON.parse(text)]: one value, with nothing but white space around it. *)
Definition JSON_parse (text : string) : parsed value :=
  match parseValue (2 * String.length text + 2) text with
  | Parsed v rest =>
      match skipWs rest with
      | EmptyString => Parsed v EmptyString
      | _ => SyntaxError
      end
  | failure => failure
  end.

(** [v[k]] for a parsed object: the last member with the key counts. *)
Fixpoint getMember (k : string) (members : list (string * value))
  : option value :=
  match members with
  | [] => None
  | (k', v) :: rest =>
      match getMember k rest with
      | Some v' => Some v'
      | None => if String.eqb k' k then Some v else None
      end
  end.

Definition getProp (k : string) (v : value) : option value :=
  match v with
  | VObj members => getMember k members
  | _ => None
  end.

(** ** The top log *)

Module TopLog.

(** [{'win': number, 'lose': number}]. *)
Record stat : Type := { win : number; lose : number }.

(** One entry of [logs]. *)
Record entry : Type := {
  username : string;
  currentstat : stat;
  originalstat : stat;
  continuouswin : number;
  starttime : string;
  ticks : number
}.

(** The type [topLog]. *)
Record topLog : Type := {
  prefix : string;
  currenttop : string;
  logs : gmap string entry
}.

(** The object of a [topLog], as [JSON.stringify] walks it.  The members
    of [logs] are listed as the map enumerates them; the order of the
    properties of an object plays no part in what is modelled. *)
Definition statValue (s : stat) : value :=
  VObj [("win", VNum (win s)); ("lose", VNum (lose s))].

Definition entryValue (e : entry) : value :=
  VObj [("username", VStr (username e));
        ("currentstat", statValue (currentstat e));
        ("originalstat", statValue (originalstat e));
        ("continuouswin", VNum (continuouswin e));
        ("starttime", VStr (starttime e));
        ("ticks", VNum (ticks e))].

Definition toValue (tops : topLog) : value :=
  VObj [("prefix", VStr (prefix tops));
        ("currenttop", VStr (currenttop tops));
        ("logs", VObj (map (fun kv => (fst kv, entryValue (snd kv)))
                           (map_to_list (logs tops))))].

(** A parsed value seen as a [topLog]: it has the properties of the type,
    with values of the types declared. *)
Definition asString (v : option value) : option string :=
  match v with Some (VStr s) => Some s | _ => None end.

Definition asNumber (v : option value) : option number :=
  match v with Some (VNum n) => Some n | _ => None end.

Definition asStat (v : option value) : option stat :=
  match v with
  | Some o =>
      match asNumber (getProp "win" o), asNumber (getProp "lose" o) with
      | Some w, Some l => Some {| win := w; lose := l |}
      | _, _ => None
      end
  | None => None
  end.

Definition asEntry (o : value) : option entry :=
  match asString (getProp "username" o),
        asStat (getProp "currentstat" o),
        asStat (getProp "originalstat" o),
        asNumber (getProp "continuouswin" o),
        asString (getProp "starttime" o),
        asNumber (getProp "ticks" o) with
  | Some u, Some c, Some o, Some w, Some s, Some t =>
      Some {| username := u; currentstat := c; originalstat := o;
              continuouswin := w; starttime := s; ticks := t |}
  | _, _, _, _, _, _ => None
  end.

(** The members of [logs], each an entry; a key given twice keeps its last
    value. *)
Fixpoint asLogs (members : list (string * value))
    (acc : gmap string entry) : option (gmap string entry) :=
  match members with
  | [] => Some acc
  | (k, v) :: rest =>
      match asEntry v with
      | Some e => asLogs rest (<[k := e]> acc)
      | None => None
      end
  end.

Definition ofValue (v : value) : option topLog :=
  match asString (getProp "prefix" v),
        asString (getProp "currenttop" v),
        getProp "logs" v with
  | Some p, Some t, Some (VObj members) =>
      match asLogs members ∅ with
      | Some m => Some {| prefix := p; currenttop := t; logs := m |}
      | None => None
      end
  | _, _, _ => None
  end.

End TopLog.

Import TopLog (topLog).

(** The exceptions of the model: of [JSON.parse], of reading a property
    of [null] or [undefined], and of [fs.readFileSync]. *)
Inductive Error : Type :=
| JsSyntaxError
| JsTypeError
| JsSystemError.

(** What a call does: it returns, it throws, or it leaves the model (the
    file holds a value that is not a [topLog], or a text [JSON_parse] has
    no value for). *)
Inductive Outcome (A : Type) : Type :=
| Returns (a : A)
| Throws (e : Error)
| NotModelled.
Arguments Returns {A} a.
Arguments Throws {A} e.
Arguments NotModelled {A}.

(** [s.slice(-2)]. *)
Fixpoint lastTwo (s : string) : string :=
  match s with
  | String _ (String _ (String _ _) as r) => lastTwo r
  | _ => s
  end.

(** [zfill]: [('0' + s).slice(-2)]. *)
Definition zfill (z : Z) : string := lastTwo (String "0" (showZ z "")).

Definition formatDateTime (tz : Z) (date : Z) : string :=
  showZ (getFullYear tz date)
    (String "-" (zfill (getMonth tz date) ++ String "-"
       (zfill (getDate tz date) ++ String " "
          (zfill (getHours tz date) ++ String ":"
             (zfill (getMinutes tz date)))))).

Definition newTopLog (c : Client) : topLog :=
  {| TopLog.prefix := prefix c; TopLog.currenttop := "";
     TopLog.logs := ∅ |}.

(** [getTopLog()]: [fs.existsSync] tells whether the file is there, and
    nothing catches what [fs.readFileSync] and [JSON.parse] throw.  What the
    caller receives is the parsed value as it is; nothing checks that it is
    a [topLog]. *)
Definition getTopLog (c : Client) : Outcome value :=
  match tops_json c with
  | Contents text =>
      match JSON_parse text with
      | Parsed v _ => Returns v
      | SyntaxError => Throws JsSyntaxError
      | Unsupported | OutOfFuel => NotModelled
      end
  | Unreadable => Throws JsSystemError
  | Missing => Returns (TopLog.toValue (newTopLog c))
  end.

Definition saveTopLog (tops : topLog) (c : Client) : Client :=
  set_tops_json (Contents (JSON_stringify (TopLog.toValue tops))) c.

(** The same entrant is on top: the assignments to [tops.logs[userid]]. *)
Definition retainTop (open : bool) (win lose : number) (e : TopLog.entry)
  : TopLog.entry :=
  {| TopLog.username := TopLog.username e;
     TopLog.currentstat := {| TopLog.win := win; TopLog.lose := lose |};
     TopLog.originalstat := TopLog.originalstat e;
     TopLog.continuouswin :=
       if JsNum.gt lose (TopLog.lose (TopLog.currentstat e)) then Num 0
       else JsNum.add (TopLog.continuouswin e)
              (JsNum.sub win (TopLog.win (TopLog.currentstat e)));
     TopLog.starttime := TopLog.starttime e;
     TopLog.ticks :=
       if open then JsNum.add (TopLog.ticks e) (Num 1) else TopLog.ticks e |}.

(** Another entrant is on top: the object assigned to [tops.logs[userid]]. *)
Definition newTop (username : string) (win lose : number) (start : string)
  : TopLog.entry :=
  {| TopLog.username := username;
     TopLog.currentstat := {| TopLog.win := win; TopLog.lose := lose |};
     TopLog.originalstat := {| TopLog.win := win; TopLog.lose := lose |};
     TopLog.continuouswin := Num 0;
     TopLog.starttime := start;
     TopLog.ticks := Num 1 |}.

(** The log [updateTopLog] works on: the one loaded, or a new one when the
    prefix of the loaded one [!==] the prefix of the client.  Reading
    [tops.prefix] throws when the file holds [null]. *)
Definition currentTopLog (c : Client) : Outcome topLog :=
  match getTopLog c with
  | Returns VNull => Throws JsTypeError
  | Returns v =>
      match getProp "prefix" v with
      | Some (VStr p) =>
          if String.eqb p (prefix c) then
            match TopLog.ofValue v with
            | Some tops => Returns tops
            | None => NotModelled
            end
          else Returns (newTopLog c)
      | _ => Returns (newTopLog c)
      end
  | Throws e => Throws e
  | NotModelled => NotModelled
  end.

(** The body of [updateTopLog] after [tops] is settled.  Reading a property
    of [tops.logs[userid]] throws when the log has no such entry. *)
Definition updateTops (username : string) (win lose : number) (date : Z)
    (c : Client) (tops : topLog) : Outcome topLog :=
  let userid := toID username in
  if String.eqb userid (TopLog.currenttop tops) then
    match TopLog.logs tops !! userid with
    | Some e =>
        Returns {| TopLog.prefix := TopLog.prefix tops;
                   TopLog.currenttop := TopLog.currenttop tops;
                   TopLog.logs :=
                     <[userid := retainTop (ladderopen c) win lose e]>
                       (TopLog.logs tops) |}
    | None => Throws JsTypeError
    end
  else
    Returns {| TopLog.prefix := TopLog.prefix tops;
               TopLog.currenttop := userid;
               TopLog.logs :=
                 <[userid := newTop username win lose
                               (formatDateTime (timezone c) date)]>
                   (TopLog.logs tops) |}.

Definition updateTopLog (username : string) (win lose : number) (date : Z)
    (c : Client) : Outcome Client :=
  match currentTopLog c with
  | Returns tops =>
      match updateTops username win lose date c tops with
      | Returns tops' => Returns (saveTopLog tops' c)
      | Throws e => Throws e
      | NotModelled => NotModelled
      end
  | Throws e => Throws e
  | NotModelled => NotModelled
  end.

(** ** Notions the properties are stated with *)

(** The identifier of an entry, and the identifiers of a snapshot. *)
Definition idOf (e : LeaderboardEntry) : string := toID (name e).

Definition ids (l : list LeaderboardEntry) : list string := map idOf l.

(** The rank of an identifier in a sequence: the position, from 1, of the
    entry that bears it, and [Infinity] when none does. *)
Definition rankIn (id : string) (l : list LeaderboardEntry) : number :=
  if rankOf id l =? 0 then PInf else Num (rankOf id l).


(** A client that has just been constructed, with the given prefix. *)
Definition newClient (prefix : string) : Client :=
  {| config_open := "06:00"; config_close := "22:00"; config_cutoff := None;
     format := "gen8ou"; prefix := prefix; deadline := None; final := None;
     started := false; showdiffs := false;
     leaderboard := {| current := None; last := None; lookup := ∅ |};
     cooldown := None; changed := false; lines := {| them := 0; total := 0 |};
     looping := false; ladderopen := true; ladder_tsv := None;
     tops_json := Missing; outbox := []; timers := []; timezone := 0 |}.

(** An entry of a snapshot. *)
Definition player (name : string) (elo : Z) : LeaderboardEntry :=
  {| name := name; rank := None; elo := Num elo; win := Num 0; lose := Num 0 |}.

(** A top log with two entries, held by the second, and a client whose
    file [tops.json] holds it. *)
Definition logOfAl : TopLog.entry :=
  {| TopLog.username := "ABC Al";
     TopLog.currentstat := {| TopLog.win := Num 9; TopLog.lose := Num 2 |};
     TopLog.originalstat := {| TopLog.win := Num 4; TopLog.lose := Num 1 |};
     TopLog.continuouswin := Num 3;
     TopLog.starttime := "2026-09-30 08:00";
     TopLog.ticks := Num 120 |}.

Definition logOfBob : TopLog.entry :=
  {| TopLog.username := "ABC Bob";
     TopLog.currentstat := {| TopLog.win := Num 12; TopLog.lose := Num 3 |};
     TopLog.originalstat := {| TopLog.win := Num 10; TopLog.lose := Num 3 |};
     TopLog.continuouswin := Num 2;
     TopLog.starttime := "2026-09-30 10:00";
     TopLog.ticks := Num 45 |}.

Definition storedTops : topLog :=
  {| TopLog.prefix := "abc";
     TopLog.currenttop := "abcbob";
     TopLog.logs := <["abcbob" := logOfBob]> (<["abcal" := logOfAl]> ∅) |}.

Definition clientWithTops : Client := saveTopLog storedTops (newClient "abc").

(** 23:05 on 2 November 2026, UTC. *)
Definition exampleNow : Z := 1793660700000.

(** A configured time of day [h:m], when it is one: two fields that
    [parseInt] reads as an hour and a minute. *)
Definition timeOfDay (configured : string) : option (Z * Z) :=
  match split ":" configured with
  | hours :: minutes :: _ =>
      match parseInt hours, parseInt minutes with
      | Num h, Num m =>
          if (0 <=? h) && (h <? 24) && (0 <=? m) && (m <? 60)
          then Some (h, m) else None
      | _, _ => None
      end
  | _ => None
  end.

(** The second of the local day at time [t]. *)
Definition secondOfDay (tz t : Z) : Z := TimeWithinDay (t + tz) / msPerSecond.

(** [target] is the next time of day [h:m] after [now]: it is a valid date
    whose local hour, minute and second are [h], [m] and 0; its local day is
    the day of [now] when the second of the day at [now] is not after
    [h:m:00], and the day after otherwise.  It has the milliseconds of
    [now]. *)
Definition isNextTimeOfDay (tz now h m : Z) (target : Date) : Prop :=
  exists t,
    target = Some t
    /\ getHours tz t = h /\ getMinutes tz t = m /\ getSeconds tz t = 0
    /\ Day (t + tz)
       = Day (now + tz)
         + (if 3600 * h + 60 * m <? secondOfDay tz now then 1 else 0)
    /\ msFromTime (t + tz) = msFromTime (now + tz).

(** The time value of the local time [h:m:00.000] on the day [d]. *)
Definition localTime (tz d h m : Z) : Z :=
  MakeDate d (MakeTime h m 0 0) - tz.

(** A rank is above the cutoff [n]. *)
Definition aboveCutoff (n : Z) (r : number) : bool := JsNum.gt r (Num n).

(** A client that tracks the changes of the snapshot [previous] with the
    cutoff [n]. *)
Definition trackingClient (n : Z) (previous : list LeaderboardEntry)
  : Client :=
  {| config_open := "06:00"; config_close := "22:00";
     config_cutoff := Some n;
     format := "gen8ou"; prefix := "abc"; deadline := None; final := None;
     started := true; showdiffs := false;
     leaderboard := {| current := Some previous; last := None; lookup := ∅ |};
     cooldown := None; changed := false; lines := {| them := 0; total := 0 |};
     looping := false; ladderopen := true; ladder_tsv := None;
     tops_json := Missing; outbox := []; timers := []; timezone := 0 |}.

(** A rank is a position or [Infinity]. *)
Definition isRank (r : number) : Prop := r = PInf \/ exists z, r = Num z.

(** A text that may follow a value in what [JSON.stringify] prints: the
    end of the text, or a comma, a closing bracket or a closing brace. *)
Definition delimited (rest : string) : Prop :=
  rest = EmptyString
  \/ exists r, rest = String "," r \/ rest = String "]" r
               \/ rest = String "}" r.

(** What [JSON.stringify] keeps of a value: a number that is not finite
    becomes [null]. *)
Fixpoint sanitize (v : value) : value :=
  match v with
  | VNum n => if JsNum.finite n then VNum n else VNull
  | VArr elements => VArr (map sanitize elements)
  | VObj members => VObj (map (fun kv => (fst kv, sanitize (snd kv))) members)
  | _ => v
  end.

(** The number of values, elements and members in a value: the fuel that
    parsing its text takes. *)
Fixpoint valueSize (v : value) : nat :=
  match v with
  | VArr elements => S (list_sum (map (fun v => S (valueSize v)) elements))
  | VObj members =>
      S (list_sum (map (fun kv => S (valueSize (snd kv))) members))
  | _ => 1%nat
  end.

(** A character that can be the first of what is printed for a value: not
    white space, not a closing bracket or brace. *)
Definition opensValue (c : ascii) : Prop :=
  isJsonSpace c = false /\ c <> "]"%char /\ c <> "}"%char.

(** What is printed for the value [v] parses back, with fuel [fuel] and
    whatever follows. *)
Definition parsesBack (v : value) : Prop :=
  forall (fuel : nat) (rest : string),
    delimited rest ->
    (valueSize v <= fuel)%nat ->
    parseValue fuel (printValue v rest) = Parsed (sanitize v) rest.

(** A top log all of whose numbers are finite. *)
Definition finiteStat (s : TopLog.stat) : Prop :=
  JsNum.finite (TopLog.win s) = true /\ JsNum.finite (TopLog.lose s) = true.

Definition finiteEntry (e : TopLog.entry) : Prop :=
  finiteStat (TopLog.currentstat e)
  /\ finiteStat (TopLog.originalstat e)
  /\ JsNum.finite (TopLog.continuouswin e) = true
  /\ JsNum.finite (TopLog.ticks e) = true.

Definition finiteTops (tops : topLog) : Prop :=
  forall userid e, TopLog.logs tops !! userid = Some e -> finiteEntry e.

(** A top log whose only entry has a number of wins that is not a number,
    as [parseInt] gives for a field that is not numeric. *)
Definition topsWithNaN : topLog :=
  {| TopLog.prefix := "abc";
     TopLog.currenttop := "abcal";
     TopLog.logs :=
       {["abcal" := newTop "ABC Al" NaN (Num 1) "2026-10-02 23:05"]} |}.

(** [v[k1][k2]...], when every property on the way is there. *)
Fixpoint getPath (path : list string) (v : value) : option value :=
  match path with
  | [] => Some v
  | k :: path' =>
      match getProp k v with
      | Some v' => getPath path' v'
      | None => None
      end
  end.

(** A ladder file: the header, two rows and a line that is not a row. *)
Definition ladderText : string :=
  String.concat (String "010" EmptyString)
    [String.concat (String "009" EmptyString)
       ["Elo"; "Username"; "W"; "L"; "T"; "Last update"];
     String.concat (String "009" EmptyString)
       ["1500.5"; "ABC Bob"; "3"; "1"; "0"; "today"];
     String.concat (String "009" EmptyString)
       ["1490.2"; "Zed"; "5"; "x"; "0"; "today"];
     "not a row"].

(** A client that has shown the board of [ladderText] and holds it as its
    current snapshot, and whose ladder file can no longer be read. *)
Definition clientWithBoard : Client :=
  let '(board, c) :=
    getLeaderboard true
      (set_ladder_tsv (Some ladderText) (newClient "abc")) in
  set_ladder_tsv None (set_current (Some board) c).

(** A parser that returns a value leaves a rest shorter than [n]. *)
Definition consumes {A} (p : parsed A) (n : nat) : Prop :=
  match p with
  | Parsed _ rest => (String.length rest < n)%nat
  | _ => True
  end.

(** A parser that did not give up for lack of fuel. *)
Definition fuelled {A} (p : parsed A) : Prop := p <> OutOfFuel.

(** ** Notions for the properties of the functions beside the claims *)

(** A character of an identifier: a lower-case letter or a digit. *)
Definition isIdChar (c : ascii) : bool := is_lower c || is_digit c.

(** A string of such characters. *)
Fixpoint isID (s : string) : bool :=
  match s with
  | EmptyString => true
  | String c r => isIdChar c && isID r
  end.

(** A string of ASCII characters. *)
Fixpoint isAscii (s : string) : bool :=
  match s with
  | EmptyString => true
  | String c r => (N_of_ascii c <? 128)%N && isAscii r
  end.

(** The letters and digits of a string, in order, a capital letter giving
    the small one. *)
Fixpoint idChars (s : string) : string :=
  match s with
  | EmptyString => EmptyString
  | String c r =>
      if is_lower c || is_digit c then String c (idChars r)
      else if is_upper c then String (ascii_of_N (N_of_ascii c + 32)) (idChars r)
      else idChars r
  end.

(** The character [c] occurs in [s]. *)
Fixpoint occurs (c : ascii) (s : string) : bool :=
  match s with
  | EmptyString => false
  | String c' r => Ascii.eqb c' c || occurs c r
  end.

(** How many times it does. *)
Fixpoint occurrences (c : ascii) (s : string) : nat :=
  match s with
  | EmptyString => 0%nat
  | String c' r => ((if Ascii.eqb c' c then 1 else 0) + occurrences c r)%nat
  end.


(** The identifier of a row of the ladder file, and whether the board of
    the prefix [p] takes the row. *)
Definition rowId (data : list string) : string := toID (nth 1 data "").

Definition onBoard (p : string) (data : list string) : bool :=
  startsWith (rowId data) p.

(** The arrow [styleLeaderboard] shows before the rank [r] of an entry that
    had the rank [old] on the board shown before: none when the rank is the
    same, and otherwise the falling arrow ([true]) when the old rank is the
    smaller; an entry that was not on that board has the rising arrow. *)
Definition arrowOf (old : number) (r : Z) : option bool :=
  if JsNum.sneq old (Num r) then Some (JsNum.lt old (Num r)) else None.

(** The row of the entry [p] at index [j], given the board shown before,
    if one was. *)
Definition rowOf (previous : option (list LeaderboardEntry)) (j : nat)
    (p : LeaderboardEntry) : BoardRow :=
  {| row_arrow :=
       match previous with
       | Some previous => arrowOf (rankIn (idOf p) previous) (Z.of_nat j + 1)
       | None => None
       end;
     row_rank := Z.of_nat j + 1;
     row_entry := p |}.



(** ** The watchers of the scheduler *)

(** [openLadderWatcher()] and [closeLadderWatcher()].  Before the time has
    come, the watcher hands itself to [process.nextTick] and returns: it
    runs again at the next tick, on the client as it is, which is [None]
    here.  Otherwise it opens, or closes, the ladder. *)
Definition openLadderWatcher (now : Z) (c : Client) : option Client :=
  if JsNum.lt (Num now) (valueOf (getNextOpenTime now c)) then None
  else Some (openLadder now c).

Definition closeLadderWatcher (now : Z) (c : Client) : option Client :=
  if JsNum.lt (Num now) (valueOf (getNextCloseTime now c)) then None
  else Some (closeLadder true now c).

(** The local time at [now] is in the second [h:m:00]. *)
Definition atTimeOfDay (tz now h m : Z) : bool :=
  secondOfDay tz now =? 3600 * h + 60 * m.

(** A client whose loop runs, with the ladder closed, for the configured
    times [open] and [close]. *)
Definition scheduledClient (open close : string) : Client :=
  {| config_open := open; config_close := close; config_cutoff := None;
     format := "gen8ou"; prefix := "abc"; deadline := None; final := None;
     started := false; showdiffs := false;
     leaderboard := {| current := None; last := None; lookup := ∅ |};
     cooldown := None; changed := false; lines := {| them := 0; total := 0 |};
     looping := true; ladderopen := false; ladder_tsv := None;
     tops_json := Missing; outbox := []; timers := []; timezone := 0 |}.

(** ** Starting, stopping and the final board *)

(** [start()], as far as the client is concerned: the interval it arms is
    the tick of [intervalTick] below, and [started] tells that it runs. *)
Definition start (c : Client) : Client :=
  if started c then c
  else set_started true (report (Status false) c).

(** [stop()]. *)
Definition stop (c : Client) : Client :=
  if started c then
    set_last None
      (set_current None (report (Status true) (set_started false c)))
  else c.

(** [captureFinalLeaderboard()].  Before the deadline it hands itself to
    [process.nextTick] and returns, which is [None] here; a deadline that
    is not set compares as [NaN] and does not hold it back.  Then it reads
    the ladder, without display, and sends the board as the final one, with
    the clock reading [+now]. *)
Definition captureFinalLeaderboard (now : Z) (c : Client) : option Client :=
  if JsNum.lt (Num now) (deadlineValue c) then None
  else
    let '(board, c1) := getLeaderboard false c in
    Some (set_deadline None
            (report (styleLeaderboard board (Some (Num now)) c1) c1)).

(** The callback of the final timer: [stop()], then
    [captureFinalLeaderboard()]. *)
Definition finalCapture (now : Z) (c : Client) : option Client :=
  captureFinalLeaderboard now (stop c).

(** ** The cooldown of the leaderboard command *)

(** [this.cooldown = v]. *)
Definition set_cooldown (v : option Z) (c : Client) : Client :=
  {| config_open := config_open c; config_close := config_close c;
     config_cutoff := config_cutoff c; format := format c;
     prefix := prefix c; deadline := deadline c; final := final c;
     started := started c; showdiffs := showdiffs c;
     leaderboard := leaderboard c; cooldown := v; changed := changed c;
     lines := lines c; looping := looping c; ladderopen := ladderopen c;
     ladder_tsv := ladder_tsv c; tops_json := tops_json c;
     outbox := outbox c; timers := timers c; timezone := timezone c |}.

(** [leaderboardCooldown(now)].  The quotient of two integers is floored,
    which is the division of [Z]. *)
Definition leaderboardCooldown (now : Z) (c : Client) : bool :=
  match cooldown c with
  | None => true
  | Some since =>
      let wait := (now - since) / 60000 in
      let n := if changed c then them (lines c) else total (lines c) in
      if (n <? 5) && (wait <? 3) then false
      else
        let factor := if changed c then 6 else 1 in
        60 <=? factor * (wait + n)
  end.

(** The minutes, rounded down, since the board was shown last. *)
Definition minutesSince (now : Z) (c : Client) : Z :=
  (now - default 0 (cooldown c)) / 60000.

(** ** Watching the top of the ladder *)

(** The board [watchTop] looks at: the snapshot the client holds, when it
    holds one and no board was displayed in the last 10 seconds; the board
    read from the ladder file otherwise. *)
Definition boardWatched (now : Z) (c : Client)
  : list LeaderboardEntry * Client :=
  match current (leaderboard c) with
  | Some board =>
      if 10000 <? now - default 0 (cooldown c) then (board, c)
      else getLeaderboard false c
  | None => getLeaderboard false c
  end.

(** [watchTop()], after it has armed itself again for a minute later,
    which is the first thing it does: that timer is the minute tick that
    calls this function, and is not kept in [timers].  The client the call
    leaves, and how the call ends: when [updateTopLog] throws, the table
    [getLeaderboard] has read stays. *)
Definition watchTop (now : Z) (c : Client) : Client * Outcome unit :=
  match deadline c with
  | None => (c, Returns tt)
  | Some t =>
      if t <=? now then (c, Returns tt)
      else
        let '(board, c1) := boardWatched now c in
        match board with
        | [] => (c1, Returns tt)
        | top :: _ =>
            match updateTopLog (name top) (win top) (lose top) now c1 with
            | Returns c2 => (c2, Returns tt)
            | Throws e => (c1, Throws e)
            | NotModelled => (c1, NotModelled)
            end
        end
  end.

(** ** The room: battles, tracked users and commands *)

(** A battle of the room list. *)
Record Battle : Type := { p1 : string; p2 : string; minElo : number }.

(** The note that goes with the rating of a battle: the average it is, or
    the lowest rating of the battle. *)
Inductive RatingNote : Type :=
| AverageOf (rating : number)
| LowestOf (minElo : number).

(** [Math.round(n / 2)]: halves go up. *)
Definition halfRounded (n : number) : number :=
  match n with
  | Num x => Num ((x + 1) / 2)
  | other => other
  end.

(** [averageRating(a, b)]. *)
Definition averageRating (a b : number) : number * RatingNote :=
  let rating := halfRounded (JsNum.add a b) in
  (rating, AverageOf rating).

(** [getRating(battle)]. *)
Definition getRating (battle : Battle) (c : Client) : number * RatingNote :=
  let e1 := lookup (leaderboard c) !! toID (p1 battle) in
  let e2 := lookup (leaderboard c) !! toID (p2 battle) in
  match e1, e2 with
  | Some a, Some b => averageRating (elo a) (elo b)
  | _, _ =>
      match e1 with
      | Some a =>
          if JsNum.gt (elo a) (minElo battle)
          then averageRating (elo a) (minElo battle)
          else (minElo battle, LowestOf (minElo battle))
      | None =>
          match e2 with
          | Some b =>
              if JsNum.gt (elo b) (minElo battle)
              then averageRating (elo b) (minElo battle)
              else (minElo battle, LowestOf (minElo battle))
          | None => (minElo battle, LowestOf (minElo battle))
          end
      end
  end.

(** What the client sends to the room beside the reports above.  As for
    those, the wording, the markup and the colours are not modelled;
    [TimeRemaining] stands for the text [formatTimeRemaining] makes of the
    milliseconds, and [TopBoard] for the tables [styleTopBoard] makes of
    the log. *)
Inductive Notice : Type :=
| RoomList (format : string)
| CoolingDown
| NoDeadline
| TimeRemaining (ms : number)
| PrefixIs (prefix : string)
| LadderTourPrefix (prefix : string)
| RatingIs (rating : number)
| NothingTracked
| Tracked (users : list string)
| NoTopYet
| TopBoard (tops : topLog)
| Leave
| BattleStarted (roomid player1 player2 : string) (note : RatingNote).

(** The client with the rest of its state: the nickname of the
    configuration, the lowest rating of the battles reported, the users
    tracked (a [Set], of which the list is the order of insertion), the
    last battle reported, and the notices sent.  A notice is kept with the
    number of reports of [outbox] that were sent before it, which places
    it among them. *)
Record Room : Type := {
  client : Client;
  config_nickname : string;
  rating : number;
  users : list string;
  lastid : option string;
  sent : list (nat * Notice)
}.

Definition with_client (f : Client -> Client) (r : Room) : Room :=
  {| client := f (client r); config_nickname := config_nickname r;
     rating := rating r; users := users r; lastid := lastid r;
     sent := sent r |}.

Definition set_rating (v : number) (r : Room) : Room :=
  {| client := client r; config_nickname := config_nickname r;
     rating := v; users := users r; lastid := lastid r; sent := sent r |}.

Definition set_users (v : list string) (r : Room) : Room :=
  {| client := client r; config_nickname := config_nickname r;
     rating := rating r; users := v; lastid := lastid r; sent := sent r |}.

Definition set_lastid (v : option string) (r : Room) : Room :=
  {| client := client r; config_nickname := config_nickname r;
     rating := rating r; users := users r; lastid := v; sent := sent r |}.

(** [this.report(message)] for a notice. *)
Definition say (n : Notice) (r : Room) : Room :=
  {| client := client r; config_nickname := config_nickname r;
     rating := rating r; users := users r; lastid := lastid r;
     sent := sent r ++ [(length (outbox (client r)), n)] |}.

(** [set.has(x)], [set.add(x)] and [set.delete(x)]. *)
Definition set_has (x : string) (s : list string) : bool :=
  existsb (String.eqb x) s.

Definition set_add (x : string) (s : list string) : list string :=
  if set_has x s then s else (s ++ [x])%list.

Definition set_delete (x : string) (s : list string) : list string :=
  List.filter (fun y => negb (String.eqb x y)) s.

(** A value that is a boolean, a number or [undefined], its truthiness,
    and [a && b]. *)
Inductive jsval : Type :=
| JBool (b : bool)
| JNum (n : number)
| JUndefined.

Definition truthyVal (v : jsval) : bool :=
  match v with
  | JBool b => b
  | JNum n => JsNum.truthy n
  | JUndefined => false
  end.

Definition andVal (a b : jsval) : jsval := if truthyVal a then b else a.

(** [e?.rank], and [e.rank <= limit] where it is evaluated, which is
    where [e?.rank] is truthy. *)
Definition rankVal (e : option LeaderboardEntry) : jsval :=
  match e with
  | Some e => match rank e with Some r => JNum (Num r) | None => JUndefined end
  | None => JUndefined
  end.

Definition rankWithin (e : option LeaderboardEntry) (limit : Q) : jsval :=
  match e with
  | Some e =>
      match rank e with
      | Some r => JBool (Qle_bool (inject_Z r) limit)
      | None => JBool false
      end
  | None => JBool false
  end.

(** [tracking(battle, rating)]. *)
Definition tracking (battle : Battle) (battleRating : number) (r : Room)
  : jsval :=
  let c := client r in
  let id1 := toID (p1 battle) in
  let id2 := toID (p2 battle) in
  if negb (Z.of_nat (length (users r)) =? 0)
     && (set_has id1 (users r) || set_has id2 (users r))
  then JBool true
  else if startsWith id1 (prefix c) || startsWith id2 (prefix c)
  then JBool (JsNum.ge battleRating (rating r))
  else
    match config_cutoff c with
    | Some n =>
        if negb (n =? 0) && startsWith id1 (prefix c)
           && startsWith id2 (prefix c)
        then
          let a := lookup (leaderboard c) !! id1 in
          let b := lookup (leaderboard c) !! id2 in
          let limit := (inject_Z n * FACTOR)%Q in
          andVal (andVal (andVal (rankVal a) (rankWithin a limit))
                         (rankVal b))
                 (rankWithin b limit)
        else JBool false
    | None => JBool false
    end.

(** The callback of the interval [start()] arms: the room list is asked
    for, the ladder is read without display, and a board that is not empty
    is tracked against the snapshot and becomes the snapshot.
    [trackBoard] is what the callback does to the client after its first
    line. *)
Definition trackBoard (c : Client) : Client :=
  let '(board, c1) := getLeaderboard false c in
  match board with
  | [] => c1
  | _ :: _ =>
      set_current (Some board) (trackChanges board (showdiffs c1) c1)
  end.

Definition intervalTick (r : Room) : Room :=
  with_client trackBoard (say (RoomList (format (client r))) r).

(** [getDeadline(now)]. *)
Definition getDeadline (now : Z) (r : Room) : Room :=
  match deadline (client r) with
  | None => say NoDeadline r
  | Some t => say (TimeRemaining (Num (t - now))) r
  end.

(** [tracked()]. *)
Definition tracked (r : Room) : Room :=
  match users r with
  | [] => say NothingTracked r
  | _ :: _ => say (Tracked (users r)) r
  end.

(** [showTopBoard()]: the room after the call, and how the call ends.
    [styleTopBoard] reads [tops.currenttop], which throws for [null], and
    properties of [tops.logs[tops.currenttop]], which throws when the log
    has no such entry. *)
Definition showTopBoard (r : Room) : Room * Outcome unit :=
  match getTopLog (client r) with
  | Returns VNull => (r, Throws JsTypeError)
  | Returns v =>
      match TopLog.ofValue v with
      | Some tops =>
          if String.eqb (TopLog.currenttop tops) "" then
            (say NoTopYet r, Returns tt)
          else
            match TopLog.logs tops !! TopLog.currenttop tops with
            | Some _ => (say (TopBoard tops) r, Returns tt)
            | None => (r, Throws JsTypeError)
            end
      | None => (r, NotModelled)
      end
  | Throws e => (r, Throws e)
  | NotModelled => (r, NotModelled)
  end.

(** [this.showdiffs = v]. *)
Definition set_showdiffs (v : bool) (c : Client) : Client :=
  {| config_open := config_open c; config_close := config_close c;
     config_cutoff := config_cutoff c; format := format c;
     prefix := prefix c; deadline := deadline c; final := final c;
     started := started c; showdiffs := v; leaderboard := leaderboard c;
     cooldown := cooldown c; changed := changed c; lines := lines c;
     looping := looping c; ladderopen := ladderopen c;
     ladder_tsv := ladder_tsv c; tops_json := tops_json c;
     outbox := outbox c; timers := timers c; timezone := timezone c |}.

(** The first character of the user is one of [~&#@%]. *)
Definition hasAuthSymbol (user : string) : bool :=
  match user with
  | String c _ =>
      existsb (Ascii.eqb c) ["~"; "&"; "#"; "@"; "%"]%char
  | EmptyString => false
  end.

(** [message.charAt(0) === '.'], and [message.substring(1)] where that
    holds. *)
Definition afterToken (message : string) : option string :=
  match message with
  | String c rest => if Ascii.eqb c "." then Some rest else None
  | EmptyString => None
  end.

(** [list.includes(command)]. *)
Definition includes (list : list string) (command : string) : bool :=
  existsb (String.eqb command) list.

Section Builtins.

(** The built-in functions the commands apply to their argument:
    [s.toLowerCase()], [s.trim()], [Number(s)] and [new Date(s)]. *)
Variable toLowerCase : string -> string.
Variable trim : string -> string.
Variable toNumber : string -> number.
Variable toDate : string -> Date.

(** The command of a user without authority. *)
Definition onVoiced (command : string) (now : Z) (r : Room) : Room :=
  if includes ["leaderboard"; "top"] command then
    if leaderboardCooldown now (client r) then
      with_client
        (fun c => (getLeaderboard true (set_cooldown (Some now) c)).2) r
    else say CoolingDown r
  else if includes ["remaining"; "deadline"] command then getDeadline now r
  else r.

(** The [switch] over the command of a user with authority. *)
Definition onAuthed (command argument : string) (now : Z) (r : Room)
  : Room * Outcome unit :=
  if String.eqb command "prefix" then
    let p := toID argument in
    let r :=
      if negb (String.eqb p "") && negb (String.eqb p (prefix (client r)))
      then with_client
             (fun c => set_last None (set_current None (set_prefix p c))) r
      else r in
    let r := say (PrefixIs (prefix (client r))) r in
    (say (LadderTourPrefix (prefix (client r))) r, Returns tt)
  else if includes ["elo"; "rating"] command then
    let n := toNumber argument in
    let r :=
      if JsNum.truthy n
      then with_client (report (Status false)) (set_rating n r)
      else r in
    (say (RatingIs (rating r)) r, Returns tt)
  else if includes ["add"; "track"; "watch"; "follow"] command then
    (tracked
       (set_users
          (fold_left (fun s u => set_add (toID u) s) (split "," argument)
             (users r)) r),
     Returns tt)
  else if includes ["remove"; "untrack"; "unwatch"; "unfollow"] command then
    (tracked
       (set_users
          (fold_left (fun s u => set_delete (toID u) s) (split "," argument)
             (users r)) r),
     Returns tt)
  else if includes ["list"; "tracked"; "tracking"; "watched"; "watching";
                    "followed"; "following"] command then
    (tracked r, Returns tt)
  else if includes ["top"; "leaderboard"] command then
    (with_client
       (fun c => (getLeaderboard true (set_cooldown (Some now) c)).2) r,
     Returns tt)
  else if includes ["showdiffs"; "startdiffs"; "unhidediffs"] command then
    (with_client (set_showdiffs true) r, Returns tt)
  else if includes ["unshowdiffs"; "stopdiffs"; "hidediffs"] command then
    (with_client (set_showdiffs false) r, Returns tt)
  else if includes ["tops"; "no1"] command then showTopBoard r
  else if includes ["remaining"; "deadline"] command then
    let r :=
      if String.eqb argument "" then r
      else with_client (setDeadline (toDate argument) now) r in
    (getDeadline now r, Returns tt)
  else if String.eqb command "start" then (with_client start r, Returns tt)
  else if String.eqb command "stop" then (with_client stop r, Returns tt)
  else if String.eqb command "leave" then
    (say Leave (with_client stop r), Returns tt)
  else (r, Returns tt).

(** The first lines of [onChat]: the line is counted, among the lines of
    others unless its author has the identifier of the client. *)
Definition countLine (user : option string) (r : Room) : Room :=
  with_client
    (fun c =>
       set_lines
         {| them := if String.eqb (toID_opt user) (toID (config_nickname r))
                    then them (lines c) else them (lines c) + 1;
            total := total (lines c) + 1 |} c) r.

(** [onChat(parts)]: the room after the call, and how the call ends.  The
    line is counted first; [user.charAt] throws when the message has no
    fourth part.  The line written to the console is not modelled. *)
Definition onChat (now : Z) (parts : list string) (r : Room)
  : Room * Outcome unit :=
  let user := parts !! 3%nat in
  let r := countLine user r in
  match user with
  | None => (r, Throws JsTypeError)
  | Some user =>
      let message := String.concat "|" (drop 4 parts) in
      let authed := hasAuthSymbol user || String.eqb (toID user) "pre" in
      match afterToken message with
      | Some text =>
          let words := split " " text in
          let command := toID (hd "" words) in
          let argument :=
            trim (toLowerCase (String.concat " " (tl words))) in
          if authed then onAuthed command argument now r
          else (onVoiced command now r, Returns tt)
      | None => (r, Returns tt)
      end
  end.

(** The chat messages of a list, each with the clock reading at which it
    arrives, handled in order, up to the first that throws. *)
Fixpoint onChats (messages : list (Z * list string)) (r : Room)
  : Room * Outcome unit :=
  match messages with
  | [] => (r, Returns tt)
  | (now, parts) :: rest =>
      match onChat now parts r with
      | (r', Returns _) => onChats rest r'
      | thrown => thrown
      end
  end.

End Builtins.

(** ** The room list *)

(** The order of strings compares UTF-16 code units.  On the bytes of
    UTF-8 it is the order of the bytes, but for one case: a character
    beyond U+FFFF (first byte F0 to F4), whose first code unit is a
    surrogate, comes before the characters from U+E000 to U+FFFF (first
    byte EE or EF).  [unitRank] is the place of a byte in that order. *)
Definition unitRank (c : ascii) : N :=
  let n := N_of_ascii c in
  if ((240 <=? n) && (n <=? 244))%N then (n - 2)%N
  else if ((238 <=? n) && (n <=? 239))%N then (n + 5)%N
  else n.

(** [a < b] on strings. *)
Fixpoint jsLt (a b : string) : bool :=
  match a, b with
  | _, EmptyString => false
  | EmptyString, String _ _ => true
  | String x a', String y b' =>
      if Ascii.eqb x y then jsLt a' b' else (unitRank x <? unitRank y)%N
  end.

(** [id && id >= roomid]: the identifier is set, is not empty, and is not
    before [roomid]. *)
Definition notBefore (id : option string) (roomid : string) : bool :=
  match id with
  | Some s => negb (String.eqb s "") && negb (jsLt s roomid)
  | None => false
  end.

(** A property key that is an array index: the decimal form, without a
    leading zero, of an integer from 0 to 2^32 - 2. *)
Definition arrayIndex (k : string) : option Z :=
  match k with
  | EmptyString => None
  | String c rest =>
      let '(v, _, after) := digits 10 k 0 0 in
      if String.eqb after ""
         && (negb (Ascii.eqb c "0") || String.eqb rest "")
         && (v <? 4294967295)
      then Some v else None
  end.

Definition isIndex (kv : string * value) : bool :=
  match arrayIndex kv.1 with Some _ => true | None => false end.

Fixpoint insertByIndex (kv : string * value) (l : list (string * value))
  : list (string * value) :=
  match l with
  | [] => [kv]
  | kv' :: rest =>
      if default 0 (arrayIndex kv'.1) <? default 0 (arrayIndex kv.1)
      then kv' :: insertByIndex kv rest else kv :: l
  end.

(** [Object.entries(o)] for the object [JSON.parse] makes of the members
    of an object literal: a key that occurs again takes the later value
    and keeps its place; array indices come first, in ascending order, and
    then the other keys in the order of the text. *)
Definition ownEntries (members : list (string * value))
  : list (string * value) :=
  let properties :=
    fold_left (fun acc kv => map_set kv.1 kv.2 acc) members [] in
  (foldr insertByIndex [] (List.filter isIndex properties)
   ++ List.filter (fun kv => negb (isIndex kv)) properties)%list.

(** A value seen as a [Battle]: two names and a number. *)
Definition asBattle (v : value) : option Battle :=
  match getProp "p1" v, getProp "p2" v, getProp "minElo" v with
  | Some (VStr a), Some (VStr b), Some (VNum n) =>
      Some {| p1 := a; p2 := b; minElo := n |}
  | _, _, _ => None
  end.

(** The rooms [onQueryresponse] goes through: the entries of
    [JSON.parse(parts[3]).rooms], none when the property is missing or
    falsy.  [JSON.parse(undefined)] throws a [SyntaxError], and reading a
    property of [null] a [TypeError]; rooms that are an array or a string
    are not modelled. *)
Definition roomsOf (parts : list string) : Outcome (list (string * value)) :=
  match parts !! 3%nat with
  | None => Throws JsSyntaxError
  | Some text =>
      match JSON_parse text with
      | Parsed VNull _ => Throws JsTypeError
      | Parsed (VObj members) _ =>
          match getMember "rooms" members with
          | Some (VObj rooms) => Returns (ownEntries rooms)
          | Some (VArr (_ :: _)) => NotModelled
          | Some (VStr s) => if String.eqb s "" then Returns [] else NotModelled
          | _ => Returns []
          end
      | Parsed _ _ => Returns []
      | SyntaxError => Throws JsSyntaxError
      | Unsupported | OutOfFuel => NotModelled
      end
  end.

(** The battle is one to report: [this.tracking(battle, rating)] is
    truthy for the rating [getRating] gives it. *)
Definition reportable (battle : Battle) (r : Room) : bool :=
  truthyVal (tracking battle (getRating battle (client r)).1 r).

(** One turn of the loop of [onQueryresponse], for a battle. *)
Definition reportBattle (skipid : option string) (r : Room)
    (roomid : string) (battle : Battle) : Room :=
  if negb (reportable battle r) || notBefore skipid roomid then r
  else
    let r :=
      say (BattleStarted roomid (p1 battle) (p2 battle)
             (getRating battle (client r)).2) r in
    if notBefore (lastid r) roomid then r else set_lastid (Some roomid) r.

(** The loop; an entry that is not a [Battle] leaves the model. *)
Fixpoint reportBattles (skipid : option string)
    (entries : list (string * value)) (r : Room) : Room * Outcome unit :=
  match entries with
  | [] => (r, Returns tt)
  | (roomid, v) :: rest =>
      match asBattle v with
      | Some battle =>
          reportBattles skipid rest (reportBattle skipid r roomid battle)
      | None => (r, NotModelled)
      end
  end.

(** [onQueryresponse(parts)]. *)
Definition onQueryresponse (parts : list string) (r : Room)
  : Room * Outcome unit :=
  match roomsOf parts with
  | Returns entries => reportBattles (lastid r) entries r
  | Throws e => (r, Throws e)
  | NotModelled => (r, NotModelled)
  end.

(** A room that has just been entered, around the client [c]. *)
Definition newRoom (c : Client) : Room :=
  {| client := c; config_nickname := "POSHO-9000"; rating := Num 0;
     users := []; lastid := None; sent := [] |}.

(** The author of a chat message has authority: the name starts with one
    of the symbols [~&#@%], or has the identifier [pre]. *)
Definition isAuthed (user : string) : bool :=
  hasAuthSymbol user || String.eqb (toID user) "pre".

(** A chat message that has an author and is not a command. *)
Definition isTalk (parts : list string) : bool :=
  match parts !! 3%nat with
  | Some _ =>
      match afterToken (String.concat "|" (drop 4 parts)) with
      | Some _ => false
      | None => true
      end
  | None => false
  end.

(** The author of a chat message is the client itself. *)
Definition isOwn (nickname : string) (parts : list string) : bool :=
  String.eqb (toID_opt (parts !! 3%nat)) (toID nickname).

(** The settings of the room: what only a user with authority may
    change. *)
Definition settings (r : Room)
  : string * number * list string * bool * option Z * option Timer
    * list Timer * bool * bool * bool * File
    * option (list LeaderboardEntry) :=
  (prefix (client r), rating r, users r, showdiffs (client r),
   deadline (client r), final (client r), timers (client r),
   started (client r), looping (client r), ladderopen (client r),
   tops_json (client r), current (leaderboard (client r))).

(** The message of a room list with two battles. *)
Definition roomListParts : list string :=
  [""; "queryresponse"; "roomlist";
   JSON_stringify
     (VObj [("rooms",
             VObj [("battle-gen8ou-99",
                    VObj [("p1", VStr "ABC Al"); ("p2", VStr "Zed");
                          ("minElo", VNum (Num 1200))]);
                   ("battle-gen8ou-100",
                    VObj [("p1", VStr "Yo"); ("p2", VStr "Zed");
                          ("minElo", VNum (Num 1000))])])])].

(** * Properties *)

(** ** Reading the ladder *)

(** C10. When the ladder file cannot be read, [getLeaderboard] returns the
    empty array and leaves the leaderboard of the client as it was: the
    map [lookup] and the snapshots [current] and [last] are unchanged.
    Nothing else changes either, but for the notice sent when the call was
    to display the board. *)
Theorem getLeaderboard_unreadable (display : bool) (c : Client) :
  ladder_tsv c = None ->
  fst (getLeaderboard display c) = []
  /\ leaderboard (snd (getLeaderboard display c)) = leaderboard c
  /\ snd (getLeaderboard display c)
     = if display then report LadderReadFailed c else c.
Proof.
  intros Hfile. unfold getLeaderboard. rewrite Hfile. cbn.
  destruct display; auto.
Qed.

(** What is read from [ladderText] for the prefix [abc]: one entry on the
    board, and three in the map, the header among them. *)
Example getLeaderboard_ladderText :
  let '(board, c) :=
    getLeaderboard false
      (set_ladder_tsv (Some ladderText) (newClient "abc")) in
  board = [{| name := "ABC Bob"; rank := Some 1; elo := Num 1501;
              win := Num 3; lose := Num 1 |}]
  /\ lookup (leaderboard c) !! "abcbob"
     = Some {| name := "ABC Bob"; rank := Some 1; elo := Num 1501;
               win := Num 3; lose := Num 1 |}
  /\ lookup (leaderboard c) !! "zed"
     = Some {| name := "Zed"; rank := None; elo := Num 1490;
               win := Num 5; lose := NaN |}
  /\ lookup (leaderboard c) !! "username"
     = Some {| name := "Username"; rank := None; elo := NaN;
               win := NaN; lose := NaN |}.
Proof. vm_compute. repeat split. Qed.

(** The theorem at a client that holds a board, a last board shown and a
    map of three entries. *)
Lemma getLeaderboard_unreadable_witness :
  ladder_tsv clientWithBoard = None
  /\ is_Some (current (leaderboard clientWithBoard))
  /\ is_Some (last (leaderboard clientWithBoard))
  /\ is_Some (lookup (leaderboard clientWithBoard) !! "abcbob")
  /\ fst (getLeaderboard true clientWithBoard) = []
  /\ leaderboard (snd (getLeaderboard true clientWithBoard))
     = leaderboard clientWithBoard
  /\ snd (getLeaderboard true clientWithBoard)
     = report LadderReadFailed clientWithBoard.
Proof.
  split; [reflexivity |].
  split; [vm_compute; eexists; reflexivity |].
  split; [vm_compute; eexists; reflexivity |].
  split; [vm_compute; eexists; reflexivity |].
  apply (getLeaderboard_unreadable true clientWithBoard). reflexivity.
Defined.

(** ** The top log: one update *)

Lemma updateTopLog_unfold username win lose date c tops :
  currentTopLog c = Returns tops ->
  updateTopLog username win lose date c
  = match updateTops username win lose date c tops with
    | Returns tops' => Returns (saveTopLog tops' c)
    | Throws e => Throws e
    | NotModelled => NotModelled
    end.
Proof. intros H. unfold updateTopLog. now rewrite H. Qed.

(** The same entrant keeps the top: what is saved. *)
Lemma updateTopLog_retain username win lose date c tops e :
  currentTopLog c = Returns tops ->
  TopLog.currenttop tops = toID username ->
  TopLog.logs tops !! toID username = Some e ->
  updateTopLog username win lose date c
  = Returns (saveTopLog
               {| TopLog.prefix := TopLog.prefix tops;
                  TopLog.currenttop := TopLog.currenttop tops;
                  TopLog.logs :=
                    <[toID username := retainTop (ladderopen c) win lose e]>
                      (TopLog.logs tops) |} c).
Proof.
  intros Hload Htop Hentry.
  rewrite (updateTopLog_unfold _ _ _ _ _ _ Hload). unfold updateTops.
  rewrite Htop, String.eqb_refl, Hentry. reflexivity.
Qed.

(** Another entrant takes the top: what is saved. *)
Lemma updateTopLog_switch username win lose date c tops :
  currentTopLog c = Returns tops ->
  TopLog.currenttop tops <> toID username ->
  updateTopLog username win lose date c
  = Returns (saveTopLog
               {| TopLog.prefix := TopLog.prefix tops;
                  TopLog.currenttop := toID username;
                  TopLog.logs :=
                    <[toID username :=
                        newTop username win lose
                          (formatDateTime (timezone c) date)]>
                      (TopLog.logs tops) |} c).
Proof.
  intros Hload Htop.
  rewrite (updateTopLog_unfold _ _ _ _ _ _ Hload). unfold updateTops.
  destruct (String.eqb_spec (toID username) (TopLog.currenttop tops)) as [E|E].
  - congruence.
  - reflexivity.
Qed.


(** C4. [tops] is the log the update works on ([currentTopLog]: the log
    loaded, or a new one when its prefix is not the client's), [tops'] the
    log the update leaves in memory and saves.  When the incoming top is the
    entrant [tops] records as the current top, the [ticks] of its entry are
    one more than before if the ladder is open, and what they were if it is
    closed.  When the incoming top is another entrant, its entry has
    [ticks = 1], whether the log had an entry for it or not. *)
Theorem updateTopLog_ticks username win lose date c tops :
  currentTopLog c = Returns tops ->
  (forall e n,
      TopLog.currenttop tops = toID username ->
      TopLog.logs tops !! toID username = Some e ->
      TopLog.ticks e = Num n ->
      exists tops' e',
        updateTops username win lose date c tops = Returns tops'
        /\ updateTopLog username win lose date c
           = Returns (saveTopLog tops' c)
        /\ TopLog.logs tops' !! toID username = Some e'
        /\ TopLog.ticks e' = Num (if ladderopen c then n + 1 else n))
  /\ (TopLog.currenttop tops <> toID username ->
      exists tops' e',
        updateTops username win lose date c tops = Returns tops'
        /\ updateTopLog username win lose date c
           = Returns (saveTopLog tops' c)
        /\ TopLog.logs tops' !! toID username = Some e'
        /\ TopLog.ticks e' = Num 1).
Proof.
  intros Hload. split.
  - intros e n Htop Hentry Hticks.
    exists {| TopLog.prefix := TopLog.prefix tops;
              TopLog.currenttop := TopLog.currenttop tops;
              TopLog.logs :=
                <[toID username := retainTop (ladderopen c) win lose e]>
                  (TopLog.logs tops) |},
           (retainTop (ladderopen c) win lose e).
    split.
    + unfold updateTops. rewrite Hentry.
      rewrite <- Htop at 1. now rewrite String.eqb_refl.
    + split; [apply (updateTopLog_retain _ _ _ _ _ _ _ Hload Htop Hentry) |].
      cbn [TopLog.logs]. rewrite lookup_insert_eq. split; [reflexivity |].
      cbn [TopLog.ticks retainTop]. rewrite Hticks.
      now destruct (ladderopen c).
  - intros Htop.
    exists {| TopLog.prefix := TopLog.prefix tops;
              TopLog.currenttop := toID username;
              TopLog.logs :=
                <[toID username :=
                    newTop username win lose
                      (formatDateTime (timezone c) date)]>
                  (TopLog.logs tops) |},
           (newTop username win lose (formatDateTime (timezone c) date)).
    split.
    + unfold updateTops.
      destruct (String.eqb_spec (toID username) (TopLog.currenttop tops));
        [congruence | reflexivity].
    + split; [apply (updateTopLog_switch _ _ _ _ _ _ Hload Htop) |].
      cbn [TopLog.logs]. rewrite lookup_insert_eq. split; reflexivity.
Qed.

Lemma updateTopLog_ticks_witness :
  currentTopLog clientWithTops = Returns storedTops
  /\ exists tops' e',
       updateTops "ABC Bob" (Num 13) (Num 3) exampleNow clientWithTops
         storedTops = Returns tops'
       /\ updateTopLog "ABC Bob" (Num 13) (Num 3) exampleNow clientWithTops
          = Returns (saveTopLog tops' clientWithTops)
       /\ TopLog.logs tops' !! toID "ABC Bob" = Some e'
       /\ TopLog.ticks e' = Num 46.
Proof.
  split; [vm_compute; reflexivity |].
  apply (proj1 (updateTopLog_ticks "ABC Bob" (Num 13) (Num 3) exampleNow
                  clientWithTops storedTops ltac:(vm_compute; reflexivity))
           logOfBob 45);
    vm_compute; reflexivity.
Defined.

(** C7. With [tops] and [tops'] as above, when the incoming top is the
    entrant [tops] records as the current top: the streak [continuouswin] of
    its entry is 0 if the incoming [lose] is greater than the [lose] of the
    stored [currentstat], and otherwise the stored streak plus the incoming
    [win] minus the stored [win]; in both cases [currentstat] becomes the
    incoming pair.  For integers the comparison and the sum are those of the
    integers. *)
Theorem updateTopLog_streak username win lose date c tops e :
  currentTopLog c = Returns tops ->
  TopLog.currenttop tops = toID username ->
  TopLog.logs tops !! toID username = Some e ->
  exists tops' e',
    updateTops username win lose date c tops = Returns tops'
    /\ updateTopLog username win lose date c = Returns (saveTopLog tops' c)
    /\ TopLog.logs tops' !! toID username = Some e'
    /\ TopLog.currentstat e' = {| TopLog.win := win; TopLog.lose := lose |}
    /\ (JsNum.gt lose (TopLog.lose (TopLog.currentstat e)) = true ->
        TopLog.continuouswin e' = Num 0)
    /\ (JsNum.gt lose (TopLog.lose (TopLog.currentstat e)) = false ->
        TopLog.continuouswin e'
        = JsNum.add (TopLog.continuouswin e)
            (JsNum.sub win (TopLog.win (TopLog.currentstat e))))
    /\ (forall w l w0 l0 s0,
          win = Num w -> lose = Num l ->
          TopLog.currentstat e = {| TopLog.win := Num w0;
                                    TopLog.lose := Num l0 |} ->
          TopLog.continuouswin e = Num s0 ->
          TopLog.continuouswin e'
          = Num (if l0 <? l then 0 else s0 + (w - w0))).
Proof.
  intros Hload Htop Hentry.
  exists {| TopLog.prefix := TopLog.prefix tops;
            TopLog.currenttop := TopLog.currenttop tops;
            TopLog.logs :=
              <[toID username := retainTop (ladderopen c) win lose e]>
                (TopLog.logs tops) |},
         (retainTop (ladderopen c) win lose e).
  split.
  - unfold updateTops. rewrite Hentry.
    rewrite <- Htop at 1. now rewrite String.eqb_refl.
  - split; [apply (updateTopLog_retain _ _ _ _ _ _ _ Hload Htop Hentry) |].
    cbn [TopLog.logs]. rewrite lookup_insert_eq. split; [reflexivity |].
    split; [reflexivity |]. cbn [TopLog.continuouswin retainTop].
    split; [intros ->; reflexivity |].
    split; [intros ->; reflexivity |].
    intros w l w0 l0 s0 -> -> -> ->.
    cbn [TopLog.lose TopLog.win JsNum.gt JsNum.lt JsNum.add JsNum.sub
         JsNum.neg].
    destruct (l0 <? l); reflexivity.
Qed.

Lemma updateTopLog_streak_witness :
  currentTopLog clientWithTops = Returns storedTops
  /\ TopLog.currenttop storedTops = toID "ABC Bob"
  /\ TopLog.logs storedTops !! toID "ABC Bob" = Some logOfBob
  /\ exists tops' e',
       updateTops "ABC Bob" (Num 14) (Num 3) exampleNow clientWithTops
         storedTops = Returns tops'
       /\ updateTopLog "ABC Bob" (Num 14) (Num 3) exampleNow clientWithTops
          = Returns (saveTopLog tops' clientWithTops)
       /\ TopLog.logs tops' !! toID "ABC Bob" = Some e'
       /\ TopLog.continuouswin e' = Num 4.
Proof.
  split; [vm_compute; reflexivity |].
  split; [vm_compute; reflexivity |].
  split; [vm_compute; reflexivity |].
  destruct (updateTopLog_streak "ABC Bob" (Num 14) (Num 3) exampleNow
              clientWithTops storedTops logOfBob
              ltac:(vm_compute; reflexivity) ltac:(vm_compute; reflexivity)
              ltac:(vm_compute; reflexivity))
    as (tops' & e' & Hmem & Hsave & Hget & _ & _ & _ & Hint).
  exists tops', e'. repeat split; try assumption.
  apply (Hint 14 3 12 3 2); reflexivity.
Defined.

(** C6, as stated, fails: an entrant who returns to the top does not keep
    the entry the log has for it.  The stored log has an entry for the
    entrant [abcal] (120 ticks, a streak of 3) and [abcbob] on top; when
    [ABC Al] comes back on top, the log read back from the file has a new
    entry for [abcal], with [ticks = 1], in place of the old one. *)
Lemma updateTopLog_replaces_returning_entry :
  currentTopLog clientWithTops = Returns storedTops
  /\ TopLog.currenttop storedTops <> toID "ABC Al"
  /\ TopLog.logs storedTops !! toID "ABC Al" = Some logOfAl
  /\ exists c' tops',
       updateTopLog "ABC Al" (Num 10) (Num 2) exampleNow clientWithTops
       = Returns c'
       /\ currentTopLog c' = Returns tops'
       /\ TopLog.logs tops' !! toID "ABC Al"
          = Some (newTop "ABC Al" (Num 10) (Num 2) "2026-10-02 23:05")
       /\ TopLog.logs tops' !! toID "ABC Al" <> Some logOfAl.
Proof.
  split; [vm_compute; reflexivity |].
  split; [vm_compute; discriminate |].
  split; [vm_compute; reflexivity |].
  eexists _, _.
  split; [vm_compute; reflexivity |].
  split; [vm_compute; reflexivity |].
  split; [vm_compute; reflexivity |].
  vm_compute. discriminate.
Qed.

(** C6, amended.  When the incoming top is not the entrant [tops] records
    as the current top, the log [tops'] that the update leaves in memory and
    saves has the prefix of [tops], the incoming entrant as its current top,
    and for that entrant a new entry ([currentstat] and [originalstat] the
    incoming pair, no streak, [ticks = 1]) whether [tops] had an entry for
    it or not; the entries of all other entrants are those of [tops]. *)
Theorem updateTopLog_switch_frame username win lose date c tops :
  currentTopLog c = Returns tops ->
  TopLog.currenttop tops <> toID username ->
  exists tops' e',
    updateTops username win lose date c tops = Returns tops'
    /\ updateTopLog username win lose date c = Returns (saveTopLog tops' c)
    /\ TopLog.prefix tops' = TopLog.prefix tops
    /\ TopLog.currenttop tops' = toID username
    /\ TopLog.logs tops' !! toID username = Some e'
    /\ TopLog.username e' = username
    /\ TopLog.currentstat e' = {| TopLog.win := win; TopLog.lose := lose |}
    /\ TopLog.originalstat e' = {| TopLog.win := win; TopLog.lose := lose |}
    /\ TopLog.continuouswin e' = Num 0
    /\ TopLog.starttime e' = formatDateTime (timezone c) date
    /\ TopLog.ticks e' = Num 1
    /\ forall userid,
         userid <> toID username ->
         TopLog.logs tops' !! userid = TopLog.logs tops !! userid.
Proof.
  intros Hload Htop.
  exists {| TopLog.prefix := TopLog.prefix tops;
            TopLog.currenttop := toID username;
            TopLog.logs :=
              <[toID username :=
                  newTop username win lose
                    (formatDateTime (timezone c) date)]>
                (TopLog.logs tops) |},
         (newTop username win lose (formatDateTime (timezone c) date)).
  split.
  - unfold updateTops.
    destruct (String.eqb_spec (toID username) (TopLog.currenttop tops));
      [congruence | reflexivity].
  - split; [apply (updateTopLog_switch _ _ _ _ _ _ Hload Htop) |].
    cbn [TopLog.logs TopLog.prefix TopLog.currenttop].
    rewrite lookup_insert_eq. repeat (split; [reflexivity |]).
    intros userid Hne. now rewrite lookup_insert_ne.
Qed.

Lemma updateTopLog_switch_frame_witness :
  currentTopLog clientWithTops = Returns storedTops
  /\ TopLog.currenttop storedTops <> toID "ABC Cy"
  /\ exists tops' e',
       updateTops "ABC Cy" (Num 7) (Num 1) exampleNow clientWithTops
         storedTops = Returns tops'
       /\ updateTopLog "ABC Cy" (Num 7) (Num 1) exampleNow clientWithTops
          = Returns (saveTopLog tops' clientWithTops)
       /\ TopLog.currenttop tops' = "abccy"
       /\ TopLog.logs tops' !! "abccy" = Some e'
       /\ TopLog.ticks e' = Num 1
       /\ TopLog.logs tops' !! "abcal" = Some logOfAl
       /\ TopLog.logs tops' !! "abcbob" = Some logOfBob.
Proof.
  split; [vm_compute; reflexivity |].
  split; [vm_compute; discriminate |].
  destruct (updateTopLog_switch_frame "ABC Cy" (Num 7) (Num 1) exampleNow
              clientWithTops storedTops
              ltac:(vm_compute; reflexivity) ltac:(vm_compute; discriminate))
    as (tops' & e' & Hmem & Hsave & _ & Htop & Hget & _ & _ & _ & _ & _
        & Hticks & Hframe).
  exists tops', e'.
  split; [exact Hmem |]. split; [exact Hsave |]. split; [exact Htop |].
  split; [exact Hget |]. split; [exact Hticks |].
  split.
  - rewrite (Hframe "abcal"); [vm_compute; reflexivity | vm_compute; discriminate].
  - rewrite (Hframe "abcbob"); [vm_compute; reflexivity | vm_compute; discriminate].
Defined.

(** ** Times of day *)

(** The fields of a local time made of a day and a time of day. *)
Lemma fields_of_time d h m s ms :
  0 <= h < 24 -> 0 <= m < 60 -> 0 <= s < 60 -> 0 <= ms < 1000 ->
  let t := MakeDate d (MakeTime h m s ms) in
  Day t = d /\ HourFromTime t = h /\ MinFromTime t = m
  /\ SecFromTime t = s /\ msFromTime t = ms
  /\ TimeWithinDay t = MakeTime h m s ms.
Proof.
  intros Hh Hm Hs Hms t. subst t.
  unfold Day, HourFromTime, MinFromTime, SecFromTime, msFromTime,
    TimeWithinDay, MakeDate, MakeTime, msPerDay, msPerHour, msPerMinute,
    msPerSecond.
  repeat split; Z.div_mod_to_equations; lia.
Qed.

(** Every time is made of its fields. *)
Lemma time_of_fields t :
  t = MakeDate (Day t)
        (MakeTime (HourFromTime t) (MinFromTime t) (SecFromTime t)
           (msFromTime t))
  /\ 0 <= HourFromTime t < 24 /\ 0 <= MinFromTime t < 60
  /\ 0 <= SecFromTime t < 60 /\ 0 <= msFromTime t < 1000.
Proof.
  unfold Day, HourFromTime, MinFromTime, SecFromTime, msFromTime,
    MakeDate, MakeTime, msPerDay, msPerHour, msPerMinute, msPerSecond.
  repeat split; Z.div_mod_to_equations; lia.
Qed.

Lemma TimeClip_in_range t :
  Z.abs t <= 8640000000000000 -> TimeClip t = Some t.
Proof.
  intros H. unfold TimeClip.
  destruct (Z.leb_spec (Z.abs t) 8640000000000000); [reflexivity | lia].
Qed.

(** The three setters, on a time within a day of which [TimeClip] accepts
    everything. *)
Lemma setHours_value tz t h :
  0 <= h < 24 -> Z.abs t <= 8640000000000000 - msPerDay ->
  setHours tz (Some t) (Num h)
  = Some (MakeDate (Day (t + tz))
            (MakeTime h (MinFromTime (t + tz)) (SecFromTime (t + tz))
               (msFromTime (t + tz))) - tz).
Proof.
  intros Hh Ht. unfold setHours. apply TimeClip_in_range.
  pose proof (time_of_fields (t + tz)) as (Heq & H1 & H2 & H3 & H4).
  revert Heq Ht.
  unfold MakeDate, MakeTime, msPerDay, msPerHour, msPerMinute, msPerSecond.
  lia.
Qed.

Lemma setMinutes_value tz t m :
  0 <= m < 60 -> Z.abs t <= 8640000000000000 - msPerDay ->
  setMinutes tz (Some t) (Num m)
  = Some (MakeDate (Day (t + tz))
            (MakeTime (HourFromTime (t + tz)) m (SecFromTime (t + tz))
               (msFromTime (t + tz))) - tz).
Proof.
  intros Hh Ht. unfold setMinutes. apply TimeClip_in_range.
  pose proof (time_of_fields (t + tz)) as (Heq & H1 & H2 & H3 & H4).
  revert Heq Ht.
  unfold MakeDate, MakeTime, msPerDay, msPerHour, msPerMinute, msPerSecond.
  lia.
Qed.

Lemma setSeconds_value tz t s :
  0 <= s < 60 -> Z.abs t <= 8640000000000000 - msPerDay ->
  setSeconds tz (Some t) (Num s)
  = Some (MakeDate (Day (t + tz))
            (MakeTime (HourFromTime (t + tz)) (MinFromTime (t + tz)) s
               (msFromTime (t + tz))) - tz).
Proof.
  intros Hh Ht. unfold setSeconds. apply TimeClip_in_range.
  pose proof (time_of_fields (t + tz)) as (Heq & H1 & H2 & H3 & H4).
  revert Heq Ht.
  unfold MakeDate, MakeTime, msPerDay, msPerHour, msPerMinute, msPerSecond.
  lia.
Qed.

(** [setDate(getDate() + 1)] is the same time of day on the next day. *)
Lemma nextDay_value tz t :
  Z.abs t <= 8640000000000000 - msPerDay ->
  nextDay tz (Some t)
  = Some (MakeDate (Day (t + tz) + 1) (TimeWithinDay (t + tz)) - tz).
Proof.
  intros Ht. unfold nextDay, setDate, getDate.
  replace (Day (t + tz) - (snd (civil (Day (t + tz))) - 1)
           + (snd (civil (Day (t + tz))) + 1) - 1)
    with (Day (t + tz) + 1) by lia.
  apply TimeClip_in_range. revert Ht.
  unfold MakeDate, Day, TimeWithinDay, msPerDay.
  Z.div_mod_to_equations. lia.
Qed.

(** What [getNextOpenTime] and [getNextCloseTime] compute for a time of
    day [h:m]. *)
Lemma nextTimeOfDay_value tz configured now h m :
  timeOfDay configured = Some (h, m) ->
  Z.abs now <= 8640000000000000 - 2 * msPerDay ->
  nextTimeOfDay tz configured now
  = Some (MakeDate
            (Day (now + tz)
             + (if 3600 * h + 60 * m <? secondOfDay tz now then 1 else 0))
            (MakeTime h m 0 (msFromTime (now + tz))) - tz).
Proof.
  intros Hcfg Hnow. unfold timeOfDay in Hcfg. unfold nextTimeOfDay.
  destruct (split ":" configured) as [|hours [|minutes rest]];
    try discriminate.
  cbn [lookup list_lookup parseInt_opt].
  change ((hours :: minutes :: rest) !! 0%nat) with (Some hours).
  change ((hours :: minutes :: rest) !! 1%nat) with (Some minutes).
  cbn [parseInt_opt].
  destruct (parseInt hours) as [h'| | |]; try discriminate.
  destruct (parseInt minutes) as [m'| | |]; try discriminate.
  destruct ((0 <=? h') && (h' <? 24) && (0 <=? m') && (m' <? 60)) eqn:Hr;
    try discriminate.
  injection Hcfg as -> ->.
  assert (0 <= h < 24 /\ 0 <= m < 60) as [Hh Hm] by lia.
  pose proof (time_of_fields (now + tz)) as (Heq & H1 & H2 & H3 & H4).
  assert (Hday : msPerDay = 86400000) by reflexivity.
  rewrite setHours_value by lia.
  set (t1 := MakeDate (Day (now + tz)) (MakeTime h _ _ _)).
  pose proof (fields_of_time (Day (now + tz)) h (MinFromTime (now + tz))
                (SecFromTime (now + tz)) (msFromTime (now + tz))
                Hh H2 H3 H4) as (F1 & F2 & F3 & F4 & F5 & F6).
  fold t1 in F1, F2, F3, F4, F5, F6.
  assert (Ht1 : Z.abs (t1 - tz) <= 8640000000000000 - msPerDay).
  { revert Heq Hnow. unfold t1, MakeDate, MakeTime, msPerDay, msPerHour,
      msPerMinute, msPerSecond. lia. }
  rewrite setMinutes_value by assumption.
  replace (t1 - tz + tz) with t1 by lia.
  rewrite F1, F2, F4, F5.
  set (t2 := MakeDate (Day (now + tz)) (MakeTime h m _ _)).
  pose proof (fields_of_time (Day (now + tz)) h m
                (SecFromTime (now + tz)) (msFromTime (now + tz))
                Hh Hm H3 H4) as (G1 & G2 & G3 & G4 & G5 & G6).
  fold t2 in G1, G2, G3, G4, G5, G6.
  assert (Ht2 : Z.abs (t2 - tz) <= 8640000000000000 - msPerDay).
  { revert Heq Hnow. unfold t2, MakeDate, MakeTime, msPerDay, msPerHour,
      msPerMinute, msPerSecond. lia. }
  rewrite setSeconds_value by (assumption || lia).
  replace (t2 - tz + tz) with t2 by lia.
  rewrite G1, G2, G3, G5.
  set (t3 := MakeDate (Day (now + tz)) (MakeTime h m 0 _)).
  pose proof (fields_of_time (Day (now + tz)) h m 0 (msFromTime (now + tz))
                Hh Hm ltac:(lia) H4) as (K1 & K2 & K3 & K4 & K5 & K6).
  fold t3 in K1, K2, K3, K4, K5, K6.
  assert (Ht3 : Z.abs (t3 - tz) <= 8640000000000000 - msPerDay).
  { revert Heq Hnow. unfold t3, MakeDate, MakeTime, msPerDay, msPerHour,
      msPerMinute, msPerSecond. lia. }
  assert (Hpassed : (t3 - tz <? now) = (3600 * h + 60 * m <? secondOfDay tz now)).
  { unfold secondOfDay, t3. revert Heq.
    unfold TimeWithinDay, Day, HourFromTime, MinFromTime, SecFromTime,
      msFromTime, MakeDate, MakeTime, msPerDay, msPerHour, msPerMinute,
      msPerSecond. intros Heq.
    destruct (Z.ltb_spec (3600 * h + 60 * m)
                (((now + tz) mod 86400000) / 1000));
      destruct (Z.ltb_spec
                  ((now + tz) / 86400000 * 86400000
                   + (h * 3600000 + m * 60000 + 0 * 1000
                      + (now + tz) mod 1000) - tz) now);
      try reflexivity; exfalso; Z.div_mod_to_equations; lia. }
  cbn [valueOf JsNum.gt JsNum.lt]. rewrite Hpassed.
  destruct (3600 * h + 60 * m <? secondOfDay tz now).
  - rewrite nextDay_value by assumption.
    replace (t3 - tz + tz) with t3 by lia. rewrite K1, K6. reflexivity.
  - f_equal. unfold t3. now rewrite Z.add_0_r.
Qed.

Lemma timeOfDay_range configured h m :
  timeOfDay configured = Some (h, m) -> 0 <= h < 24 /\ 0 <= m < 60.
Proof.
  unfold timeOfDay.
  destruct (split ":" configured) as [|hours [|minutes rest]];
    try discriminate.
  destruct (parseInt hours) as [h'| | |]; try discriminate.
  destruct (parseInt minutes) as [m'| | |]; try discriminate.
  destruct ((0 <=? h') && (h' <? 24) && (0 <=? m') && (m' <? 60)) eqn:Hr;
    try discriminate.
  intros [= -> ->]. lia.
Qed.

Lemma nextTimeOfDay_isNext tz configured now h m :
  timeOfDay configured = Some (h, m) ->
  Z.abs now <= 8640000000000000 - 2 * msPerDay ->
  isNextTimeOfDay tz now h m (nextTimeOfDay tz configured now).
Proof.
  intros Hcfg Hnow.
  rewrite (nextTimeOfDay_value tz configured now h m Hcfg Hnow).
  destruct (timeOfDay_range _ _ _ Hcfg) as [Hh Hm].
  pose proof (time_of_fields (now + tz)) as (_ & _ & _ & _ & Hms).
  eexists. split; [reflexivity |].
  unfold getHours, getMinutes, getSeconds.
  match goal with
  | |- context [MakeDate ?d ?t - tz + tz] =>
      replace (MakeDate d t - tz + tz) with (MakeDate d t) by lia;
      pose proof (fields_of_time d h m 0 (msFromTime (now + tz))
                    Hh Hm ltac:(lia) Hms) as (F1 & F2 & F3 & F4 & F5 & _)
  end.
  repeat split; assumption.
Qed.

(** C8. The next open target and the next close target are the next time
    of day configured for them ([isNextTimeOfDay]): the configured hour and
    minute, at second 0, today when that is not before the current second
    and tomorrow otherwise.  With [open] at 06:00 and [close] at 22:00, at
    23:00 on day [D] the next close target is 22:00 on day [D + 1] and the
    next open target is 06:00 on day [D + 1]; the open target is the sooner,
    so the first [setDeadline], which finds no loop running, closes the
    ladder and starts the loop. *)
Theorem nextTime_and_bootstrap :
  (forall (c : Client) (now h m : Z),
      Z.abs now <= 8640000000000000 - 2 * msPerDay ->
      (timeOfDay (config_open c) = Some (h, m) ->
       isNextTimeOfDay (timezone c) now h m (getNextOpenTime now c))
      /\ (timeOfDay (config_close c) = Some (h, m) ->
          isNextTimeOfDay (timezone c) now h m (getNextCloseTime now c)))
  /\ (forall (c : Client) (D date : Z),
        config_open c = "06:00" ->
        config_close c = "22:00" ->
        Z.abs (localTime (timezone c) D 23 0)
        <= 8640000000000000 - 2 * msPerDay ->
        let now := localTime (timezone c) D 23 0 in
        getNextCloseTime now c = Some (localTime (timezone c) (D + 1) 22 0)
        /\ getNextOpenTime now c = Some (localTime (timezone c) (D + 1) 6 0)
        /\ (looping c = false -> date <> 0 ->
            ladderopen (setDeadline (Some date) now c) = false
            /\ looping (setDeadline (Some date) now c) = true)).
Proof.
  split.
  - intros c now h m Hnow. split; intros Hcfg.
    + now apply nextTimeOfDay_isNext.
    + now apply nextTimeOfDay_isNext.
  - intros c D date Hopen Hclose Hrange now.
    assert (Hl : now + timezone c = MakeDate D (MakeTime 23 0 0 0))
      by (unfold now, localTime; lia).
    pose proof (fields_of_time D 23 0 0 0 ltac:(lia) ltac:(lia) ltac:(lia)
                  ltac:(lia)) as (F1 & F2 & F3 & F4 & F5 & F6).
    cbv zeta in F1, F2, F3, F4, F5, F6. rewrite <- Hl in F1, F5, F6.
    assert (Hsec : secondOfDay (timezone c) now = 82800).
    { unfold secondOfDay. rewrite F6. reflexivity. }
    assert (Hc : getNextCloseTime now c
                 = Some (localTime (timezone c) (D + 1) 22 0)).
    { unfold getNextCloseTime. rewrite Hclose.
      rewrite (nextTimeOfDay_value _ "22:00" now 22 0 eq_refl Hrange).
      rewrite F1, F5, Hsec. reflexivity. }
    assert (Ho : getNextOpenTime now c
                 = Some (localTime (timezone c) (D + 1) 6 0)).
    { unfold getNextOpenTime. rewrite Hopen.
      rewrite (nextTimeOfDay_value _ "06:00" now 6 0 eq_refl Hrange).
      rewrite F1, F5, Hsec. reflexivity. }
    split; [exact Hc |]. split; [exact Ho |].
    intros Hloop Hdate. unfold setDeadline.
    destruct (Z.eqb_spec date 0) as [|_]; [contradiction |].
    cbn [looping set_final set_deadline]. rewrite Hloop.
    change (getNextOpenTime now (set_final _ (set_deadline _ c)))
      with (getNextOpenTime now c).
    change (getNextCloseTime now (set_final _ (set_deadline _ c)))
      with (getNextCloseTime now c).
    rewrite Ho, Hc. cbn [valueOf JsNum.lt].
    replace (localTime (timezone c) (D + 1) 6 0
             <? localTime (timezone c) (D + 1) 22 0) with true.
    + split; reflexivity.
    + symmetry. apply Z.ltb_lt.
      unfold localTime, MakeDate, MakeTime, msPerHour. lia.
Qed.

Lemma nextTime_and_bootstrap_witness :
  Z.abs 1793660700000 <= 8640000000000000 - 2 * msPerDay
  /\ timeOfDay (config_open (newClient "abc")) = Some (6, 0)
  /\ isNextTimeOfDay 0 1793660700000 6 0
       (getNextOpenTime 1793660700000 (newClient "abc"))
  /\ getNextCloseTime (localTime 0 20759 23 0) (newClient "abc")
     = Some (localTime 0 20760 22 0)
  /\ ladderopen
       (setDeadline (Some 1800000000000) (localTime 0 20759 23 0)
          (newClient "abc")) = false.
Proof.
  split; [vm_compute; discriminate |].
  split; [reflexivity |].
  split.
  - apply (proj1 (proj1 nextTime_and_bootstrap (newClient "abc")
                    1793660700000 6 0 ltac:(vm_compute; discriminate))).
    reflexivity.
  - pose proof (proj2 nextTime_and_bootstrap (newClient "abc") 20759
                  1800000000000 eq_refl eq_refl
                  ltac:(vm_compute; discriminate)) as (Hc & _ & Hboot).
    split; [exact Hc |].
    apply Hboot; [reflexivity | discriminate].
Defined.

(** ** Ranks *)

(** Case analysis on the integer comparisons of the goal. *)
Ltac split_comparisons :=
  repeat match goal with
    | |- context [?a <? ?b] => destruct (Z.ltb_spec a b)
    | |- context [?a <=? ?b] => destruct (Z.leb_spec a b)
    | |- context [?a =? ?b] => destruct (Z.eqb_spec a b)
    end;
  cbn [andb orb negb] in *; try reflexivity; try lia.

Lemma findIndex_range {A} (p : A -> bool) l :
  -1 <= findIndex p l < Z.of_nat (length l).
Proof.
  induction l as [|x l IH]; cbn [findIndex length]; [lia |].
  destruct (p x); [lia |].
  destruct (Z.ltb_spec (findIndex p l) 0); lia.
Qed.

Lemma rankOf_nil id : rankOf id [] = 0.
Proof. reflexivity. Qed.

Lemma rankOf_cons id e l :
  rankOf id (e :: l)
  = if String.eqb (idOf e) id then 1
    else if rankOf id l =? 0 then 0 else rankOf id l + 1.
Proof.
  unfold rankOf, idOf. cbn [findIndex].
  destruct (String.eqb (toID (name e)) id); [reflexivity |].
  pose proof (findIndex_range (fun e => String.eqb (toID (name e)) id) l).
  destruct (Z.ltb_spec (findIndex (fun e => String.eqb (toID (name e)) id) l) 0);
    destruct (Z.eqb_spec (findIndex (fun e => String.eqb (toID (name e)) id) l + 1) 0);
    lia.
Qed.

Lemma rankOf_range id l : 0 <= rankOf id l <= Z.of_nat (length l).
Proof.
  unfold rankOf.
  pose proof (findIndex_range (fun e => String.eqb (toID (name e)) id) l).
  lia.
Qed.

Lemma rankOf_absent id l : rankOf id l = 0 <-> ~ In id (ids l).
Proof.
  induction l as [|e l IH]; [cbn; tauto |].
  rewrite rankOf_cons. cbn [ids map In]. fold (ids l).
  pose proof (rankOf_range id l).
  destruct (String.eqb_spec (idOf e) id) as [E|E].
  - split; [lia | tauto].
  - destruct (Z.eqb_spec (rankOf id l) 0) as [Z|Z].
    + split; [| reflexivity]. intros _ [H'|H']; [contradiction | tauto].
    + split; [lia |]. intros Hn. exfalso. apply Z. apply IH. tauto.
Qed.

(** Where [findIndex] finds an entry, the array has one, which bears the
    identifier sought. *)
Lemma findIndex_lookup id l :
  0 < rankOf id l ->
  exists e, l !! Z.to_nat (rankOf id l - 1) = Some e /\ idOf e = id.
Proof.
  induction l as [|e l IH]; [rewrite rankOf_nil; lia |].
  rewrite rankOf_cons.
  destruct (String.eqb_spec (idOf e) id) as [E|E].
  - intros _. exists e. split; [reflexivity | assumption].
  - pose proof (rankOf_range id l).
    destruct (Z.eqb_spec (rankOf id l) 0) as [Z|Z]; [lia |]. intros _.
    destruct IH as (e' & Hl & He'); [lia |]. exists e'. split; [| assumption].
    replace (Z.to_nat (rankOf id l + 1 - 1))
      with (S (Z.to_nat (rankOf id l - 1))) by lia.
    exact Hl.
Qed.

(** In a snapshot where no identifier occurs twice, the rank of the
    identifier of an entry is the position of the entry. *)
Lemma rankOf_position l (j : nat) e :
  NoDup (ids l) -> l !! j = Some e -> rankOf (idOf e) l = Z.of_nat j + 1.
Proof.
  revert j. induction l as [|x l IH]; intros j Hnd Hl; [discriminate |].
  rewrite rankOf_cons. cbn [ids map] in Hnd. fold (ids l) in Hnd.
  apply NoDup_cons in Hnd as [Hx Hnd].
  destruct j as [|j].
  - injection Hl as ->. rewrite String.eqb_refl. reflexivity.
  - cbn in Hl. specialize (IH j Hnd Hl).
    destruct (String.eqb_spec (idOf x) (idOf e)) as [E|E].
    + exfalso. apply Hx. rewrite E. apply list_elem_of_In.
      apply in_map. apply list_elem_of_In.
      now apply list_elem_of_lookup_2 in Hl.
    + rewrite IH. destruct (Z.eqb_spec (Z.of_nat j + 1) 0); lia.
Qed.

(** The rank within the first [k] entries. *)
Lemma rankOf_take id (k : nat) l :
  rankOf id (take k l)
  = if (0 <? rankOf id l) && (rankOf id l <=? Z.of_nat k)
    then rankOf id l else 0.
Proof.
  revert k. induction l as [|e l IH]; intros k.
  - rewrite take_nil, rankOf_nil. reflexivity.
  - pose proof (rankOf_range id (e :: l)). destruct k as [|k].
    + cbn [take]. rewrite rankOf_nil. split_comparisons.
    + cbn [take]. rewrite rankOf_cons, IH. revert H. rewrite rankOf_cons.
      pose proof (rankOf_range id l).
      destruct (String.eqb (idOf e) id); intros; split_comparisons.
Qed.

(** ** The map of diffs *)

Lemma map_get_set_eq {V} k (v : V) m : map_get k (map_set k v m) = Some v.
Proof.
  induction m as [|[k' v'] m IH]; cbn [map_set map_get].
  - now rewrite String.eqb_refl.
  - destruct (String.eqb k' k) eqn:E; cbn [map_get]; rewrite E; auto.
Qed.

Lemma map_get_set_ne {V} k k' (v : V) m :
  k <> k' -> map_get k' (map_set k v m) = map_get k' m.
Proof.
  intros Hne. induction m as [|[k0 v0] m IH]; cbn [map_set map_get].
  - destruct (String.eqb_spec k k'); [contradiction | reflexivity].
  - destruct (String.eqb_spec k0 k) as [->|E0]; cbn [map_get].
    + destruct (String.eqb_spec k k'); [contradiction | reflexivity].
    + now rewrite IH.
Qed.

(** A loop leaves alone the identifiers that none of its players bears. *)
Lemma diffsOfLast_other current id lastN :
  ~ In id (ids lastN) ->
  forall i diffs,
    map_get id (diffsOfLast current i lastN diffs) = map_get id diffs.
Proof.
  induction lastN as [|p rest IH]; intros Hid i diffs; [reflexivity |].
  cbn [diffsOfLast]. cbn [ids map In] in Hid. fold (ids rest) in Hid.
  rewrite IH by tauto.
  destruct (JsNum.sneq _ _); [| reflexivity].
  apply map_get_set_ne. unfold idOf in Hid. tauto.
Qed.

Lemma diffsOfCurrent_other last id currentN :
  ~ In id (ids currentN) ->
  forall i diffs,
    map_get id (diffsOfCurrent last i currentN diffs) = map_get id diffs.
Proof.
  induction currentN as [|p rest IH]; intros Hid i diffs; [reflexivity |].
  cbn [diffsOfCurrent]. cbn [ids map In] in Hid. fold (ids rest) in Hid.
  rewrite IH by tauto.
  destruct (JsNum.sneq _ _); [| reflexivity].
  apply map_get_set_ne. unfold idOf in Hid. tauto.
Qed.

(** What a loop leaves for the identifier of the player at position [j],
    when no identifier occurs twice among its players. *)
Lemma diffsOfLast_at current lastN (j : nat) p :
  NoDup (ids lastN) -> lastN !! j = Some p ->
  forall i diffs,
    map_get (idOf p) (diffsOfLast current i lastN diffs)
    = let d := diffOfLast current (i + Z.of_nat j) p in
      if JsNum.sneq (d_oldrank d) (d_newrank d) then Some d
      else map_get (idOf p) diffs.
Proof.
  revert j. induction lastN as [|x rest IH]; intros j Hnd Hj i diffs;
    [discriminate |].
  cbn [ids map] in Hnd. fold (ids rest) in Hnd.
  apply NoDup_cons in Hnd as [Hx Hnd]. cbn [diffsOfLast].
  destruct j as [|j].
  - injection Hj as ->. rewrite Z.add_0_r.
    rewrite diffsOfLast_other by (rewrite <- list_elem_of_In; exact Hx).
    cbv zeta. destruct (JsNum.sneq _ _); [| reflexivity].
    apply map_get_set_eq.
  - cbn in Hj. rewrite (IH j Hnd Hj).
    replace (i + 1 + Z.of_nat j) with (i + Z.of_nat (S j)) by lia.
    cbv zeta. destruct (JsNum.sneq (d_oldrank (diffOfLast current
                          (i + Z.of_nat (S j)) p)) _); [reflexivity |].
    destruct (JsNum.sneq _ _); [| reflexivity].
    apply map_get_set_ne. intros E. apply Hx. fold (idOf x) in E.
    rewrite E. apply list_elem_of_In, in_map, list_elem_of_In.
    now apply list_elem_of_lookup_2 in Hj.
Qed.

Lemma diffsOfCurrent_at last currentN (j : nat) p :
  NoDup (ids currentN) -> currentN !! j = Some p ->
  forall i diffs,
    map_get (idOf p) (diffsOfCurrent last i currentN diffs)
    = let d := diffOfCurrent last (i + Z.of_nat j) p in
      if JsNum.sneq (d_oldrank d) (d_newrank d) then Some d
      else map_get (idOf p) diffs.
Proof.
  revert j. induction currentN as [|x rest IH]; intros j Hnd Hj i diffs;
    [discriminate |].
  cbn [ids map] in Hnd. fold (ids rest) in Hnd.
  apply NoDup_cons in Hnd as [Hx Hnd]. cbn [diffsOfCurrent].
  destruct j as [|j].
  - injection Hj as ->. rewrite Z.add_0_r.
    rewrite diffsOfCurrent_other by (rewrite <- list_elem_of_In; exact Hx).
    cbv zeta. destruct (JsNum.sneq _ _); [| reflexivity].
    apply map_get_set_eq.
  - cbn in Hj. rewrite (IH j Hnd Hj).
    replace (i + 1 + Z.of_nat j) with (i + Z.of_nat (S j)) by lia.
    cbv zeta. destruct (JsNum.sneq (d_oldrank (diffOfCurrent last
                          (i + Z.of_nat (S j)) p)) _); [reflexivity |].
    destruct (JsNum.sneq _ _); [| reflexivity].
    apply map_get_set_ne. intros E. apply Hx. fold (idOf x) in E.
    rewrite E. apply list_elem_of_In, in_map, list_elem_of_In.
    now apply list_elem_of_lookup_2 in Hj.
Qed.

(** ** Windows *)

Lemma In_ids_take id (k : nat) l : In id (ids (take k l)) -> In id (ids l).
Proof.
  revert k. induction l as [|e l IH]; intros [|k]; cbn; try tauto.
  intros [H|H]; [tauto |]. right. exact (IH k H).
Qed.

Lemma NoDup_ids_take (k : nat) l : NoDup (ids l) -> NoDup (ids (take k l)).
Proof.
  revert k. induction l as [|e l IH]; intros [|k] Hnd; cbn;
    try apply NoDup_nil_2.
  cbn [ids map] in Hnd. fold (ids l) in Hnd.
  apply NoDup_cons in Hnd as [He Hnd]. apply NoDup_cons. split.
  - intros Hin. apply He. apply list_elem_of_In in Hin.
    apply list_elem_of_In. exact (In_ids_take _ _ _ Hin).
  - apply IH, Hnd.
Qed.

(** A window of a size that is not negative takes the same number of
    entries from both snapshots. *)
Lemma firstN_take {A} (num : option Q) (l1 l2 : list A) :
  (forall q, num = Some q -> (0 <= q)%Q) ->
  exists k : nat, firstN num l1 = take k l1 /\ firstN num l2 = take k l2.
Proof.
  intros Hnum. unfold firstN. destruct num as [q|].
  - destruct (truthyQ q).
    + specialize (Hnum q eq_refl). unfold Qle in Hnum. cbn in Hnum.
      assert (0 <= toInteger q).
      { unfold toInteger. apply Z.quot_pos; lia. }
      exists (Z.to_nat (toInteger q)). unfold slice0.
      destruct (Z.ltb_spec (toInteger q) 0); [lia |]. split; reflexivity.
    + exists (Nat.max (length l1) (length l2)).
      rewrite !take_ge by lia. split; reflexivity.
  - exists (Nat.max (length l1) (length l2)).
    rewrite !take_ge by lia. split; reflexivity.
Qed.

(** The rank in a window, from the rank in the whole snapshot. *)
Lemma rankIn_take id (k : nat) l :
  rankIn id (take k l)
  = if (0 <? rankOf id l) && (rankOf id l <=? Z.of_nat k)
    then Num (rankOf id l) else PInf.
Proof.
  unfold rankIn. rewrite rankOf_take. pose proof (rankOf_range id l).
  destruct ((0 <? rankOf id l) && (rankOf id l <=? Z.of_nat k)) eqn:E;
    [| reflexivity].
  destruct (Z.eqb_spec (rankOf id l) 0); [lia | reflexivity].
Qed.

(** The player of a window that bears an identifier of the window. *)
Lemma window_player id (k : nat) l :
  0 < rankOf id l <= Z.of_nat k ->
  exists p, take k l !! Z.to_nat (rankOf id l - 1) = Some p /\ idOf p = id.
Proof.
  intros Hr.
  assert (Hk : rankOf id (take k l) = rankOf id l).
  { rewrite rankOf_take. split_comparisons. }
  destruct (findIndex_lookup id (take k l)) as (p & Hp & Hid); [lia |].
  rewrite Hk in Hp. eauto.
Qed.

Lemma window_absent id (k : nat) l :
  ~ (0 < rankOf id l <= Z.of_nat k) -> ~ In id (ids (take k l)).
Proof.
  intros Hr. apply rankOf_absent. rewrite rankOf_take.
  pose proof (rankOf_range id l). split_comparisons.
Qed.

Lemma sneq_Num a b : JsNum.sneq (Num a) (Num b) = negb (a =? b).
Proof. reflexivity. Qed.

(** The first loop writes nothing for an identifier whose two ranks are
    equal. *)
Lemma diffsOfLast_same_rank last current (k : nat) id :
  NoDup (ids last) ->
  rankOf id last = rankOf id current ->
  map_get id (diffsOfLast current 0 (take k last) []) = None.
Proof.
  intros Hl Heq. pose proof (rankOf_range id last) as Rl.
  destruct (decide (0 < rankOf id last <= Z.of_nat k)) as [Hin|Hout].
  - destruct (window_player id k last Hin) as (p & Hp & <-).
    rewrite (diffsOfLast_at current _ _ p (NoDup_ids_take k _ Hl) Hp).
    cbv zeta. unfold diffOfLast. fold (idOf p).
    replace (0 + Z.of_nat (Z.to_nat (rankOf (idOf p) last - 1)) + 1)
      with (rankOf (idOf p) last) by lia.
    destruct (Z.eqb_spec (rankOf (idOf p) current) 0) as [E|E]; [lia |].
    cbn [d_oldrank d_newrank]. rewrite sneq_Num, Heq, Z.eqb_refl.
    reflexivity.
  - now rewrite diffsOfLast_other by (now apply window_absent).
Qed.

(** The two loops of [getDiffs] over windows of [k] entries: there is a
    record for an identifier if and only if its ranks in the two windows
    differ. *)
Lemma getDiffs_window_iff last current (k : nat) id :
  NoDup (ids last) -> NoDup (ids current) ->
  is_Some (map_get id (diffsOfCurrent last 0 (take k current)
                         (diffsOfLast current 0 (take k last) [])))
  <-> rankIn id (take k last) <> rankIn id (take k current).
Proof.
  intros Hl Hc. rewrite !rankIn_take.
  pose proof (rankOf_range id last) as Rl.
  pose proof (rankOf_range id current) as Rc.
  destruct (decide (0 < rankOf id current <= Z.of_nat k)) as [Hin|Hout].
  - destruct (window_player id k current Hin) as (p & Hp & <-).
    rewrite (diffsOfCurrent_at last _ _ p (NoDup_ids_take k _ Hc) Hp).
    cbv zeta. unfold diffOfCurrent. fold (idOf p).
    replace (0 + Z.of_nat (Z.to_nat (rankOf (idOf p) current - 1)) + 1)
      with (rankOf (idOf p) current) by lia.
    cbn [d_oldrank d_newrank].
    destruct (Z.eqb_spec (rankOf (idOf p) last) 0) as [E|E].
    + rewrite E. cbn [JsNum.sneq JsNum.seq negb].
      split; [| intros _; eexists; reflexivity].
      intros _. split_comparisons; discriminate.
    + rewrite sneq_Num.
      destruct (Z.eqb_spec (rankOf (idOf p) last) (rankOf (idOf p) current))
        as [E'|E']; cbn [negb].
      * rewrite (diffsOfLast_same_rank last current k _ Hl E'), E'.
        split; [intros [? [=]] |]. split_comparisons; congruence.
      * split; [| intros _; eexists; reflexivity].
        intros _. split_comparisons; congruence.
  - rewrite diffsOfCurrent_other by (now apply window_absent).
    destruct (decide (0 < rankOf id last <= Z.of_nat k)) as [Hin|Hout'].
    + destruct (window_player id k last Hin) as (p & Hp & <-).
      rewrite (diffsOfLast_at current _ _ p (NoDup_ids_take k _ Hl) Hp).
      cbv zeta. unfold diffOfLast. fold (idOf p).
      replace (0 + Z.of_nat (Z.to_nat (rankOf (idOf p) last - 1)) + 1)
        with (rankOf (idOf p) last) by lia.
      destruct (Z.eqb_spec (rankOf (idOf p) current) 0) as [E|E];
        cbn [d_oldrank d_newrank].
      * cbn [JsNum.sneq JsNum.seq negb].
        split; [| intros _; eexists; reflexivity].
        intros _. split_comparisons; discriminate.
      * rewrite sneq_Num.
        destruct (Z.eqb_spec (rankOf (idOf p) last)
                    (rankOf (idOf p) current)); [lia |]. cbn [negb].
        split; [| intros _; eexists; reflexivity].
        intros _. split_comparisons; discriminate.
    + rewrite diffsOfLast_other by (now apply window_absent). cbn [map_get].
      split; [intros [? [=]] |]. split_comparisons; congruence.
Qed.

(** ** The diff of two snapshots *)

(** What a window is: the whole sequence when no size is given or the size
    is 0, and the first entries, as many as the whole part of the size,
    when it is positive. *)
Lemma firstN_whole {A} num (l : list A) :
  num = None \/ (exists q, num = Some q /\ (q == 0)%Q) -> firstN num l = l.
Proof.
  intros [-> | (q & -> & Hq)]; [reflexivity |].
  unfold firstN, truthyQ. unfold Qeq in Hq. cbn in Hq.
  now replace (Qnum q) with 0 by lia.
Qed.

Lemma firstN_floor {A} q (l : list A) :
  (0 < q)%Q -> firstN (Some q) l = take (Z.to_nat (Qfloor q)) l.
Proof.
  intros Hq. unfold Qlt in Hq. cbn in Hq.
  unfold firstN, truthyQ, slice0, toInteger.
  destruct q as [n d]. cbn [Qnum Qden Qfloor] in *.
  destruct (Z.eqb_spec n 0); [lia |]. cbn [negb].
  rewrite Z.quot_div_nonneg by lia.
  destruct (Z.ltb_spec (n / Z.pos d) 0); [| reflexivity].
  pose proof (Z.div_pos n (Z.pos d)). lia.
Qed.

(** C1. For two snapshots in which no identifier occurs twice, [getDiffs]
    has a record for an identifier if and only if its rank in the window of
    the previous snapshot and its rank in the window of the current one
    differ; the rank of an identifier is the position, from 1, of the
    entry that bears it, and an identifier outside a window has the rank
    [Infinity] there.  Without a window size, or with the size 0, the window of a snapshot is
    the whole of it; with a positive size it is made of its first entries,
    as many as the whole part of the size.  For the previous top three A,
    B, C and the current top three B, A, D the records are exactly A from 1
    to 2, B from 2 to 1, C from 3 to [Infinity] and D from [Infinity] to 3,
    with or without a window of three. *)
Theorem getDiffs_records :
  (forall last current id,
      NoDup (ids last) -> NoDup (ids current) ->
      (forall num,
          num = None \/ (exists q, num = Some q /\ (q == 0)%Q) ->
          is_Some (map_get id (getDiffs last current num))
          <-> rankIn id last <> rankIn id current)
      /\ (forall q,
            (0 < q)%Q ->
            is_Some (map_get id (getDiffs last current (Some q)))
            <-> rankIn id (take (Z.to_nat (Qfloor q)) last)
                <> rankIn id (take (Z.to_nat (Qfloor q)) current)))
  /\ (forall l,
        NoDup (ids l) ->
        (forall (i : nat) p,
            l !! i = Some p -> rankIn (idOf p) l = Num (Z.of_nat i + 1))
        /\ (forall id, ~ In id (ids l) -> rankIn id l = PInf))
  /\ (forall a b c b' a' d,
        let previous := [player "A" a; player "B" b; player "C" c] in
        let present := [player "B" b'; player "A" a'; player "D" d] in
        let records :=
          [("a", {| d_name := "A"; d_elo := Num a';
                    d_oldrank := Num 1; d_newrank := Num 2 |});
           ("b", {| d_name := "B"; d_elo := Num b';
                    d_oldrank := Num 2; d_newrank := Num 1 |});
           ("c", {| d_name := "C"; d_elo := Num 0;
                    d_oldrank := Num 3; d_newrank := PInf |});
           ("d", {| d_name := "D"; d_elo := Num d;
                    d_oldrank := PInf; d_newrank := Num 3 |})] in
        getDiffs previous present None = records
        /\ getDiffs previous present (Some (3 # 1)) = records).
Proof.
  split; [| split].
  - intros last current id Hl Hc. split.
    + intros num Hnum. unfold getDiffs. rewrite !firstN_whole by exact Hnum.
      pose proof (getDiffs_window_iff last current
                    (Nat.max (length last) (length current)) id Hl Hc) as H.
      now rewrite !take_ge in H by lia.
    + intros q Hq. unfold getDiffs. rewrite !firstN_floor by exact Hq.
      now apply getDiffs_window_iff.
  - intros l Hl. split.
    + intros i p Hp. unfold rankIn. rewrite (rankOf_position l i p Hl Hp).
      destruct (Z.eqb_spec (Z.of_nat i + 1) 0); [lia | reflexivity].
    + intros id Hid. unfold rankIn. apply rankOf_absent in Hid.
      now rewrite Hid.
  - intros a b c b' a' d. split; reflexivity.
Qed.

Lemma getDiffs_records_witness :
  let previous := [player "A" 1500; player "B" 1400; player "C" 1300] in
  let present := [player "B" 1520; player "A" 1480; player "D" 1310] in
  NoDup (ids previous) /\ NoDup (ids present) /\ (0 < 5 # 2)%Q
  /\ (is_Some (map_get "c" (getDiffs previous present (Some (5 # 2))))
      <-> rankIn "c" (take 2 previous) <> rankIn "c" (take 2 present)).
Proof.
  intros previous present.
  assert (Hq : (0 < 5 # 2)%Q) by reflexivity.
  assert (Hp : NoDup (ids previous))
    by (apply (bool_decide_unpack _); vm_compute; exact I).
  assert (Hc : NoDup (ids present))
    by (apply (bool_decide_unpack _); vm_compute; exact I).
  split; [exact Hp |]. split; [exact Hc |]. split; [exact Hq |].
  destruct getDiffs_records as [Hrecords _].
  exact (proj2 (Hrecords previous present "c" Hp Hc) (5 # 2) Hq).
Defined.


(** Any window is made of the first entries of the snapshot. *)
Lemma firstN_is_take {A} (num : option Q) (l : list A) :
  exists k : nat, firstN num l = take k l.
Proof.
  unfold firstN. destruct num as [q|]; [destruct (truthyQ q) |].
  - unfold slice0. destruct (toInteger q <? 0); eexists; reflexivity.
  - exists (length l). now rewrite take_ge.
  - exists (length l). now rewrite take_ge.
Qed.







(** ** Tracking changes across the cutoff *)

Lemma map_set_values {V} (P : V -> Prop) k v (m : JsMap V) :
  P v -> Forall P (map_values m) -> Forall P (map_values (map_set k v m)).
Proof.
  intros Hv. unfold map_values.
  induction m as [|[k' v'] m IH]; cbn [map_set map]; intros Hm.
  - constructor; [assumption | constructor].
  - apply Forall_cons in Hm as [Hv' Hm].
    destruct (String.eqb k' k); cbn [map]; apply Forall_cons; auto.
Qed.

Lemma diffsOfLast_ranks current lastN :
  forall i diffs,
    Forall (fun d => isRank (d_oldrank d) /\ isRank (d_newrank d))
           (map_values diffs) ->
    Forall (fun d => isRank (d_oldrank d) /\ isRank (d_newrank d))
           (map_values (diffsOfLast current i lastN diffs)).
Proof.
  induction lastN as [|p rest IH]; intros i diffs Hd; [exact Hd |].
  cbn [diffsOfLast]. apply IH.
  destruct (JsNum.sneq _ _); [| exact Hd].
  apply map_set_values; [| exact Hd]. unfold diffOfLast, isRank.
  destruct (rankOf _ _ =? 0); cbn; split;
    solve [left; reflexivity | right; eexists; reflexivity].
Qed.

Lemma diffsOfCurrent_ranks last currentN :
  forall i diffs,
    Forall (fun d => isRank (d_oldrank d) /\ isRank (d_newrank d))
           (map_values diffs) ->
    Forall (fun d => isRank (d_oldrank d) /\ isRank (d_newrank d))
           (map_values (diffsOfCurrent last i currentN diffs)).
Proof.
  induction currentN as [|p rest IH]; intros i diffs Hd; [exact Hd |].
  cbn [diffsOfCurrent]. apply IH.
  destruct (JsNum.sneq _ _); [| exact Hd].
  apply map_set_values; [| exact Hd]. unfold diffOfCurrent, isRank.
  destruct (rankOf _ _ =? 0); cbn; split;
    solve [left; reflexivity | right; eexists; reflexivity].
Qed.

Lemma getDiffs_ranks last current num :
  Forall (fun d => isRank (d_oldrank d) /\ isRank (d_newrank d))
         (map_values (getDiffs last current num)).
Proof.
  unfold getDiffs. apply diffsOfCurrent_ranks, diffsOfLast_ranks.
  constructor.
Qed.

(** A record crosses the cutoff when one of its ranks is above the cutoff
    and the other is not, whichever of the two it is. *)
Lemma crossesCutoff_sides n d :
  isRank (d_oldrank d) -> isRank (d_newrank d) ->
  crossesCutoff n d
  = negb (Bool.eqb (aboveCutoff n (d_oldrank d))
                   (aboveCutoff n (d_newrank d))).
Proof.
  unfold crossesCutoff, aboveCutoff.
  intros [->|[a ->]] [->|[b ->]]; cbn; try reflexivity;
    split_comparisons.
Qed.

Lemma existsb_insertByNewrank f a l :
  existsb f (insertByNewrank a l) = f a || existsb f l.
Proof.
  induction l as [|b l IH]; cbn [insertByNewrank existsb]; [reflexivity |].
  destruct (newrankAfter a b); cbn [existsb]; [| reflexivity].
  rewrite IH. now destruct (f a), (f b).
Qed.

Lemma existsb_sortByNewrank f l :
  existsb f (sortByNewrank l) = existsb f l.
Proof.
  induction l as [|a l IH]; [reflexivity |].
  cbn [sortByNewrank foldr existsb]. fold (sortByNewrank l).
  now rewrite existsb_insertByNewrank, IH.
Qed.

Lemma changed_after_records n l :
  forall c,
    changed (fold_left (fun c d => if setsChanged n d then set_changed true c
                                   else c) l c)
    = changed c || existsb (setsChanged n) l.
Proof.
  induction l as [|d l IH]; intros c; cbn [fold_left existsb].
  - now rewrite orb_false_r.
  - rewrite IH. destruct (setsChanged n d); cbn [changed set_changed orb].
    + now rewrite orb_true_r.
    + reflexivity.
Qed.

Lemma existsb_ext_in {A} (f g : A -> bool) l :
  (forall x, In x l -> f x = g x) -> existsb f l = existsb g l.
Proof.
  induction l as [|a l IH]; intros H; [reflexivity |]. cbn [existsb].
  rewrite (H a) by (left; reflexivity).
  rewrite IH; [reflexivity |]. intros x Hx. apply H. now right.
Qed.

(** C3, as stated, fails both ways.  With the cutoff 1 and A and B
    exchanging the first two ranks, both records cross the cutoff and the
    client is not marked as changed.  With the cutoff 2 and the same
    exchange, no record crosses the cutoff and the client is marked. *)
Lemma trackChanges_marks_what_stays :
  let previous := [player "A" 1500; player "B" 1400; player "C" 1300] in
  let present := [player "B" 1520; player "A" 1480; player "C" 1300] in
  (forallb (crossesCutoff 1)
     (map_values (getDiffs previous present (Some (inject_Z 1 * FACTOR)%Q)))
   = true
   /\ map_values (getDiffs previous present (Some (inject_Z 1 * FACTOR)%Q))
      <> []
   /\ changed (trackingClient 1 previous) = false
   /\ changed (trackChanges present false (trackingClient 1 previous)) = false)
  /\ (existsb (crossesCutoff 2)
        (map_values (getDiffs previous present (Some (inject_Z 2 * FACTOR)%Q)))
      = false
      /\ changed (trackingClient 2 previous) = false
      /\ changed (trackChanges present false (trackingClient 2 previous))
         = true).
Proof.
  intros previous present.
  split; [split; [reflexivity | split; [discriminate | split; reflexivity]] |].
  split; [reflexivity | split; reflexivity].
Qed.

(** C3, amended.  When [trackChanges] compares a snapshot with the one the
    client holds, for a cutoff [n]: a record crosses the cutoff when one of
    its ranks is above [n] and the other is not, in either direction; the
    client is marked as changed by the records that do not cross, that is
    whose two ranks are on the same side of the cutoff, and never by a
    record that crosses.  A client that was marked stays marked. *)
Theorem trackChanges_flags board display c previous n :
  current (leaderboard c) = Some previous ->
  config_cutoff c = Some n ->
  n <> 0 ->
  let records :=
    map_values (getDiffs previous board (Some (inject_Z n * FACTOR)%Q)) in
  records <> [] ->
  (forall d, In d records ->
             crossesCutoff n d
             = negb (Bool.eqb (aboveCutoff n (d_oldrank d))
                              (aboveCutoff n (d_newrank d))))
  /\ changed (trackChanges board display c)
     = changed c
       || existsb (fun d => Bool.eqb (aboveCutoff n (d_oldrank d))
                                     (aboveCutoff n (d_newrank d))) records.
Proof.
  intros Hcur Hcut Hn records Hrec.
  assert (Hsides : forall d, In d records ->
            crossesCutoff n d
            = negb (Bool.eqb (aboveCutoff n (d_oldrank d))
                             (aboveCutoff n (d_newrank d)))).
  { intros d Hd.
    pose proof (getDiffs_ranks previous board
                  (Some (inject_Z n * FACTOR)%Q)) as Hr.
    rewrite Forall_forall in Hr. apply list_elem_of_In in Hd.
    destruct (Hr d Hd). now apply crossesCutoff_sides. }
  split; [exact Hsides |].
  unfold trackChanges. rewrite Hcur, Hcut.
  destruct (Z.eqb_spec n 0); [contradiction |].
  fold records.
  assert (Hsize : (map_size (getDiffs previous board
                               (Some (inject_Z n * FACTOR)%Q)) =? 0) = false).
  { unfold map_size. apply Z.eqb_neq. intros Hz. apply Hrec.
    unfold records, map_values.
    destruct (getDiffs previous board (Some (inject_Z n * FACTOR)%Q));
      [reflexivity | discriminate]. }
  rewrite Hsize.
  assert (Hmark :
    changed (fold_left (fun c d => if setsChanged n d then set_changed true c
                                   else c) (sortByNewrank records) c)
    = changed c
      || existsb (fun d => Bool.eqb (aboveCutoff n (d_oldrank d))
                                    (aboveCutoff n (d_newrank d))) records).
  { rewrite changed_after_records, existsb_sortByNewrank. f_equal.
    apply existsb_ext_in. intros d Hd. unfold setsChanged.
    rewrite (Hsides d Hd). apply negb_involutive. }
  destruct display; exact Hmark.
Qed.

Lemma trackChanges_flags_witness :
  let previous := [player "A" 1500; player "B" 1400; player "C" 1300] in
  let present := [player "B" 1520; player "A" 1480; player "C" 1300] in
  current (leaderboard (trackingClient 2 previous)) = Some previous
  /\ config_cutoff (trackingClient 2 previous) = Some 2
  /\ 2 <> 0
  /\ map_values (getDiffs previous present (Some (inject_Z 2 * FACTOR)%Q))
     <> []
  /\ changed (trackChanges present true (trackingClient 2 previous))
     = changed (trackingClient 2 previous)
       || existsb (fun d => Bool.eqb (aboveCutoff 2 (d_oldrank d))
                                     (aboveCutoff 2 (d_newrank d)))
            (map_values
               (getDiffs previous present (Some (inject_Z 2 * FACTOR)%Q))).
Proof.
  intros previous present.
  split; [reflexivity |]. split; [reflexivity |].
  split; [discriminate |]. split; [discriminate |].
  exact (proj2 (trackChanges_flags present true (trackingClient 2 previous)
                  previous 2 eq_refl eq_refl ltac:(discriminate)
                  ltac:(discriminate))).
Defined.

(** ** The top log file: missing, unreadable, malformed *)

(** C5, as stated, fails for a file that is there and cannot be read, and
    for a file whose text is not JSON: [fs.readFileSync] and [JSON.parse]
    throw and nothing catches the exception, in [getTopLog] or in
    [updateTopLog]. *)
Lemma getTopLog_throws_on_malformed_file :
  let c := set_tops_json (Contents "{") (newClient "abc") in
  let c' := set_tops_json Unreadable (newClient "abc") in
  JSON_parse "{" = SyntaxError
  /\ getTopLog c = Throws JsSyntaxError
  /\ updateTopLog "ABC Al" (Num 1) (Num 0) exampleNow c
     = Throws JsSyntaxError
  /\ getTopLog c' = Throws JsSystemError
  /\ updateTopLog "ABC Al" (Num 1) (Num 0) exampleNow c'
     = Throws JsSystemError.
Proof. repeat split. Qed.

Lemma toValue_prefix tops :
  getProp "prefix" (TopLog.toValue tops) = Some (VStr (TopLog.prefix tops)).
Proof. reflexivity. Qed.

(** The log the update works on, when the file holds a [topLog]. *)
Lemma currentTopLog_of_value c tops :
  getTopLog c = Returns (TopLog.toValue tops) ->
  TopLog.ofValue (TopLog.toValue tops) = Some tops ->
  currentTopLog c
  = Returns (if String.eqb (TopLog.prefix tops) (prefix c) then tops
             else newTopLog c).
Proof.
  intros Hget Htyped. unfold currentTopLog. rewrite Hget, toValue_prefix.
  change (match TopLog.toValue tops with VNull => ?a | _ => ?b end) with b.
  rewrite Htyped. now destruct (String.eqb _ _).
Qed.

Lemma newTopLog_value c :
  TopLog.ofValue (TopLog.toValue (newTopLog c)) = Some (newTopLog c).
Proof.
  unfold TopLog.toValue, newTopLog. cbn [TopLog.logs TopLog.prefix
    TopLog.currenttop]. rewrite map_to_list_empty. reflexivity.
Qed.

(** C5, amended.  When the file of the top log is missing, [getTopLog]
    returns a new log (the prefix of the client, no current top, no
    entries) and the update works on it.  When the file is there, it is
    read and parsed with no recovery: a file that cannot be read, and a
    text that is not JSON, make [getTopLog] and [updateTopLog] throw the
    exception of the read or of the parser, and nothing is written. *)
Theorem getTopLog_missing_or_malformed c :
  (tops_json c = Missing ->
   getTopLog c = Returns (TopLog.toValue (newTopLog c))
   /\ currentTopLog c = Returns (newTopLog c)
   /\ TopLog.prefix (newTopLog c) = prefix c
   /\ TopLog.currenttop (newTopLog c) = ""
   /\ TopLog.logs (newTopLog c) = ∅)
  /\ (tops_json c = Unreadable ->
      getTopLog c = Throws JsSystemError
      /\ forall username win lose date,
           updateTopLog username win lose date c = Throws JsSystemError)
  /\ (forall text,
        tops_json c = Contents text ->
        JSON_parse text = SyntaxError ->
        getTopLog c = Throws JsSyntaxError
        /\ forall username win lose date,
             updateTopLog username win lose date c = Throws JsSyntaxError).
Proof.
  split; [| split].
  - intros Hfile.
    assert (Hget : getTopLog c = Returns (TopLog.toValue (newTopLog c)))
      by (unfold getTopLog; now rewrite Hfile).
    split; [exact Hget |]. split; [| repeat split].
    rewrite (currentTopLog_of_value c _ Hget (newTopLog_value c)).
    cbn [TopLog.prefix newTopLog]. now rewrite String.eqb_refl.
  - intros Hfile.
    assert (Hget : getTopLog c = Throws JsSystemError)
      by (unfold getTopLog; now rewrite Hfile).
    split; [exact Hget |]. intros username win lose date.
    unfold updateTopLog, currentTopLog. now rewrite Hget.
  - intros text Hfile Hparse.
    assert (Hget : getTopLog c = Throws JsSyntaxError)
      by (unfold getTopLog; now rewrite Hfile, Hparse).
    split; [exact Hget |]. intros username win lose date.
    unfold updateTopLog, currentTopLog. now rewrite Hget.
Qed.

(** The theorem at a client without a file and at one whose file holds the
    start of an array. *)
Lemma getTopLog_missing_or_malformed_witness :
  tops_json (newClient "abc") = Missing
  /\ currentTopLog (newClient "abc") = Returns (newTopLog (newClient "abc"))
  /\ tops_json (set_tops_json (Contents "[1,") (newClient "abc"))
     = Contents "[1,"
  /\ JSON_parse "[1," = SyntaxError
  /\ getTopLog (set_tops_json (Contents "[1,") (newClient "abc"))
     = Throws JsSyntaxError.
Proof.
  split; [reflexivity |].
  split.
  - exact (proj1 (proj2 (proj1 (getTopLog_missing_or_malformed
                                  (newClient "abc")) eq_refl))).
  - split; [reflexivity |]. split; [reflexivity |].
    exact (proj1 (proj2 (proj2 (getTopLog_missing_or_malformed
                                  (set_tops_json (Contents "[1,")
                                     (newClient "abc"))))
                    "[1," eq_refl eq_refl)).
Defined.

(** ** JSON: what is printed parses back *)

(** *** Strings *)

Lemma parseChars_quoteChar c tail :
  parseChars (quoteChar c tail) = parsedMap (String c) (parseChars tail).
Proof.
  destruct c as [[] [] [] [] [] [] [] []]; reflexivity.
Qed.

Lemma parseChars_quoteChars s rest :
  parseChars (quoteChars s (String "034" rest)) = Parsed s rest.
Proof.
  induction s as [|c s IH]; [reflexivity |].
  cbn [quoteChars]. now rewrite parseChars_quoteChar, IH.
Qed.

(** *** Numbers *)

Lemma digit_cases d :
  0 <= d < 10 ->
  d = 0 \/ d = 1 \/ d = 2 \/ d = 3 \/ d = 4 \/ d = 5 \/ d = 6 \/ d = 7
  \/ d = 8 \/ d = 9.
Proof. lia. Qed.

Lemma digitChar_digit d :
  0 <= d < 10 ->
  digit_value 10 (digitChar d) = Some d
  /\ is_digit (digitChar d) = true
  /\ (d <> 0 -> Ascii.eqb (digitChar d) "0" = false)
  /\ digitChar d <> "-"%char.
Proof.
  intros Hd.
  destruct (digit_cases d Hd) as [->|[->|[->|[->|[->|[->|[->|[->|[->| ->]]]]]]]]];
    repeat split; solve [reflexivity | discriminate | congruence].
Qed.

(** The digits [showDigits] prints are read back by [digits]. *)
Lemma digits_showDigits fuel :
  forall n rest acc cnt,
    0 <= n < 10 ^ Z.of_nat (S fuel) ->
    exists len,
      0 < len
      /\ digits 10 (showDigits (S fuel) n rest) acc cnt
         = digits 10 rest (acc * 10 ^ len + n) (cnt + len).
Proof.
  induction fuel as [|fuel IH]; intros n rest acc cnt Hn;
    cbn [showDigits];
    assert (Hmod : 0 <= n mod 10 < 10) by (apply Z.mod_pos_bound; lia);
    destruct (digitChar_digit _ Hmod) as (Hval & _);
    destruct (Z.ltb_spec n 10) as [Hsmall|Hbig].
  - exists 1. split; [lia |]. cbn [digits]. rewrite Hval.
    rewrite Z.mod_small by lia. now rewrite Z.pow_1_r.
  - cbn in Hn. lia.
  - exists 1. split; [lia |]. cbn [digits]. rewrite Hval.
    rewrite Z.mod_small by lia. now rewrite Z.pow_1_r.
  - assert (Hdiv : 0 <= n / 10 < 10 ^ Z.of_nat (S fuel)).
    { rewrite (Nat2Z.inj_succ (S fuel)), Z.pow_succ_r in Hn by lia.
      split; [apply Z.div_pos; lia |].
      apply Z.div_lt_upper_bound; lia. }
    destruct (IH (n / 10) (String (digitChar (n mod 10)) rest) acc cnt Hdiv)
      as (len & Hlen & Heq).
    exists (len + 1). split; [lia |].
    change (if n / 10 <? 10 then ?a else ?b)
      with (showDigits (S fuel) (n / 10)
              (String (digitChar (n mod 10)) rest)).
    rewrite Heq. cbn [digits].
    rewrite Hval. f_equal; [| lia].
    rewrite Z.pow_add_r, Z.pow_1_r by lia.
    pose proof (Z.div_mod n 10 ltac:(lia)). lia.
Qed.

(** The first digit [showDigits] prints is 0 for 0 alone. *)
Lemma showDigits_head fuel :
  forall n rest,
    0 <= n < 10 ^ Z.of_nat (S fuel) ->
    exists c r,
      showDigits (S fuel) n rest = String c r
      /\ is_digit c = true
      /\ c <> "-"%char
      /\ (n <> 0 -> Ascii.eqb c "0" = false)
      /\ (n = 0 -> c = "0"%char /\ r = rest).
Proof.
  induction fuel as [|fuel IH]; intros n rest Hn;
    cbn [showDigits];
    assert (Hmod : 0 <= n mod 10 < 10) by (apply Z.mod_pos_bound; lia);
    destruct (Z.ltb_spec n 10) as [Hsmall|Hbig].
  - rewrite Z.mod_small by lia.
    destruct (digitChar_digit n ltac:(lia)) as (_ & Hd & H0 & Hm).
    exists (digitChar n), rest.
    split; [reflexivity |]. split; [exact Hd |]. split; [exact Hm |].
    split; [exact H0 |]. intros ->. split; reflexivity.
  - cbn in Hn. lia.
  - rewrite Z.mod_small by lia.
    destruct (digitChar_digit n ltac:(lia)) as (_ & Hd & H0 & Hm).
    exists (digitChar n), rest.
    split; [reflexivity |]. split; [exact Hd |]. split; [exact Hm |].
    split; [exact H0 |]. intros ->. split; reflexivity.
  - assert (Hdiv : 0 <= n / 10 < 10 ^ Z.of_nat (S fuel)).
    { rewrite (Nat2Z.inj_succ (S fuel)), Z.pow_succ_r in Hn by lia.
      split; [apply Z.div_pos; lia |].
      apply Z.div_lt_upper_bound; lia. }
    destruct (IH (n / 10) (String (digitChar (n mod 10)) rest) Hdiv)
      as (c & r & Heq & Hd & Hm & H0 & _).
    exists c, r.
    change (if n / 10 <? 10 then ?a else ?b)
      with (showDigits (S fuel) (n / 10)
              (String (digitChar (n mod 10)) rest)).
    split; [exact Heq |]. split; [exact Hd |]. split; [exact Hm |].
    split; [| lia]. intros _. apply H0. intros Hz.
    pose proof (Z.div_mod n 10 ltac:(lia)). lia.
Qed.

Lemma showZ_fuel n : 0 <= n -> 0 <= n < 10 ^ Z.of_nat (S (Z.to_nat (Z.log2 n))).
Proof.
  intros Hn. split; [assumption |].
  rewrite Nat2Z.inj_succ, Z2Nat.id by apply Z.log2_nonneg.
  destruct (Z.eq_dec n 0) as [->|Hz]; [reflexivity |].
  pose proof (Z.log2_spec n ltac:(lia)) as [_ Hlt].
  eapply Z.lt_le_trans; [exact Hlt |].
  apply Z.pow_le_mono_l. pose proof (Z.log2_nonneg n). lia.
Qed.

Lemma minusSign_other c r :
  c <> "-"%char -> minusSign (String c r) = (false, String c r).
Proof.
  intros H. destruct c as [[] [] [] [] [] [] [] []]; try reflexivity.
  exfalso. apply H. reflexivity.
Qed.

(** After a number that is printed comes no digit, no point and no
    exponent. *)
Lemma delimited_number rest :
  delimited rest ->
  (forall acc cnt, digits 10 rest acc cnt = (acc, cnt, rest))
  /\ (forall int, fractionPart int rest = Parsed (int, 0) rest)
  /\ parseExponent rest = Parsed 0 rest.
Proof.
  intros [->|[r [->|[->| ->]]]]; repeat split.
Qed.

Lemma integerPart_showDigits n rest :
  0 <= n -> delimited rest ->
  integerPart (showDigits (S (Z.to_nat (Z.log2 n))) n rest) = Parsed n rest.
Proof.
  intros Hn Hrest.
  destruct (delimited_number rest Hrest) as (Hdigits & _).
  destruct (showDigits_head _ n rest (showZ_fuel n Hn))
    as (c & r & Heq & Hd & _ & Hnz & Hz).
  destruct (digits_showDigits _ n rest 0 0 (showZ_fuel n Hn))
    as (len & _ & Hread).
  rewrite Heq in Hread |- *. unfold integerPart. rewrite Hd.
  destruct (Z.eq_dec n 0) as [->|Hne].
  - destruct (Hz eq_refl) as [-> ->]. reflexivity.
  - rewrite (Hnz Hne), Hread, Hdigits. reflexivity.
Qed.

Lemma parseNumber_showZ z rest :
  delimited rest -> parseNumber (showZ z rest) = Parsed (Num z) rest.
Proof.
  intros Hrest.
  destruct (delimited_number rest Hrest) as (_ & Hfrac & Hexp).
  unfold parseNumber, showZ.
  destruct (Z.ltb_spec z 0) as [Hneg|Hpos].
  - cbn [minusSign]. rewrite integerPart_showDigits by (lia || assumption).
    rewrite Hfrac, Hexp. cbn. f_equal. f_equal. lia.
  - destruct (showDigits_head _ z rest (showZ_fuel z Hpos))
      as (c & r & Heq & _ & Hm & _).
    rewrite Heq, (minusSign_other c r Hm), <- Heq.
    rewrite integerPart_showDigits by assumption.
    rewrite Hfrac, Hexp. cbn. f_equal. f_equal. lia.
Qed.

Lemma parseNumber_printNumber n rest :
  delimited rest ->
  JsNum.finite n = true ->
  parseNumber (printNumber n rest) = Parsed n rest.
Proof.
  intros Hrest Hfin. destruct n; try discriminate.
  now apply parseNumber_showZ.
Qed.

(** *** Values *)

(** Induction on a value, with the property for the elements of an array
    and the members of an object. *)
Lemma value_induction (P : value -> Prop) :
  P VNull ->
  (forall b, P (VBool b)) ->
  (forall n, P (VNum n)) ->
  (forall s, P (VStr s)) ->
  (forall elements, Forall P elements -> P (VArr elements)) ->
  (forall members, Forall (fun kv => P (snd kv)) members -> P (VObj members)) ->
  forall v, P v.
Proof.
  intros Hnull Hbool Hnum Hstr Harr Hobj.
  fix IH 1. intros [|b|n|s|elements|members].
  - exact Hnull.
  - apply Hbool.
  - apply Hnum.
  - apply Hstr.
  - apply Harr. induction elements as [|v l IHl]; constructor.
    + apply IH.
    + exact IHl.
  - apply Hobj. induction members as [|[k v] l IHl]; constructor.
    + apply IH.
    + exact IHl.
Qed.

Lemma digit_opensValue c : is_digit c = true -> opensValue c.
Proof.
  destruct c as [[] [] [] [] [] [] [] []]; try discriminate;
    intros _; repeat split; discriminate.
Qed.

Lemma printValue_head v rest :
  exists c r, printValue v rest = String c r /\ opensValue c.
Proof.
  destruct v as [|[]|[z| | |]|s|elements|members];
    try (eexists _, _; split; [reflexivity |]; repeat split; discriminate).
  cbn [printValue printNumber]. unfold showZ.
  destruct (Z.ltb_spec z 0).
  - eexists _, _. split; [reflexivity |]. repeat split; discriminate.
  - destruct (showDigits_head _ z rest (showZ_fuel z ltac:(lia)))
      as (c & r & Heq & Hd & _).
    exists c, r. split; [exact Heq |]. now apply digit_opensValue.
Qed.

(** Before a value, the parsers find no closing bracket or brace. *)
Lemma skipWs_opensValue c r : opensValue c -> skipWs (String c r) = String c r.
Proof. intros (H & _). cbn [skipWs]. now rewrite H. Qed.

Lemma afterChar_other c d r : c <> d -> afterChar d (String c r) = None.
Proof.
  intros H. cbn [afterChar]. destruct (Ascii.eqb_spec c d); congruence.
Qed.

Lemma no_closing_bracket c r :
  opensValue c ->
  afterChar "]" (skipWs (String c r)) = None
  /\ afterChar "}" (skipWs (String c r)) = None.
Proof.
  intros Hc. rewrite (skipWs_opensValue c r Hc).
  destruct Hc as (_ & Hb & Hr). now rewrite !afterChar_other.
Qed.

(** A number is parsed as one. *)
Lemma parseValue_number fuel c r :
  is_digit c = true \/ c = "-"%char ->
  parseValue (S fuel) (String c r) = parsedMap VNum (parseNumber (String c r)).
Proof.
  destruct c as [[] [] [] [] [] [] [] []];
    intros [H|H]; try discriminate; reflexivity.
Qed.

Lemma parseValue_printNumber fuel n rest :
  delimited rest ->
  parseValue (S fuel) (printNumber n rest) = Parsed (sanitize (VNum n)) rest.
Proof.
  intros Hrest. destruct n as [z| | |]; try reflexivity.
  cbn [sanitize JsNum.finite printNumber].
  assert (Hhead : exists c r, showZ z rest = String c r
                              /\ (is_digit c = true \/ c = "-"%char)).
  { unfold showZ. destruct (Z.ltb_spec z 0).
    - eexists _, _. split; [reflexivity |]. now right.
    - destruct (showDigits_head _ z rest (showZ_fuel z ltac:(lia)))
        as (c & r & Heq & Hd & _).
      exists c, r. split; [exact Heq |]. now left. }
  destruct Hhead as (c & r & Heq & Hc).
  rewrite Heq, (parseValue_number fuel c r Hc), <- Heq.
  now rewrite parseNumber_showZ.
Qed.

Lemma list_sum_cons a l : list_sum (a :: l) = (a + list_sum l)%nat.
Proof. reflexivity. Qed.

Lemma list_sum_nil : list_sum [] = 0%nat.
Proof. reflexivity. Qed.

Lemma delimited_elements l rest :
  delimited (printElements printValue false l rest).
Proof. right. destruct l; cbn [printElements]; eauto. Qed.

Lemma delimited_members l rest :
  delimited (printMembers printValue false l rest).
Proof. right. destruct l as [|[k v] l]; cbn [printMembers]; eauto. Qed.

(** The elements of an array after the first: [v] and then [l]. *)
Lemma parseElements_printElements l :
  Forall parsesBack l ->
  forall v (fuel : nat) rest,
    parsesBack v ->
    (S (valueSize v) + list_sum (map (fun v => S (valueSize v)) l) <= fuel)%nat ->
    parseElements fuel (printValue v (printElements printValue false l rest))
    = Parsed (sanitize v :: map sanitize l) rest.
Proof.
  induction 1 as [|v2 l Hv2 Hl IH]; intros v fuel rest Hv Hfuel;
    (cbn [map snd] in Hfuel; rewrite ?list_sum_cons, ?list_sum_nil in Hfuel;
     destruct fuel as [|fuel]; [lia |]);
    cbn [parseElements];
    rewrite Hv by (apply delimited_elements || lia).
  - reflexivity.
  - cbn [printElements skipWs isJsonSpace afterChar Ascii.eqb Bool.eqb].
    rewrite IH by (assumption || lia). reflexivity.
Qed.

(** The members of an object after the first: [k : v] and then [l]. *)
Lemma parseMembers_printMembers l :
  Forall (fun kv => parsesBack (snd kv)) l ->
  forall k v (fuel : nat) rest,
    parsesBack v ->
    (S (valueSize v) + list_sum (map (fun kv => S (valueSize (snd kv))) l)
     <= fuel)%nat ->
    parseMembers fuel
      (quote k (String ":" (printValue v (printMembers printValue false l rest))))
    = Parsed ((k, sanitize v) :: map (fun kv => (fst kv, sanitize (snd kv))) l)
        rest.
Proof.
  induction 1 as [|[k2 v2] l Hv2 Hl IH]; intros k v fuel rest Hv Hfuel;
    (cbn [map snd] in Hfuel; rewrite ?list_sum_cons, ?list_sum_nil in Hfuel;
     destruct fuel as [|fuel]; [lia |]);
    cbn [parseMembers quote skipWs isJsonSpace afterChar Ascii.eqb Bool.eqb];
    rewrite parseChars_quoteChars;
    cbn [skipWs isJsonSpace afterChar Ascii.eqb Bool.eqb];
    rewrite Hv by (apply delimited_members || lia).
  - reflexivity.
  - cbn [printMembers skipWs isJsonSpace afterChar Ascii.eqb Bool.eqb].
    rewrite IH by (assumption || lia). reflexivity.
Qed.

(** Every value that is printed parses back, to what [JSON.stringify]
    keeps of it. *)
Lemma parseValue_printValue v : parsesBack v.
Proof.
  induction v as [|b|n|s|elements IH|members IH] using value_induction;
    intros fuel rest Hrest Hfuel;
    (destruct fuel as [|fuel]; [cbn [valueSize] in Hfuel; lia |]).
  - reflexivity.
  - destruct b; reflexivity.
  - now apply parseValue_printNumber.
  - cbn [printValue quote parseValue skipWs isJsonSpace afterChar Ascii.eqb
         Bool.eqb].
    now rewrite parseChars_quoteChars.
  - destruct IH as [|v l Hv Hl]; [reflexivity |].
    change (valueSize (VArr (v :: l)))
      with (S (S (valueSize v)
               + list_sum (map (fun v => S (valueSize v)) l))) in Hfuel.
    cbn [printValue printElements parseValue skipWs isJsonSpace sanitize map
         afterChar Ascii.eqb Bool.eqb].
    destruct (printValue_head v (printElements printValue false l rest))
      as (c & r & Heq & Hc).
    rewrite Heq, (proj1 (no_closing_bracket c r Hc)), <- Heq.
    rewrite (parseElements_printElements l Hl v fuel rest Hv) by lia.
    reflexivity.
  - destruct IH as [|[k v] l Hv Hl]; [reflexivity |].
    change (valueSize (VObj ((k, v) :: l)))
      with (S (S (valueSize v)
               + list_sum (map (fun kv => S (valueSize (snd kv))) l)))
      in Hfuel.
    cbn [printValue printMembers parseValue skipWs isJsonSpace sanitize map
         quote fst snd afterChar Ascii.eqb Bool.eqb].
    rewrite (parseMembers_printMembers l Hl k v fuel rest Hv) by lia.
    reflexivity.
Qed.

(** *** The fuel of [JSON_parse] *)

Lemma length_showDigits fuel :
  forall n rest,
    (String.length rest <= String.length (showDigits fuel n rest))%nat.
Proof.
  induction fuel as [|fuel IH]; intros n rest; cbn [showDigits]; [lia |].
  destruct (n <? 10); [cbn [String.length]; lia |].
  etransitivity; [| apply IH]. cbn [String.length]. lia.
Qed.

Lemma length_showZ z rest :
  (1 + String.length rest <= String.length (showZ z rest))%nat.
Proof.
  unfold showZ. destruct (z <? 0).
  - cbn [String.length]. pose proof (length_showDigits
      (S (Z.to_nat (Z.log2 (- z)))) (- z) rest). lia.
  - cbn [showDigits]. destruct (z <? 10); [cbn [String.length]; lia |].
    etransitivity; [| apply length_showDigits]. cbn [String.length]. lia.
Qed.

Lemma length_quoteChar c rest :
  (1 + String.length rest <= String.length (quoteChar c rest))%nat.
Proof.
  destruct c as [[] [] [] [] [] [] [] []];
    cbv -[String.length Nat.add]; cbn [String.length]; lia.
Qed.

Lemma length_quote s rest :
  (2 + String.length rest <= String.length (quote s rest))%nat.
Proof.
  unfold quote. cbn [String.length].
  enough (1 + String.length rest
          <= String.length (quoteChars s (String "034" rest)))%nat by lia.
  induction s as [|c s IH]; cbn [quoteChars String.length]; [lia |].
  pose proof (length_quoteChar c (quoteChars s (String "034" rest))). lia.
Qed.

(** The text of a value is at least as long as the value is large. *)
Lemma length_printValue v :
  forall rest,
    (valueSize v + String.length rest
     <= String.length (printValue v rest))%nat.
Proof.
  induction v as [|b|n|s|elements IH|members IH] using value_induction;
    intros rest.
  - cbn [valueSize printValue]; cbv [String.append]; cbn [String.length]. lia.
  - destruct b; cbn [valueSize printValue]; cbv [String.append]; cbn [String.length]; lia.
  - destruct n; cbn [printValue printNumber valueSize];
      [apply length_showZ | cbv [String.append]; cbn [String.length]; lia ..].
  - cbn [printValue valueSize]. pose proof (length_quote s rest). lia.
  - change (S (list_sum (map (fun v => S (valueSize v)) elements))
            + String.length rest
            <= S (String.length (printElements printValue true elements rest)))%nat.
    enough (forall first : bool,
              list_sum (map (fun v => S (valueSize v)) elements)
              + 1 + String.length rest
              <= String.length (printElements printValue first elements rest)
                 + (if first then 1 else 0))%nat as H
      by (specialize (H true); cbv iota in H; lia).
    induction IH as [|v l Hv Hl IHl]; intros first;
      cbn [printElements map]; rewrite ?list_sum_cons, ?list_sum_nil.
    + cbn [String.length]. destruct first; lia.
    + specialize (IHl false). cbv iota in IHl.
      specialize (Hv (printElements printValue false l rest)).
      destruct first; cbn [String.length]; lia.
  - change (S (list_sum (map (fun kv => S (valueSize (snd kv))) members))
            + String.length rest
            <= S (String.length (printMembers printValue true members rest)))%nat.
    enough (forall first : bool,
              list_sum (map (fun kv => S (valueSize (snd kv))) members)
              + 1 + String.length rest
              <= String.length (printMembers printValue first members rest)
                 + (if first then 1 else 0))%nat as H
      by (specialize (H true); cbv iota in H; lia).
    induction IH as [|[k v] l Hv Hl IHl]; intros first;
      cbn [printMembers map snd]; rewrite ?list_sum_cons, ?list_sum_nil.
    + cbn [String.length]. destruct first; lia.
    + specialize (IHl false). cbv iota in IHl. cbn [snd] in Hv.
      specialize (Hv (printMembers printValue false l rest)).
      pose proof (length_quote k
        (String ":" (printValue v (printMembers printValue false l rest))))
        as Hq.
      cbn [String.length] in Hq.
      destruct first; cbn [String.length]; lia.
Qed.

(** [JSON.parse(JSON.stringify(v))] is what [JSON.stringify] keeps of
    [v]. *)
Lemma JSON_parse_stringify v :
  JSON_parse (JSON_stringify v) = Parsed (sanitize v) EmptyString.
Proof.
  unfold JSON_parse, JSON_stringify.
  rewrite parseValue_printValue; [reflexivity | now left |].
  pose proof (length_printValue v EmptyString). lia.
Qed.

(** ** [JSON_parse] has fuel enough *)

Lemma consumes_parsedMap {A B} (f : A -> B) p n :
  consumes (parsedMap f p) n <-> consumes p n.
Proof. now destruct p. Qed.

Lemma fuelled_parsedMap {A B} (f : A -> B) p :
  fuelled (parsedMap f p) <-> fuelled p.
Proof. unfold fuelled. destruct p; cbn [parsedMap]; split; congruence. Qed.

Lemma consumes_le {A} (p : parsed A) n m :
  (n <= m)%nat -> consumes p n -> consumes p m.
Proof. destruct p; cbn [consumes]; lia. Qed.

Lemma skipWs_length s : (String.length (skipWs s) <= String.length s)%nat.
Proof.
  induction s as [|c s IH]; cbn [skipWs String.length]; [lia |].
  destruct (isJsonSpace c); cbn [String.length]; lia.
Qed.

Lemma afterChar_length c s r :
  afterChar c s = Some r -> String.length s = S (String.length r).
Proof.
  destruct s as [|c' s]; cbn [afterChar]; [discriminate |].
  destruct (Ascii.eqb c' c); [|discriminate]. now intros [= ->].
Qed.

Lemma afterWord_length w :
  forall s r, afterWord w s = Some r ->
              (String.length s = String.length w + String.length r)%nat.
Proof.
  induction w as [|c w IH]; intros s r; cbn [afterWord String.length].
  - now intros [= ->].
  - destruct (afterChar c s) as [r1|] eqn:Hc; [|discriminate].
    intros Hw. apply afterChar_length in Hc. apply IH in Hw. lia.
Qed.

Lemma digits_length radix s :
  forall acc count,
    (String.length (digits radix s acc count).2 <= String.length s)%nat.
Proof.
  induction s as [|c s IH]; intros acc count; cbn [digits String.length];
    [cbn; lia |].
  destruct (digit_value radix c); [|cbn [snd String.length]; lia].
  specialize (IH (acc * radix + z) (count + 1)). lia.
Qed.

(** *** Strings and numbers *)

Lemma parseChars_consumes n :
  forall s, (String.length s <= n)%nat ->
            consumes (parseChars s) (String.length s)
            /\ fuelled (parseChars s).
Proof.
  induction n as [|n IH]; intros [|c r] Hn; cbn [String.length] in Hn;
    try (split; [exact I | discriminate]); [lia |].
  assert (Hrec : forall {A} (f : string -> A) t m,
             (String.length t <= n)%nat -> (String.length t <= m)%nat ->
             consumes (parsedMap f (parseChars t)) (S m)
             /\ fuelled (parsedMap f (parseChars t))).
  { intros A f t m Ht Hm. destruct (IH t Ht) as [Hc Hf].
    rewrite consumes_parsedMap, fuelled_parsedMap. split; [|exact Hf].
    apply (consumes_le _ (String.length t)); [lia | exact Hc]. }
  cbn [parseChars String.length].
  destruct (Ascii.eqb c "034");
    [split; [cbn [consumes]; lia | discriminate] |].
  destruct (Ascii.eqb c "\").
  2:{ destruct (N_of_ascii c <? 32)%N; [split; [exact I | discriminate] |].
      apply Hrec; lia. }
  destruct r as [|e r1]; [split; [exact I | discriminate] |].
  cbn [String.length] in *.
  destruct (Ascii.eqb e "u").
  2:{ destruct (escaped e); [|split; [exact I | discriminate]].
      apply Hrec; lia. }
  destruct r1 as [|h1 [|h2 [|h3 [|h4 r2]]]];
    try (split; [exact I | discriminate]).
  cbn [String.length] in *.
  destruct (hex4 h1 h2 h3 h4) as [u|]; [|split; [exact I | discriminate]].
  destruct ((u <? 55296) || (57343 <? u)); [apply Hrec; lia |].
  destruct (u <? 56320); [|split; [exact I | discriminate]].
  destruct r2 as [|b [|e' [|l1 [|l2 [|l3 [|l4 r3]]]]]];
    try (split; [exact I | discriminate]).
  cbn [String.length] in *.
  destruct (hex4 l1 l2 l3 l4) as [l|]; [|split; [exact I | discriminate]].
  destruct (Ascii.eqb b "\" && Ascii.eqb e' "u" && (56320 <=? l)
            && (l <=? 57343));
    [apply Hrec; lia | split; [exact I | discriminate]].
Qed.

Lemma integerPart_consumes s :
  consumes (integerPart s) (String.length s) /\ fuelled (integerPart s).
Proof.
  destruct s as [|c r]; [split; [exact I | discriminate] |].
  cbn [integerPart]. destruct (is_digit c) eqn:Hc;
    [|split; [exact I | discriminate]].
  destruct (Ascii.eqb c "0");
    [split; [cbn [consumes String.length]; lia | discriminate] |].
  cbn [digits]. unfold digit_value. rewrite Hc.
  pose proof (digits_length 10 r (0 * 10 + (Z.of_N (N_of_ascii c) - 48))
                (0 + 1)) as Hlen.
  destruct (digits 10 r _ _) as [[int count] s2].
  split; [cbn [consumes String.length snd] in *; lia | discriminate].
Qed.

Lemma fractionPart_consumes int s :
  consumes (fractionPart int s) (S (String.length s))
  /\ fuelled (fractionPart int s).
Proof.
  assert (Hsame : consumes (Parsed (int, 0) s) (S (String.length s))
                  /\ fuelled (Parsed (int, 0) s)).
  { split; [cbn [consumes]; lia | discriminate]. }
  destruct s as [|c r]; [exact Hsame |].
  unfold fractionPart.
  destruct (Ascii.eqb_spec c "."); [subst c | ].
  - pose proof (digits_length 10 r int 0) as Hlen.
    destruct (digits 10 r int 0) as [[mant count] s3].
    destruct (count =? 0); [split; [exact I | discriminate] |].
    split; [cbn [consumes String.length snd] in *; lia | discriminate].
  - destruct c as [[] [] [] [] [] [] [] []]; try exact Hsame.
    congruence.
Qed.

Lemma sign_length s : (String.length (sign s).2 <= String.length s)%nat.
Proof.
  destruct s as [|c r]; [cbn; lia |].
  destruct c as [[] [] [] [] [] [] [] []]; cbn; lia.
Qed.

Lemma parseExponent_consumes s :
  consumes (parseExponent s) (S (String.length s))
  /\ fuelled (parseExponent s).
Proof.
  assert (Hsame : consumes (Parsed 0 s) (S (String.length s))
                  /\ fuelled (Parsed 0 s)).
  { split; [cbn [consumes]; lia | discriminate]. }
  assert (Hexp : forall r,
             (String.length r < String.length s)%nat ->
             consumes (let '(negative, r1) := sign r in
                       let '(value, count, r2) := digits 10 r1 0 0 in
                       if count =? 0 then SyntaxError
                       else Parsed (if negative then - value else value) r2)
               (S (String.length s))
             /\ fuelled (let '(negative, r1) := sign r in
                         let '(value, count, r2) := digits 10 r1 0 0 in
                         if count =? 0 then SyntaxError
                         else Parsed (if negative then - value else value)
                                r2)).
  { intros r Hr. pose proof (sign_length r) as Hsign.
    destruct (sign r) as [negative r1].
    pose proof (digits_length 10 r1 0 0) as Hlen.
    destruct (digits 10 r1 0 0) as [[value count] r2].
    destruct (count =? 0); [split; [exact I | discriminate] |].
    split; [cbn [consumes snd] in *; lia | discriminate]. }
  destruct s as [|c r]; [exact Hsame |].
  destruct c as [[] [] [] [] [] [] [] []]; try exact Hsame;
    apply Hexp; cbn [String.length]; lia.
Qed.

Lemma minusSign_length s :
  (String.length (minusSign s).2 <= String.length s)%nat.
Proof.
  destruct s as [|c r]; [cbn; lia |].
  destruct c as [[] [] [] [] [] [] [] []]; cbn; lia.
Qed.

Lemma parseNumber_consumes s :
  consumes (parseNumber s) (String.length s) /\ fuelled (parseNumber s).
Proof.
  unfold parseNumber. pose proof (minusSign_length s) as Hsign.
  destruct (minusSign s) as [negative s1].
  destruct (integerPart_consumes s1) as [Hint Hf1].
  destruct (integerPart s1) as [int s2| | |];
    try (split; [exact I | discriminate]); [|now destruct Hf1].
  destruct (fractionPart_consumes int s2) as [Hfrac Hf2].
  destruct (fractionPart int s2) as [[mant count] s3| | |];
    try (split; [exact I | discriminate]); [|now destruct Hf2].
  destruct (parseExponent_consumes s3) as [Hexp Hf3].
  destruct (parseExponent s3) as [e s4| | |];
    try (split; [exact I | discriminate]); [|now destruct Hf3].
  cbn [consumes snd] in *.
  destruct (0 <=? e - count); [split; [cbn [consumes]; lia | discriminate] |].
  destruct (_ =? 0); split;
    solve [exact I | discriminate | cbn [consumes]; lia].
Qed.

(** *** Values *)

Lemma parseLiteral_length s v r :
  parseLiteral s = Some (v, r) -> (String.length r < String.length s)%nat.
Proof.
  unfold parseLiteral.
  destruct (afterWord "null" s) as [r1|] eqn:H1;
    [intros [= _ ->]; apply afterWord_length in H1;
     cbn [String.length] in H1; lia |].
  destruct (afterWord "true" s) as [r2|] eqn:H2;
    [intros [= _ ->]; apply afterWord_length in H2;
     cbn [String.length] in H2; lia |].
  destruct (afterWord "false" s) as [r3|] eqn:H3; [|discriminate].
  intros [= _ ->]. apply afterWord_length in H3.
  cbn [String.length] in H3. lia.
Qed.

(** A value that is parsed takes at least one character. *)
Lemma parseValue_consumes fuel :
  (forall s, consumes (parseValue fuel s) (String.length s))
  /\ (forall s, consumes (parseElements fuel s) (String.length s))
  /\ (forall s, consumes (parseMembers fuel s) (String.length s)).
Proof.
  induction fuel as [|fuel (IHv & IHe & IHm)];
    [repeat split; intros s; exact I |].
  split; [|split]; intros s.
  - cbn [parseValue]. pose proof (skipWs_length s) as Hs.
    destruct (afterChar "034" (skipWs s)) as [r|] eqn:Hq.
    { apply afterChar_length in Hq. rewrite consumes_parsedMap.
      apply (consumes_le _ (String.length r)); [lia |].
      apply (parseChars_consumes _ r (le_n _)). }
    destruct (afterChar "[" (skipWs s)) as [r|] eqn:Hb.
    { apply afterChar_length in Hb. pose proof (skipWs_length r) as Hr.
      destruct (afterChar "]" (skipWs r)) as [r'|] eqn:Hc.
      - apply afterChar_length in Hc. cbn [consumes]. lia.
      - rewrite consumes_parsedMap.
        apply (consumes_le _ (String.length r)); [lia | apply IHe]. }
    destruct (afterChar "{" (skipWs s)) as [r|] eqn:Ho.
    { apply afterChar_length in Ho. pose proof (skipWs_length r) as Hr.
      destruct (afterChar "}" (skipWs r)) as [r'|] eqn:Hc.
      - apply afterChar_length in Hc. cbn [consumes]. lia.
      - rewrite consumes_parsedMap.
        apply (consumes_le _ (String.length r)); [lia | apply IHm]. }
    destruct (parseLiteral (skipWs s)) as [[v r]|] eqn:Hl.
    { apply parseLiteral_length in Hl. cbn [consumes]. lia. }
    rewrite consumes_parsedMap.
    apply (consumes_le _ (String.length (skipWs s))); [lia |].
    apply parseNumber_consumes.
  - cbn [parseElements]. specialize (IHv s).
    destruct (parseValue fuel s) as [v r| | |]; try exact I.
    cbn [consumes] in IHv. pose proof (skipWs_length r) as Hr.
    destruct (afterChar "," (skipWs r)) as [r'|] eqn:Hc.
    { apply afterChar_length in Hc. rewrite consumes_parsedMap.
      apply (consumes_le _ (String.length r')); [lia | apply IHe]. }
    destruct (afterChar "]" (skipWs r)) as [r'|] eqn:Hb; [|exact I].
    apply afterChar_length in Hb. cbn [consumes]. lia.
  - cbn [parseMembers]. pose proof (skipWs_length s) as Hs.
    destruct (afterChar "034" (skipWs s)) as [r|] eqn:Hq; [|exact I].
    apply afterChar_length in Hq.
    destruct (parseChars_consumes _ r (le_n _)) as [Hk _].
    destruct (parseChars r) as [k r1| | |]; try exact I.
    cbn [consumes] in Hk. pose proof (skipWs_length r1) as Hr1.
    destruct (afterChar ":" (skipWs r1)) as [r2|] eqn:Hc; [|exact I].
    apply afterChar_length in Hc. specialize (IHv r2).
    destruct (parseValue fuel r2) as [v r3| | |]; try exact I.
    cbn [consumes] in IHv. pose proof (skipWs_length r3) as Hr3.
    destruct (afterChar "," (skipWs r3)) as [r'|] eqn:Hn.
    { apply afterChar_length in Hn. rewrite consumes_parsedMap.
      apply (consumes_le _ (String.length r')); [lia | apply IHm]. }
    destruct (afterChar "}" (skipWs r3)) as [r'|] eqn:Hb; [|exact I].
    apply afterChar_length in Hb. cbn [consumes]. lia.
Qed.

(** Two units of fuel for each character are enough. *)
Lemma parseValue_fuelled fuel :
  (forall s, (2 * String.length s + 1 <= fuel)%nat ->
             fuelled (parseValue fuel s))
  /\ (forall s, (2 * String.length s + 2 <= fuel)%nat ->
                fuelled (parseElements fuel s))
  /\ (forall s, (2 * String.length s + 2 <= fuel)%nat ->
                fuelled (parseMembers fuel s)).
Proof.
  induction fuel as [|fuel (IHv & IHe & IHm)];
    [repeat split; intros s Hs; lia |].
  destruct (parseValue_consumes fuel) as (Cv & _ & _).
  split; [|split]; intros s Hfuel.
  - cbn [parseValue]. pose proof (skipWs_length s) as Hs.
    destruct (afterChar "034" (skipWs s)) as [r|] eqn:Hq.
    { rewrite fuelled_parsedMap. apply (parseChars_consumes _ r (le_n _)). }
    destruct (afterChar "[" (skipWs s)) as [r|] eqn:Hb.
    { apply afterChar_length in Hb.
      destruct (afterChar "]" (skipWs r)); [discriminate |].
      rewrite fuelled_parsedMap. apply IHe. lia. }
    destruct (afterChar "{" (skipWs s)) as [r|] eqn:Ho.
    { apply afterChar_length in Ho.
      destruct (afterChar "}" (skipWs r)); [discriminate |].
      rewrite fuelled_parsedMap. apply IHm. lia. }
    destruct (parseLiteral (skipWs s)) as [[v r]|]; [discriminate |].
    rewrite fuelled_parsedMap. apply parseNumber_consumes.
  - cbn [parseElements]. specialize (Cv s).
    pose proof (IHv s ltac:(lia)) as Hv.
    destruct (parseValue fuel s) as [v r| | |];
      try discriminate; [|now destruct Hv].
    cbn [consumes] in Cv. pose proof (skipWs_length r) as Hr.
    destruct (afterChar "," (skipWs r)) as [r'|] eqn:Hc.
    { apply afterChar_length in Hc. rewrite fuelled_parsedMap.
      apply IHe. lia. }
    destruct (afterChar "]" (skipWs r)); discriminate.
  - cbn [parseMembers]. pose proof (skipWs_length s) as Hs.
    destruct (afterChar "034" (skipWs s)) as [r|] eqn:Hq; [|discriminate].
    apply afterChar_length in Hq.
    destruct (parseChars_consumes _ r (le_n _)) as [Hk Hf].
    destruct (parseChars r) as [k r1| | |];
      try discriminate; [|now destruct Hf].
    cbn [consumes] in Hk. pose proof (skipWs_length r1) as Hr1.
    destruct (afterChar ":" (skipWs r1)) as [r2|] eqn:Hc; [|discriminate].
    apply afterChar_length in Hc. specialize (Cv r2).
    pose proof (IHv r2 ltac:(lia)) as Hv.
    destruct (parseValue fuel r2) as [v r3| | |];
      try discriminate; [|now destruct Hv].
    cbn [consumes] in Cv. pose proof (skipWs_length r3) as Hr3.
    destruct (afterChar "," (skipWs r3)) as [r'|] eqn:Hn.
    { apply afterChar_length in Hn. rewrite fuelled_parsedMap.
      apply IHm. lia. }
    destruct (afterChar "}" (skipWs r3)); discriminate.
Qed.

(** [JSON_parse] returns a value or fails as [JSON.parse] does, whatever
    the text. *)
Lemma JSON_parse_fuelled text : fuelled (JSON_parse text).
Proof.
  unfold JSON_parse.
  pose proof (proj1 (parseValue_fuelled (2 * String.length text + 2)) text
                ltac:(lia)) as Hv.
  destruct (parseValue _ text) as [v rest| | |];
    try discriminate; [|now destruct Hv].
  destruct (skipWs rest); discriminate.
Qed.


(** ** The top log: what is saved is what is loaded *)

Lemma asEntry_entryValue e : TopLog.asEntry (TopLog.entryValue e) = Some e.
Proof. destruct e as [u [w l] [w0 l0] s t k]. reflexivity. Qed.

Lemma sanitize_entryValue e :
  finiteEntry e -> sanitize (TopLog.entryValue e) = TopLog.entryValue e.
Proof.
  destruct e as [u [w l] [w0 l0] s t k].
  intros ((Hw & Hl) & (Hw0 & Hl0) & Hs & Hk). cbn in Hw, Hl, Hw0, Hl0, Hs, Hk.
  unfold TopLog.entryValue, TopLog.statValue.
  cbn [sanitize map fst snd TopLog.win TopLog.lose TopLog.username
       TopLog.currentstat TopLog.originalstat TopLog.continuouswin
       TopLog.starttime TopLog.ticks].
  now rewrite Hw, Hl, Hw0, Hl0, Hs, Hk.
Qed.

(** The members of [logs] are read back in the order they are written. *)
Lemma asLogs_members (l : list (string * TopLog.entry)) :
  forall acc,
    TopLog.asLogs (map (fun kv => (fst kv, TopLog.entryValue (snd kv))) l) acc
    = Some (foldl (fun m kv => <[fst kv := snd kv]> m) acc l).
Proof.
  induction l as [|[k e] l IH]; intros acc; [reflexivity |].
  cbn [map TopLog.asLogs fst snd foldl]. rewrite asEntry_entryValue.
  apply IH.
Qed.

Lemma foldl_insert (l : list (string * TopLog.entry)) :
  NoDup l.*1 ->
  forall acc : gmap string TopLog.entry,
    foldl (fun m kv => <[fst kv := snd kv]> m) acc l
    = list_to_map l ∪ acc.
Proof.
  induction l as [|[k e] l IH]; intros Hnd acc.
  - cbn. now rewrite (left_id_L ∅ (∪)).
  - cbn [fmap list_fmap fst] in Hnd. apply NoDup_cons in Hnd as [Hk Hnd].
    cbn [foldl fst snd]. rewrite (IH Hnd). rewrite list_to_map_cons.
    rewrite <- insert_union_l. symmetry. apply insert_union_r.
    now apply not_elem_of_list_to_map_1.
Qed.

Lemma ofValue_toValue tops : TopLog.ofValue (TopLog.toValue tops) = Some tops.
Proof.
  destruct tops as [p t m]. unfold TopLog.ofValue, TopLog.toValue.
  cbn [TopLog.prefix TopLog.currenttop TopLog.logs].
  change (getProp "prefix" (VObj ?l)) with (Some (VStr p)).
  change (getProp "currenttop" (VObj ?l)) with (Some (VStr t)).
  match goal with
  | |- context [getProp "logs" (VObj [?a; ?b; (_, ?v)])] =>
      change (getProp "logs" (VObj [a; b; ("logs", v)])) with (Some v)
  end.
  cbn [TopLog.asString]. rewrite asLogs_members.
  rewrite foldl_insert by apply NoDup_fst_map_to_list.
  rewrite list_to_map_to_list. now rewrite (right_id_L ∅ (∪)).
Qed.

Lemma sanitize_toValue tops :
  finiteTops tops -> sanitize (TopLog.toValue tops) = TopLog.toValue tops.
Proof.
  intros Hfin. unfold TopLog.toValue. cbn [sanitize map fst snd].
  do 4 f_equal. rewrite map_map. cbn [fst snd]. do 2 f_equal.
  apply map_ext_in. intros [k e] Hin. cbn [fst snd]. f_equal.
  apply sanitize_entryValue. apply (Hfin k).
  apply elem_of_map_to_list. now apply list_elem_of_In.
Qed.

(** C9, as stated, fails for a log that holds a number that is not finite:
    [JSON.stringify] writes [null] for it and the value loaded holds [null],
    which is not a number, where the log had [NaN]. *)
Lemma saveTopLog_loses_NaN :
  exists v,
    getTopLog (saveTopLog topsWithNaN (newClient "abc")) = Returns v
    /\ getPath ["logs"; "abcal"; "currentstat"; "win"]
         (TopLog.toValue topsWithNaN) = Some (VNum NaN)
    /\ getPath ["logs"; "abcal"; "currentstat"; "win"] v = Some VNull
    /\ TopLog.ofValue v <> Some topsWithNaN.
Proof.
  eexists. split; [vm_compute; reflexivity |].
  split; [vm_compute; reflexivity |].
  split; [reflexivity |]. vm_compute. discriminate.
Qed.

(** C9, amended.  For every top log all of whose numbers are finite,
    [getTopLog] after [saveTopLog] returns the value of the log: seen as a
    [topLog] it is the log that was saved, with the same prefix, the same
    current top and the same entries; and the next update works on that log
    when its prefix is the prefix of the client. *)
Theorem saveTopLog_getTopLog tops c :
  finiteTops tops ->
  getTopLog (saveTopLog tops c) = Returns (TopLog.toValue tops)
  /\ TopLog.ofValue (TopLog.toValue tops) = Some tops
  /\ (TopLog.prefix tops = prefix c ->
      currentTopLog (saveTopLog tops c) = Returns tops).
Proof.
  intros Hfin.
  assert (Hget : getTopLog (saveTopLog tops c)
                 = Returns (TopLog.toValue tops)).
  { unfold getTopLog, saveTopLog. cbn [tops_json set_tops_json].
    now rewrite JSON_parse_stringify, sanitize_toValue. }
  split; [exact Hget |]. split; [apply ofValue_toValue |].
  intros Hprefix.
  rewrite (currentTopLog_of_value _ tops Hget (ofValue_toValue tops)).
  change (prefix (saveTopLog tops c)) with (prefix c).
  now rewrite Hprefix, String.eqb_refl.
Qed.

Lemma storedTops_finite : finiteTops storedTops.
Proof.
  intros userid e. unfold storedTops. cbn [TopLog.logs].
  rewrite lookup_insert. case_decide.
  - intros [= <-]. repeat split.
  - rewrite lookup_insert. case_decide; [| now rewrite lookup_empty].
    intros [= <-]. repeat split.
Qed.

Lemma saveTopLog_getTopLog_witness :
  finiteTops storedTops
  /\ getTopLog (saveTopLog storedTops (newClient "abc"))
     = Returns (TopLog.toValue storedTops)
  /\ TopLog.ofValue (TopLog.toValue storedTops) = Some storedTops.
Proof.
  split; [exact storedTops_finite |].
  destruct (saveTopLog_getTopLog storedTops (newClient "abc")
              storedTops_finite) as (Hget & Htyped & _).
  split; assumption.
Defined.

(** * Further properties of the code *)

(** ** Identifiers *)

(** One step of [toID]: a character is kept, lower-cased, or dropped, and
    the two characters outside ASCII whose lower case has an ASCII letter
    give that letter. *)
Lemma toID_cons c rest :
  (toID (String c rest)
   = if isIdChar (lower_ascii c) then String (lower_ascii c) (toID rest)
     else toID rest)
  \/ (exists r, c = "226"%char /\ rest = String "132" (String "170" r)
                /\ toID (String c rest) = String "k" (toID r))
  \/ (exists r, c = "196"%char /\ rest = String "176" r
                /\ toID (String c rest) = String "i" (toID r)).
Proof.
  destruct c as [[] [] [] [] [] [] [] []];
    try (left; reflexivity).
  - destruct rest as [|c2 rest]; [left; reflexivity |].
    destruct c2 as [[] [] [] [] [] [] [] []]; try (left; reflexivity).
    destruct rest as [|c3 rest]; [left; reflexivity |].
    destruct c3 as [[] [] [] [] [] [] [] []]; try (left; reflexivity).
    right; left. eexists. repeat split; reflexivity.
  - destruct rest as [|c2 rest]; [left; reflexivity |].
    destruct c2 as [[] [] [] [] [] [] [] []]; try (left; reflexivity).
    right; right. eexists. repeat split; reflexivity.
Qed.

Lemma isIdChar_fixed c :
  isIdChar c = true ->
  lower_ascii c = c /\ c <> "226"%char /\ c <> "196"%char.
Proof.
  destruct c as [[] [] [] [] [] [] [] []]; try discriminate;
    intros _; repeat split; discriminate.
Qed.

Lemma toID_isID_bounded n :
  forall s, (String.length s <= n)%nat -> isID (toID s) = true.
Proof.
  induction n as [|n IH]; intros [|c rest] Hn; cbn [String.length] in Hn;
    try reflexivity; [lia |].
  destruct (toID_cons c rest) as [-> | [(r & _ & -> & ->) | (r & _ & -> & ->)]].
  - destruct (isIdChar (lower_ascii c)) eqn:Hc.
    + cbn [isID]. rewrite Hc. apply IH. lia.
    + apply IH. lia.
  - cbn [isID String.length] in *. apply IH. lia.
  - cbn [isID String.length] in *. apply IH. lia.
Qed.

Lemma toID_of_isID s : isID s = true -> toID s = s.
Proof.
  induction s as [|c s IH]; [reflexivity |].
  cbn [isID]. intros [Hc Hs]%andb_true_iff.
  destruct (isIdChar_fixed c Hc) as (Hl & H226 & H196).
  destruct (toID_cons c s) as [-> | [(r & Heq & _) | (r & Heq & _)]];
    [| contradiction | contradiction].
  rewrite Hl, Hc, IH by exact Hs. reflexivity.
Qed.

Lemma toID_length_bounded n :
  forall s,
    (String.length s <= n)%nat ->
    (String.length (toID s) <= String.length s)%nat.
Proof.
  induction n as [|n IH]; intros [|c rest] Hn; cbn [String.length] in Hn;
    try (cbn; lia).
  destruct (toID_cons c rest) as [-> | [(r & _ & -> & ->) | (r & _ & -> & ->)]].
  - specialize (IH rest ltac:(lia)).
    destruct (isIdChar (lower_ascii c)); cbn [String.length]; lia.
  - cbn [String.length] in *. specialize (IH r ltac:(lia)). lia.
  - cbn [String.length] in *. specialize (IH r ltac:(lia)). lia.
Qed.

Lemma idChars_step c (kept dropped : string) :
  (if isIdChar (lower_ascii c) then String (lower_ascii c) kept else dropped)
  = if is_lower c || is_digit c then String c kept
    else if is_upper c then String (ascii_of_N (N_of_ascii c + 32)) kept
    else dropped.
Proof.
  unfold isIdChar, lower_ascii. destruct (is_upper c) eqn:Hu.
  - destruct c as [[] [] [] [] [] [] [] []]; try discriminate Hu; reflexivity.
  - reflexivity.
Qed.

Lemma toID_ascii s : isAscii s = true -> toID s = idChars s.
Proof.
  induction s as [|c s IH]; [reflexivity |].
  cbn [isAscii idChars]. intros [Hc Hs]%andb_true_iff.
  destruct (toID_cons c s) as [-> | [(r & -> & _) | (r & -> & _)]];
    [| discriminate Hc | discriminate Hc].
  rewrite IH by exact Hs. apply idChars_step.
Qed.

(** X1. The identifier [toID] computes has only lower-case letters and
    digits and is not longer than the text; [toID] leaves a string of
    lower-case letters and digits as it is, so that applying it twice is
    applying it once; and of a text of ASCII characters it keeps the
    letters and the digits, in order, the letters in lower case. *)
Theorem toID_normal s :
  isID (toID s) = true
  /\ (String.length (toID s) <= String.length s)%nat
  /\ (isID s = true -> toID s = s)
  /\ toID (toID s) = toID s
  /\ (isAscii s = true -> toID s = idChars s).
Proof.
  assert (H : isID (toID s) = true)
    by exact (toID_isID_bounded (String.length s) s (le_n _)).
  split; [exact H |].
  split; [exact (toID_length_bounded (String.length s) s (le_n _)) |].
  split; [apply toID_of_isID |].
  split; [now apply toID_of_isID | apply toID_ascii].
Qed.

Lemma toID_normal_witness :
  isID "abc1" = true /\ toID "abc1" = "abc1"
  /\ isAscii "ABC Al_9!" = true /\ toID "ABC Al_9!" = "abcal9".
Proof.
  split; [reflexivity |].
  split; [exact (proj1 (proj2 (proj2 (toID_normal "abc1"))) eq_refl) |].
  split; [reflexivity |].
  exact (proj2 (proj2 (proj2 (proj2 (toID_normal "ABC Al_9!")))) eq_refl).
Defined.

(** ** Fields *)

Lemma split_cons sep s : exists field fields, split sep s = field :: fields.
Proof.
  destruct s as [|c rest]; cbn [split]; [eauto |].
  destruct (Ascii.eqb c sep); [eauto |]. destruct (split sep rest); eauto.
Qed.

Lemma concat_cons sep x y l :
  String.concat sep (x :: y :: l)
  = String.append x (String.append sep (String.concat sep (y :: l))).
Proof. reflexivity. Qed.

(** X2. [s.split(sep)] cuts [s] at every separator and nowhere else: the
    fields joined by the separator are [s], no field holds a separator, and
    there is one field more than there are separators. *)
Theorem split_fields sep s :
  String.concat (String sep EmptyString) (split sep s) = s
  /\ Forall (fun field => occurs sep field = false) (split sep s)
  /\ length (split sep s) = S (occurrences sep s).
Proof.
  induction s as [|c rest (IHjoin & IHfree & IHlen)].
  - repeat split. repeat constructor.
  - cbn [split occurrences]. destruct (Ascii.eqb c sep) eqn:Hc.
    + apply Ascii.eqb_eq in Hc. subst c.
      destruct (split_cons sep rest) as (field & fields & Heq).
      rewrite Heq in *. split; [|split].
      * rewrite concat_cons, IHjoin. reflexivity.
      * constructor; [reflexivity | exact IHfree].
      * cbn [length] in *. lia.
    + destruct (split_cons sep rest) as (field & fields & Heq).
      rewrite Heq in *. split; [|split].
      * rewrite <- IHjoin. destruct fields; [reflexivity |].
        rewrite !concat_cons. reflexivity.
      * inversion IHfree as [|? ? Hfield Hfields]. subst.
        constructor; [|exact Hfields]. cbn [occurs]. now rewrite Hc, Hfield.
      * cbn [length] in *. lia.
Qed.

(** ** Numerals *)












(** ** The board read from the ladder file *)

Lemma addRow_lookup p rows :
  forall table board k,
    is_Some ((fold_left (addRow p) rows (table, board)).1 !! k)
    <-> is_Some (table !! k) \/ In k (map rowId rows).
Proof.
  induction rows as [|data rows IH]; intros table board k;
    cbn [fold_left map In]; [tauto |].
  unfold addRow at 2. fold (rowId data). rewrite IH, lookup_insert_is_Some.
  destruct (decide (rowId data = k)); intuition congruence.
Qed.

(** The rows of the ladder file, written out. *)
Lemma ladderRows_rows text :
  ladderRows text
  = List.filter (fun data => (4 <=? length data)%nat)
      (map (split "009") (split "010" text)).
Proof.
  unfold ladderRows. apply filter_ext. intros data.
  destruct (Nat.leb_spec 4 (length data)), (Z.leb_spec 4 (Z.of_nat (length data)));
    try reflexivity; lia.
Qed.

(** What the loop over the rows adds to the board. *)
Lemma addRow_board p rows :
  forall table board,
    let board' := (fold_left (addRow p) rows (table, board)).2 in
    length board' = (length board + length (List.filter (onBoard p) rows))%nat
    /\ (forall j : nat, (j < length board)%nat -> board' !! j = board !! j)
    /\ (forall (i : nat) data,
          List.filter (onBoard p) rows !! i = Some data ->
          board' !! (length board + i)%nat
          = Some {| name := nth 1 data "";
                    rank := Some (Z.of_nat (length board + i) + 1);
                    elo := Math_round (parseFloat (nth 0 data ""));
                    win := parseInt (nth 2 data "");
                    lose := parseInt (nth 3 data "") |}).
Proof.
  induction rows as [|row rows IH]; intros table board board'.
  - subst board'. cbn [fold_left List.filter length snd].
    split; [lia |]. split; [reflexivity |]. intros i data Hi. discriminate Hi.
  - subst board'. cbn [fold_left List.filter].
    pose (e := {| name := nth 1 row "";
                  rank := if onBoard p row
                          then Some (Z.of_nat (length board) + 1) else None;
                  elo := Math_round (parseFloat (nth 0 row ""));
                  win := parseInt (nth 2 row "");
                  lose := parseInt (nth 3 row "") |}).
    assert (Hstep : addRow p (table, board) row
                    = (<[rowId row := e]> table,
                       if onBoard p row then (board ++ [e])%list else board))
      by reflexivity.
    rewrite Hstep. clear Hstep. subst e.
    destruct (onBoard p row) eqn:Hon.
    + match goal with
      | |- context [fold_left _ rows (?t, ?b)] =>
          destruct (IH t b) as (Hlen & Hold & Hnew)
      end.
      rewrite length_app in Hlen, Hold, Hnew. cbn [length] in Hlen, Hold, Hnew.
      split; [cbn [length]; lia |]. split.
      * intros j Hj. rewrite Hold by lia. now apply lookup_app_l.
      * intros [|i] data Hi.
        -- injection Hi as <-. rewrite Nat.add_0_r, Hold by lia.
           rewrite lookup_app_r by lia. rewrite Nat.sub_diag. reflexivity.
        -- change ((?x :: ?l) !! S i) with (l !! i) in Hi.
           specialize (Hnew i data Hi).
           replace (length board + S i)%nat with (length board + 1 + i)%nat
             by lia.
           exact Hnew.
    + exact (IH _ board).
Qed.

(** What it leaves in the table for the last row that bears an
    identifier. *)
Lemma addRow_table p before data after :
  ~ In (rowId data) (map rowId after) ->
  forall table board,
    (fold_left (addRow p) (before ++ data :: after) (table, board)).1
      !! rowId data
    = Some {| name := nth 1 data "";
              rank := if onBoard p data
                      then Some (Z.of_nat (length board
                                           + length (List.filter (onBoard p)
                                                       before)) + 1)
                      else None;
              elo := Math_round (parseFloat (nth 0 data ""));
              win := parseInt (nth 2 data "");
              lose := parseInt (nth 3 data "") |}.
Proof.
  intros Hlast. induction before as [|row before IH]; intros table board.
  - cbn [app fold_left List.filter length].
    pose (e := {| name := nth 1 data "";
                  rank := if onBoard p data
                          then Some (Z.of_nat (length board) + 1) else None;
                  elo := Math_round (parseFloat (nth 0 data ""));
                  win := parseInt (nth 2 data "");
                  lose := parseInt (nth 3 data "") |}).
    assert (Hstep : addRow p (table, board) data
                    = (<[rowId data := e]> table,
                       if onBoard p data then (board ++ [e])%list else board))
      by reflexivity.
    rewrite Hstep. clear Hstep. subst e.
    assert (Hkeep : forall rows t b,
               ~ In (rowId data) (map rowId rows) ->
               (fold_left (addRow p) rows (t, b)).1 !! rowId data
               = t !! rowId data).
    { clear. induction rows as [|row rows IH]; intros t b Hrows;
        [reflexivity |].
      cbn [fold_left].
      destruct (addRow p (t, b) row) as [t' b'] eqn:Hstep.
      assert (Ht' : exists e, t' = <[rowId row := e]> t).
      { unfold addRow in Hstep. injection Hstep as <- _. eauto. }
      destruct Ht' as [e ->].
      cbn [map In] in Hrows. rewrite IH by tauto.
      apply lookup_insert_ne. tauto. }
    destruct (onBoard p data); rewrite Hkeep by exact Hlast;
      rewrite lookup_insert_eq, ?Nat.add_0_r; reflexivity.
  - cbn [app fold_left List.filter].
    destruct (addRow p (table, board) row) as [t' b'] eqn:Hstep.
    rewrite IH.
    assert (Hb' : length b'
                  = (length board
                     + length (if onBoard p row then [row] else []))%nat).
    { unfold addRow in Hstep. injection Hstep as _ <-.
      fold (rowId row). fold (onBoard p row).
      destruct (onBoard p row); [rewrite length_app |]; cbn [length]; lia. }
    do 2 f_equal. destruct (onBoard p data); [| reflexivity].
    do 2 f_equal. destruct (onBoard p row); cbn [length] in *; lia.
Qed.

(** X4. The board [getLeaderboard] returns when it can read the ladder
    file has one entry for every line of the file that has at least four
    fields between tabs and whose second field has an identifier that
    starts with the prefix, and no other: in the order of the file, ranked
    1, 2, ... in that order, with the second field as the name, the first
    read by [parseFloat] and rounded as the rating, and the third and the
    fourth read by [parseInt] as the wins and the losses.  The lookup table
    it leaves holds the identifiers of all the lines of at least four
    fields, on the board or not, each with the entry of the last line that
    bears it, which has a rank if and only if it is on the board. *)
Theorem getLeaderboard_board display c text :
  ladder_tsv c = Some text ->
  let rows :=
    List.filter (fun data => (4 <=? length data)%nat)
      (map (split "009") (split "010" text)) in
  let entry (data : list string) (r : option Z) :=
    {| name := nth 1 data ""; rank := r;
       elo := Math_round (parseFloat (nth 0 data ""));
       win := parseInt (nth 2 data "");
       lose := parseInt (nth 3 data "") |} in
  let board := (getLeaderboard display c).1 in
  let table := lookup (leaderboard (getLeaderboard display c).2) in
  length board = length (List.filter (onBoard (prefix c)) rows)
  /\ (forall (i : nat) data,
        List.filter (onBoard (prefix c)) rows !! i = Some data ->
        board !! i = Some (entry data (Some (Z.of_nat i + 1))))
  /\ (forall k, is_Some (table !! k) <-> In k (map rowId rows))
  /\ (forall before data after,
        rows = (before ++ data :: after)%list ->
        ~ In (rowId data) (map rowId after) ->
        table !! rowId data
        = Some (entry data
                  (if onBoard (prefix c) data
                   then Some (Z.of_nat (length (List.filter
                                                  (onBoard (prefix c))
                                                  before)) + 1)
                   else None))).
Proof.
  intros Hfile. cbv zeta. rewrite <- (ladderRows_rows text).
  set (rows := ladderRows text).
  unfold getLeaderboard. rewrite Hfile.
  pose proof (addRow_board (prefix c) rows ∅ []) as Hboard.
  pose proof (addRow_lookup (prefix c) rows ∅ []) as Hlookup.
  pose proof (fun before data after =>
                addRow_table (prefix c) before data after) as Htable.
  fold rows. destruct (fold_left _ rows _) as [table board] eqn:Hfold.
  cbv zeta in Hboard. cbn [fst snd length Nat.add] in *.
  destruct Hboard as (Hlen & _ & Hnew).
  assert (Htab : lookup (leaderboard
        (if display
         then set_lines {| them := 0; total := 0 |}
                (set_changed false
                   (set_last (Some board)
                      (report (styleLeaderboard board None
                                 (set_lookup table c))
                         (set_lookup table c))))
         else set_lookup table c)) = table) by now destruct display.
  rewrite Htab.
  split; [exact Hlen |]. split; [exact Hnew |]. split.
  - intros k. rewrite Hlookup, lookup_empty.
    split; [intros [[x Hx] | H]; [discriminate | exact H] |].
    intros H. right. exact H.
  - intros before data after Hrows Hlast.
    specialize (Htable before data after Hlast ∅ []).
    rewrite <- Hrows, Hfold in Htable. exact Htable.
Qed.

Lemma getLeaderboard_board_witness :
  let c := set_ladder_tsv (Some ladderText) (newClient "abc") in
  ladder_tsv c = Some ladderText
  /\ (getLeaderboard true c).1
     = [{| name := "ABC Bob"; rank := Some 1; elo := Num 1501;
           win := Num 3; lose := Num 1 |}]
  /\ lookup (leaderboard (getLeaderboard true c).2) !! "zed"
     = Some {| name := "Zed"; rank := None; elo := Num 1490;
               win := Num 5; lose := NaN |}.
Proof.
  intros c.
  destruct (getLeaderboard_board true c ladderText eq_refl)
    as (Hlen & Hboard & _ & Htable).
  split; [reflexivity |]. split.
  - specialize (Hboard 0%nat _ eq_refl).
    destruct (getLeaderboard true c).1 as [|e [|e' board]];
      try discriminate Hlen.
    injection Hboard as ->. reflexivity.
  - exact (Htable [["Elo"; "Username"; "W"; "L"; "T"; "Last update"];
                   ["1500.5"; "ABC Bob"; "3"; "1"; "0"; "today"]]
             ["1490.2"; "Zed"; "5"; "x"; "0"; "today"] []
             eq_refl (fun H => H)).
Defined.

(** ** The board shown *)

Lemma boardRows_lookup diffs board :
  forall i (j : nat) p,
    board !! j = Some p ->
    boardRows diffs i board !! j
    = Some {| row_arrow :=
                match map_get (idOf p) diffs with
                | Some diff => Some (JsNum.lt (d_oldrank diff) (d_newrank diff))
                | None => None
                end;
              row_rank := i + Z.of_nat j + 1;
              row_entry := p |}.
Proof.
  induction board as [|q board IH]; intros i j p Hj; [discriminate |].
  destruct j as [|j]; cbn [boardRows].
  - injection Hj as ->. change ((?x :: ?l) !! 0%nat) with (Some x).
    do 2 f_equal. lia.
  - change ((?x :: ?l) !! S j) with (l !! j) in Hj |- *.
    rewrite (IH (i + 1) j p Hj). do 2 f_equal. lia.
Qed.

Lemma boardRows_length diffs board :
  forall i, length (boardRows diffs i board) = length board.
Proof.
  induction board as [|q board IH]; intros i; cbn [boardRows length];
    [reflexivity |]. now rewrite IH.
Qed.

(** The record of an entry of the present board, when every identifier
    occurs once on each board. *)
Lemma getDiffs_current previous board (j : nat) p :
  NoDup (ids previous) -> NoDup (ids board) ->
  board !! j = Some p ->
  match map_get (idOf p) (getDiffs previous board None) with
  | Some diff => Some (JsNum.lt (d_oldrank diff) (d_newrank diff))
  | None => None
  end = arrowOf (rankIn (idOf p) previous) (Z.of_nat j + 1).
Proof.
  intros Hprev Hboard Hj. unfold getDiffs, firstN.
  rewrite (diffsOfCurrent_at previous board j p Hboard Hj 0).
  cbn zeta. unfold diffOfCurrent, arrowOf, rankIn.
  cbn [d_oldrank d_newrank]. rewrite Z.add_0_l.
  destruct (JsNum.sneq _ _) eqn:Hne; [reflexivity |].
  rewrite <- (firstn_all previous) at 1.
  rewrite diffsOfLast_same_rank; [reflexivity | exact Hprev |].
  rewrite (rankOf_position board j p Hboard Hj).
  unfold idOf. revert Hne.
  destruct (rankOf (toID (name p)) previous =? 0); intros Hne;
    [cbv [JsNum.sneq JsNum.seq negb] in Hne; discriminate |].
  
  rewrite sneq_Num in Hne. apply negb_false_iff, Z.eqb_eq in Hne. exact Hne.
Qed.

(** X5. The board [styleLeaderboard] renders (not a final one) has one row
    for each entry, in order, with the ranks 1, 2, ...  When a board was
    shown before, a row has an arrow exactly when the rank of its entry
    differs from the rank its identifier had on that board: the falling
    arrow when the old rank was the smaller, the rising arrow otherwise,
    also for an entry that was not on that board.  This is for boards on
    which every identifier occurs once. *)
Theorem styleLeaderboard_arrows board c :
  NoDup (ids board) ->
  (forall previous, last (leaderboard c) = Some previous ->
                    NoDup (ids previous)) ->
  exists rows,
    styleLeaderboard board None c = HtmlLeaderboard None rows
    /\ length rows = length board
    /\ forall (j : nat) p,
         board !! j = Some p ->
         rows !! j = Some (rowOf (last (leaderboard c)) j p).
Proof.
  intros Hboard Hprev. unfold styleLeaderboard. eexists.
  split; [reflexivity |]. split; [apply boardRows_length |].
  intros j p Hj. rewrite (boardRows_lookup _ board 0 j p Hj).
  unfold rowOf. rewrite Z.add_0_l. do 2 f_equal.
  destruct (last (leaderboard c)) as [previous|]; [|reflexivity].
  exact (getDiffs_current previous board j p (Hprev previous eq_refl) Hboard Hj).
Qed.

Lemma styleLeaderboard_arrows_witness :
  let previous := [player "A" 1500; player "B" 1400] in
  let board := [player "B" 1520; player "A" 1480; player "D" 1310] in
  let c := set_last (Some previous) (newClient "") in
  NoDup (ids board)
  /\ (forall l, last (leaderboard c) = Some l -> NoDup (ids l))
  /\ exists rows,
       styleLeaderboard board None c = HtmlLeaderboard None rows
       /\ length rows = length board
       /\ forall (j : nat) p,
            board !! j = Some p ->
            rows !! j = Some (rowOf (last (leaderboard c)) j p).
Proof.
  intros previous board c.
  assert (Hb : NoDup (ids board))
    by (apply (bool_decide_unpack _); vm_compute; exact I).
  assert (Hp : forall l, last (leaderboard c) = Some l -> NoDup (ids l))
    by (intros l [= <-]; apply (bool_decide_unpack _); vm_compute; exact I).
  split; [exact Hb |]. split; [exact Hp |].
  exact (styleLeaderboard_arrows board c Hb Hp).
Defined.

(** ** Reading the ladder again *)

(** A board has no diff with itself. *)
Lemma getDiffs_same board id :
  NoDup (ids board) -> map_get id (getDiffs board board None) = None.
Proof.
  intros Hboard.
  pose proof (getDiffs_window_iff board board (length board) id Hboard Hboard)
    as Hiff.
  rewrite firstn_all in Hiff. unfold getDiffs, firstN.
  destruct (map_get id _) as [d|]; [|reflexivity].
  exfalso. now apply (proj1 Hiff (ex_intro _ d eq_refl)).
Qed.

Lemma boardRows_plain diffs board :
  (forall id, map_get id diffs = None) ->
  forall i,
    Forall (fun r => row_arrow r = None) (boardRows diffs i board)
    /\ map row_entry (boardRows diffs i board) = board.
Proof.
  intros Hdiffs. induction board as [|p board IH]; intros i;
    cbn [boardRows map]; [split; [constructor | reflexivity] |].
  destruct (IH (i + 1)) as [Harrows Hentries]. split.
  - constructor; [cbn [row_arrow]; now rewrite Hdiffs | exact Harrows].
  - cbn [row_entry]. now rewrite Hentries.
Qed.

Lemma getLeaderboard_keeps display c :
  prefix (getLeaderboard display c).2 = prefix c
  /\ ladder_tsv (getLeaderboard display c).2 = ladder_tsv c.
Proof.
  unfold getLeaderboard. destruct (ladder_tsv c) as [text|] eqn:Hfile.
  - destruct (fold_left _ _ _) as [table board].
    destruct display; split; (reflexivity || exact Hfile).
  - destruct display; split; (reflexivity || exact Hfile).
Qed.

(** X6. While the ladder file stays as it is, [getLeaderboard] returns the
    same board at every call, displayed or not; and a board displayed a
    second time, on which every identifier occurs once, is shown with no
    arrow on any row. *)
Theorem getLeaderboard_again display c text :
  ladder_tsv c = Some text ->
  NoDup (ids (getLeaderboard true c).1) ->
  (getLeaderboard display (getLeaderboard true c).2).1
  = (getLeaderboard true c).1
  /\ exists rows,
       outbox (getLeaderboard true (getLeaderboard true c).2).2
       = (outbox (getLeaderboard true c).2 ++ [HtmlLeaderboard None rows])%list
       /\ Forall (fun r => row_arrow r = None) rows
       /\ map row_entry rows = (getLeaderboard true c).1.
Proof.
  intros Hfile Hboard.
  destruct (getLeaderboard_keeps true c) as [Hprefix Htsv].
  rewrite Hfile in Htsv.
  assert (Hlast : last (leaderboard (getLeaderboard true c).2)
                  = Some (getLeaderboard true c).1).
  { unfold getLeaderboard. rewrite Hfile.
    now destruct (fold_left _ _ _) as [table board]. }
  assert (Hfst : forall d c',
             prefix c' = prefix c -> ladder_tsv c' = Some text ->
             (getLeaderboard d c').1 = (getLeaderboard true c).1).
  { intros d c' Hp Ht. unfold getLeaderboard. rewrite Ht, Hp, Hfile.
    destruct (fold_left _ _ _) as [table board]. now destruct d. }
  split; [now apply Hfst |].
  pose proof (Hfst true _ Hprefix Htsv) as Hsame.
  revert Hboard Hlast Hsame.
  generalize (getLeaderboard true c).1 as board.
  revert Hprefix Htsv. generalize (getLeaderboard true c).2 as c1.
  intros c1 Hprefix Htsv board Hboard Hlast.
  unfold getLeaderboard. rewrite Htsv.
  destruct (fold_left _ _ _) as [table board']. cbn [fst snd].
  intros ->. eexists. split; [reflexivity |].
  unfold styleLeaderboard.
  change (last (leaderboard (set_lookup table c1)))
    with (last (leaderboard c1)).
  rewrite Hlast. apply boardRows_plain. intros id.
  now apply getDiffs_same.
Qed.

Lemma getLeaderboard_again_witness :
  let c := set_ladder_tsv (Some ladderText) (newClient "abc") in
  ladder_tsv c = Some ladderText
  /\ NoDup (ids (getLeaderboard true c).1)
  /\ (getLeaderboard false (getLeaderboard true c).2).1
     = (getLeaderboard true c).1.
Proof.
  intros c.
  assert (Hb : NoDup (ids (getLeaderboard true c).1))
    by (apply (bool_decide_unpack _); vm_compute; exact I).
  split; [reflexivity |]. split; [exact Hb |].
  exact (proj1 (getLeaderboard_again false c ladderText eq_refl Hb)).
Defined.

(** ** The order of the changes reported *)








(** ** What tracking changes leaves alone *)

Lemma set_changed_outbox_same c :
  set_outbox (outbox c ++ []) (set_changed (changed c) c) = c.
Proof. destruct c. cbn. now rewrite app_nil_r. Qed.

Lemma marked_after_records n l :
  forall c,
    fold_left (fun c d => if setsChanged n d then set_changed true c else c)
              l c
    = set_changed (changed c || existsb (setsChanged n) l) c.
Proof.
  induction l as [|d l IH]; intros c; cbn [fold_left existsb].
  - rewrite orb_false_r. now destruct c.
  - rewrite IH. destruct (setsChanged n d); cbn [orb changed set_changed].
    + now rewrite orb_true_r.
    + reflexivity.
Qed.

(** X8. [trackChanges] touches nothing of the client but the mark
    [changed] and the messages sent: the mark is only ever set, never
    cleared, and at most one message is sent, the list of changes, and
    only when the changes are to be displayed. *)
Theorem trackChanges_frame board display c :
  exists flag messages,
    trackChanges board display c
    = set_outbox (outbox c ++ messages) (set_changed flag c)
    /\ (changed c = true -> flag = true)
    /\ (messages = []
        \/ display = true /\ exists items, messages = [RankChanges items]).
Proof.
  assert (Hsame : exists flag messages,
             c = set_outbox (outbox c ++ messages) (set_changed flag c)
             /\ (changed c = true -> flag = true)
             /\ (messages = []
                 \/ display = true
                    /\ exists items, messages = [RankChanges items])).
  { exists (changed c), []. split; [now rewrite set_changed_outbox_same |].
    split; [trivial | now left]. }
  unfold trackChanges.
  destruct (current (leaderboard c)) as [previous|]; [|exact Hsame].
  destruct (config_cutoff c) as [n|]; [|exact Hsame].
  destruct (n =? 0); [exact Hsame |].
  destruct (map_size _ =? 0); [exact Hsame |].
  rewrite marked_after_records.
  set (sorted := sortByNewrank _).
  exists (changed c || existsb (setsChanged n) sorted).
  destruct display.
  - exists [RankChanges (map (changeMessage n) sorted)].
    split; [reflexivity |]. split; [now intros -> |].
    right. eauto.
  - exists []. split; [|split; [now intros -> | now left]].
    destruct c. cbn. now rewrite app_nil_r.
Qed.

Lemma map_get_none_nil {V} (m : JsMap V) :
  (forall k, map_get k m = None) -> m = [].
Proof.
  destruct m as [|[k v] m]; [reflexivity |]. intros H. specialize (H k).
  cbn [map_get] in H. now rewrite String.eqb_refl in H.
Qed.

Lemma getDiffs_same_window board num :
  NoDup (ids board) -> getDiffs board board num = [].
Proof.
  intros Hboard. apply map_get_none_nil. intros id.
  destruct (firstN_is_take num board) as (k & Hk).
  pose proof (getDiffs_window_iff board board k id Hboard Hboard) as Hiff.
  unfold getDiffs. rewrite Hk.
  destruct (map_get id _) as [d|]; [|reflexivity].
  exfalso. now apply (proj1 Hiff (ex_intro _ d eq_refl)).
Qed.

(** X9. A board that is the snapshot the client holds, with every
    identifier once, is no change: [trackChanges] leaves the client as it
    is, mark and messages included, whatever the cutoff. *)
Theorem trackChanges_same_board display c previous :
  current (leaderboard c) = Some previous ->
  NoDup (ids previous) ->
  trackChanges previous display c = c.
Proof.
  intros Hcur Hprev. unfold trackChanges. rewrite Hcur.
  destruct (config_cutoff c) as [n|]; [|reflexivity].
  destruct (n =? 0); [reflexivity |].
  now rewrite getDiffs_same_window.
Qed.

Lemma trackChanges_same_board_witness :
  let previous := [player "A" 1500; player "B" 1400; player "C" 1300] in
  current (leaderboard (trackingClient 2 previous)) = Some previous
  /\ NoDup (ids previous)
  /\ trackChanges previous true (trackingClient 2 previous)
     = trackingClient 2 previous.
Proof.
  intros previous.
  assert (Hp : NoDup (ids previous))
    by (apply (bool_decide_unpack _); vm_compute; exact I).
  split; [reflexivity |]. split; [exact Hp |].
  exact (trackChanges_same_board true (trackingClient 2 previous) previous
           eq_refl Hp).
Defined.

(** ** How far ahead the next time of day is *)

Lemma nextTimeOfDay_ahead tz configured now h m :
  timeOfDay configured = Some (h, m) ->
  Z.abs now <= 8640000000000000 - 2 * msPerDay ->
  exists t,
    nextTimeOfDay tz configured now = Some t
    /\ now <= t < now + msPerDay
    /\ (t - now) mod msPerSecond = 0
    /\ (t = now <-> atTimeOfDay tz now h m = true).
Proof.
  intros Hcfg Hnow.
  rewrite (nextTimeOfDay_value tz configured now h m Hcfg Hnow).
  destruct (timeOfDay_range _ _ _ Hcfg) as [Hh Hm].
  eexists. split; [reflexivity |].
  unfold atTimeOfDay. rewrite Z.eqb_eq.
  unfold secondOfDay, TimeWithinDay, MakeDate, MakeTime, Day, msFromTime,
    msPerDay, msPerHour, msPerMinute, msPerSecond.
  destruct (Z.ltb_spec (3600 * h + 60 * m)
              (((now + tz) mod 86400000) / 1000));
    repeat split; Z.div_mod_to_equations; lia.
Qed.

(** X10. The next open time and the next close time are never in the
    past: they are the clock reading or later, a whole number of seconds
    from it, and they are the clock reading itself exactly during the
    second [h:m:00] of the configured time of day. *)
Theorem nextTime_ahead c now h m :
  Z.abs now <= 8640000000000000 - 2 * msPerDay ->
  (timeOfDay (config_open c) = Some (h, m) ->
   exists t,
     getNextOpenTime now c = Some t
     /\ now <= t
     /\ (t - now) mod msPerSecond = 0
     /\ (t = now <-> atTimeOfDay (timezone c) now h m = true))
  /\ (timeOfDay (config_close c) = Some (h, m) ->
      exists t,
        getNextCloseTime now c = Some t
        /\ now <= t
        /\ (t - now) mod msPerSecond = 0
        /\ (t = now <-> atTimeOfDay (timezone c) now h m = true)).
Proof.
  intros Hnow. split; intros Hcfg.
  - destruct (nextTimeOfDay_ahead (timezone c) _ now h m Hcfg Hnow)
      as (t & Ht & Hahead & Hsec & Hat).
    exists t. repeat split; try assumption; try apply Hat; lia.
  - destruct (nextTimeOfDay_ahead (timezone c) _ now h m Hcfg Hnow)
      as (t & Ht & Hahead & Hsec & Hat).
    exists t. repeat split; try assumption; try apply Hat; lia.
Qed.

Lemma nextTime_ahead_witness :
  Z.abs exampleNow <= 8640000000000000 - 2 * msPerDay
  /\ timeOfDay (config_open (newClient "abc")) = Some (6, 0)
  /\ exists t,
       getNextOpenTime exampleNow (newClient "abc") = Some t
       /\ exampleNow <= t
       /\ (t - exampleNow) mod msPerSecond = 0
       /\ (t = exampleNow <-> atTimeOfDay 0 exampleNow 6 0 = true).
Proof.
  assert (Hnow : Z.abs exampleNow <= 8640000000000000 - 2 * msPerDay)
    by (vm_compute; discriminate).
  split; [exact Hnow |]. split; [reflexivity |].
  exact (proj1 (nextTime_ahead (newClient "abc") exampleNow 6 0 Hnow)
           eq_refl).
Defined.

(** ** The watchers *)

Lemma watcher_waits tz configured now h m {A} (go : A) :
  timeOfDay configured = Some (h, m) ->
  Z.abs now <= 8640000000000000 - 2 * msPerDay ->
  (if JsNum.lt (Num now) (valueOf (nextTimeOfDay tz configured now))
   then None else Some go)
  = if atTimeOfDay tz now h m then Some go else None.
Proof.
  intros Hcfg Hnow.
  destruct (nextTimeOfDay_ahead tz configured now h m Hcfg Hnow)
    as (t & -> & Hahead & _ & Hat).
  cbn [valueOf JsNum.lt].
  destruct (Z.ltb_spec now t) as [Hlt|Hge];
    destruct (atTimeOfDay tz now h m); try reflexivity.
  - exfalso. assert (t = now) by now apply Hat. lia.
  - exfalso. assert (Heq : t = now) by lia. apply Hat in Heq. discriminate.
Qed.

(** X11. A watcher of the scheduler lets the tick pass until the local
    time is in the second [h:m:00] of the configured time of day, whatever
    the milliseconds; in that second the open watcher opens the ladder and
    the close watcher closes it, with the decay. *)
Theorem watchers_wait c now h m :
  Z.abs now <= 8640000000000000 - 2 * msPerDay ->
  (timeOfDay (config_open c) = Some (h, m) ->
   openLadderWatcher now c
   = if atTimeOfDay (timezone c) now h m then Some (openLadder now c)
     else None)
  /\ (timeOfDay (config_close c) = Some (h, m) ->
      closeLadderWatcher now c
      = if atTimeOfDay (timezone c) now h m
        then Some (closeLadder true now c) else None).
Proof.
  intros Hnow. split; intros Hcfg.
  - exact (watcher_waits (timezone c) _ now h m _ Hcfg Hnow).
  - exact (watcher_waits (timezone c) _ now h m _ Hcfg Hnow).
Qed.

Lemma watchers_wait_witness :
  Z.abs (localTime 0 20759 6 0 + 345)
  <= 8640000000000000 - 2 * msPerDay
  /\ timeOfDay (config_open (newClient "abc")) = Some (6, 0)
  /\ openLadderWatcher (localTime 0 20759 6 0 + 345) (newClient "abc")
     = Some (openLadder (localTime 0 20759 6 0 + 345) (newClient "abc"))
  /\ openLadderWatcher (localTime 0 20759 6 0 - 1) (newClient "abc") = None.
Proof.
  assert (Hnow : Z.abs (localTime 0 20759 6 0 + 345)
                 <= 8640000000000000 - 2 * msPerDay)
    by (vm_compute; discriminate).
  split; [exact Hnow |]. split; [reflexivity |].
  split; [|reflexivity].
  exact (proj1 (watchers_wait (newClient "abc") _ 6 0 Hnow) eq_refl).
Defined.

(** X12. With a configured time of day whose hour [parseInt] does not
    read as a number, the next time is an invalid date, the comparison
    with it is false, and the watcher never waits: it opens, or closes,
    the ladder at once, whatever the clock reading. *)
Theorem watchers_do_not_wait c now :
  (parseInt_opt (split ":" (config_open c) !! 0%nat) = NaN ->
   getNextOpenTime now c = None
   /\ openLadderWatcher now c = Some (openLadder now c))
  /\ (parseInt_opt (split ":" (config_close c) !! 0%nat) = NaN ->
      getNextCloseTime now c = None
      /\ closeLadderWatcher now c = Some (closeLadder true now c)).
Proof.
  assert (H : forall tz configured,
             parseInt_opt (split ":" configured !! 0%nat) = NaN ->
             nextTimeOfDay tz configured now = None).
  { intros tz configured Hhours. unfold nextTimeOfDay. now rewrite Hhours. }
  split; intros Hhours.
  - unfold openLadderWatcher, getNextOpenTime.
    now rewrite (H (timezone c) _ Hhours).
  - unfold closeLadderWatcher, getNextCloseTime.
    now rewrite (H (timezone c) _ Hhours).
Qed.

Lemma watchers_do_not_wait_witness :
  parseInt_opt
    (split ":" (config_open (scheduledClient "soon" "22:00")) !! 0%nat) = NaN
  /\ openLadderWatcher exampleNow (scheduledClient "soon" "22:00")
     = Some (openLadder exampleNow (scheduledClient "soon" "22:00")).
Proof.
  split; [reflexivity |].
  exact (proj2 (proj1 (watchers_do_not_wait
                         (scheduledClient "soon" "22:00") exampleNow)
                  eq_refl)).
Defined.

(** ** Setting the deadline *)

Lemma setDeadline_valid t now c :
  t <> 0 ->
  setDeadline (Some t) now c
  = let c1 := set_final (Some {| callback := FinalCapture;
                                 delay := Num (t - now - 500) |})
                (set_deadline (Some t) c) in
    if looping c then c1
    else set_looping true
           (if JsNum.lt (valueOf (getNextOpenTime now c))
                        (valueOf (getNextCloseTime now c))
            then closeLadder false now c1 else openLadder now c1).
Proof.
  intros Ht. unfold setDeadline.
  destruct (Z.eqb_spec t 0); [contradiction |]. reflexivity.
Qed.

(** X13. [setDeadline] starts the loop of the scheduler once.  A client
    whose loop does not run is given the deadline and its final timer, one
    message is sent, the ladder being opened or closed, never a decay, and
    the loop is marked as running.  Any later [setDeadline] only replaces
    the deadline and the final timer: it sends nothing, arms no watcher and
    leaves the ladder as it is.  An invalid date, and the epoch itself,
    change nothing. *)
Theorem setDeadline_once t1 t2 now1 now2 c :
  t1 <> 0 -> t2 <> 0 -> looping c = false ->
  let c1 := setDeadline (Some t1) now1 c in
  looping c1 = true
  /\ deadline c1 = Some t1
  /\ final c1 = Some {| callback := FinalCapture;
                        delay := Num (t1 - now1 - 500) |}
  /\ outbox c1
     = (outbox c ++ [if ladderopen c1 then LadderTourOpen (format c)
                     else LadderTourClose (format c)])%list
  /\ setDeadline (Some t2) now2 c1
     = set_final (Some {| callback := FinalCapture;
                          delay := Num (t2 - now2 - 500) |})
         (set_deadline (Some t2) c1)
  /\ setDeadline None now2 c1 = c1
  /\ setDeadline (Some 0) now2 c1 = c1.
Proof.
  intros Ht1 Ht2 Hloop c1.
  assert (Hc1 : looping c1 = true
                /\ deadline c1 = Some t1
                /\ final c1 = Some {| callback := FinalCapture;
                                      delay := Num (t1 - now1 - 500) |}
                /\ outbox c1
                   = (outbox c ++ [if ladderopen c1
                                   then LadderTourOpen (format c)
                                   else LadderTourClose (format c)])%list).
  { subst c1. rewrite (setDeadline_valid t1 now1 c Ht1). cbn zeta.
    rewrite Hloop.
    destruct (JsNum.lt _ _); [repeat split |].
    unfold openLadder. destruct (JsNum.ge _ _); repeat split. }
  destruct Hc1 as (Hl & Hd & Hf & Ho).
  repeat split; try assumption.
  rewrite (setDeadline_valid t2 now2 c1 Ht2). cbn zeta. now rewrite Hl.
Qed.

Lemma setDeadline_once_witness :
  1800000000000 <> 0 /\ 1900000000000 <> 0
  /\ looping (newClient "abc") = false
  /\ looping (setDeadline (Some 1800000000000) exampleNow (newClient "abc"))
     = true
  /\ setDeadline (Some 1900000000000) (exampleNow + 5)
       (setDeadline (Some 1800000000000) exampleNow (newClient "abc"))
     = set_final (Some {| callback := FinalCapture;
                          delay := Num (1900000000000 - (exampleNow + 5)
                                        - 500) |})
         (set_deadline (Some 1900000000000)
            (setDeadline (Some 1800000000000) exampleNow (newClient "abc"))).
Proof.
  pose proof (setDeadline_once 1800000000000 1900000000000 exampleNow
                (exampleNow + 5) (newClient "abc")
                ltac:(discriminate) ltac:(discriminate) eq_refl)
    as (Hl & _ & _ & _ & Hagain & _).
  split; [discriminate |]. split; [discriminate |]. split; [reflexivity |].
  split; [exact Hl | exact Hagain].
Defined.

(** X14. A deadline that has passed already, set on a client whose loop
    does not run and whose next close time is not after its next open time:
    the ladder is opened, no watcher is armed because the deadline has
    passed, and the loop is marked as running all the same.  No later
    [setDeadline] arms a watcher either, so the ladder stays open. *)
Theorem setDeadline_past t now c :
  t <> 0 -> t <= now -> looping c = false ->
  JsNum.lt (valueOf (getNextOpenTime now c))
           (valueOf (getNextCloseTime now c)) = false ->
  let c1 := setDeadline (Some t) now c in
  looping c1 = true /\ ladderopen c1 = true /\ timers c1 = timers c
  /\ forall t' now',
       t' <> 0 ->
       timers (setDeadline (Some t') now' c1) = timers c
       /\ ladderopen (setDeadline (Some t') now' c1) = true.
Proof.
  intros Ht Hpast Hloop Horder c1.
  assert (Hc1 : looping c1 = true /\ ladderopen c1 = true
                /\ timers c1 = timers c).
  { subst c1. rewrite (setDeadline_valid t now c Ht). cbn zeta.
    rewrite Hloop.
    change (getNextOpenTime now (set_final ?f (set_deadline ?d c)))
      with (getNextOpenTime now c) in *.
    rewrite Horder. unfold openLadder.
    cbn [deadlineValue deadline set_final set_deadline report set_outbox
         set_ladderopen JsNum.ge JsNum.le].
    destruct (Z.leb_spec t now); [repeat split | lia]. }
  destruct Hc1 as (Hl & Ho & Htimers). repeat split; try assumption.
  - rewrite (setDeadline_valid t' now' c1 H). cbn zeta. rewrite Hl.
    exact Htimers.
  - rewrite (setDeadline_valid t' now' c1 H). cbn zeta. rewrite Hl.
    exact Ho.
Qed.

Lemma setDeadline_past_witness :
  1700000000000 <> 0 /\ 1700000000000 <= localTime 0 20759 12 0
  /\ looping (newClient "abc") = false
  /\ JsNum.lt (valueOf (getNextOpenTime (localTime 0 20759 12 0)
                          (newClient "abc")))
              (valueOf (getNextCloseTime (localTime 0 20759 12 0)
                          (newClient "abc"))) = false
  /\ timers (setDeadline (Some 1700000000000) (localTime 0 20759 12 0)
               (newClient "abc")) = []
  /\ looping (setDeadline (Some 1700000000000) (localTime 0 20759 12 0)
                (newClient "abc")) = true.
Proof.
  pose proof (setDeadline_past 1700000000000 (localTime 0 20759 12 0)
                (newClient "abc") ltac:(discriminate)
                ltac:(vm_compute; discriminate) eq_refl eq_refl)
    as (Hl & _ & Ht & _).
  split; [discriminate |]. split; [vm_compute; discriminate |].
  split; [reflexivity |]. split; [reflexivity |].
  split; [exact Ht | exact Hl].
Defined.

(** ** The top log: what every update keeps *)

(** The log an update works on bears the prefix of the client. *)
Lemma currentTopLog_prefix c tops :
  currentTopLog c = Returns tops -> TopLog.prefix tops = prefix c.
Proof.
  unfold currentTopLog.
  destruct (getTopLog c) as [v| |]; try discriminate.
  assert (Hnew : Returns (newTopLog c) = Returns tops ->
                 TopLog.prefix tops = prefix c) by now intros [= <-].
  destruct v as [|b|n|s|elements|members]; try discriminate; try exact Hnew.
  destruct (getProp "prefix" (VObj members)) as [[| | |p| |]|] eqn:Hp;
    try exact Hnew.
  destruct (String.eqb_spec p (prefix c)) as [->|]; [|exact Hnew].
    unfold TopLog.ofValue. rewrite Hp. cbn [TopLog.asString].
    destruct (TopLog.asString _) as [t|]; [|discriminate].
    destruct (getProp "logs" _) as [[| | | | |logs]|]; try discriminate.
    destruct (TopLog.asLogs logs ∅); [|discriminate].
    now intros [= <-].
Qed.

Lemma currentTopLog_saved tops c :
  finiteTops tops -> TopLog.prefix tops = prefix c ->
  currentTopLog (saveTopLog tops c) = Returns tops.
Proof.
  intros Hfin Hprefix.
  assert (Hget : getTopLog (saveTopLog tops c)
                 = Returns (TopLog.toValue tops)).
  { unfold getTopLog, saveTopLog. cbn [tops_json set_tops_json].
    now rewrite JSON_parse_stringify, sanitize_toValue. }
  rewrite (currentTopLog_of_value _ tops Hget (ofValue_toValue tops)).
  change (prefix (saveTopLog tops c)) with (prefix c).
  now rewrite Hprefix, String.eqb_refl.
Qed.

(** What an update that returns leaves in the log. *)
Lemma updateTops_post username win lose date c tops tops' :
  updateTops username win lose date c tops = Returns tops' ->
  TopLog.prefix tops' = TopLog.prefix tops
  /\ TopLog.currenttop tops' = toID username
  /\ exists e',
       TopLog.logs tops' = <[toID username := e']> (TopLog.logs tops)
       /\ TopLog.currentstat e'
          = {| TopLog.win := win; TopLog.lose := lose |}
       /\ (finiteTops tops -> JsNum.finite win = true ->
           JsNum.finite lose = true -> finiteEntry e').
Proof.
  unfold updateTops.
  destruct (String.eqb_spec (toID username) (TopLog.currenttop tops))
    as [Htop|Htop].
  - destruct (TopLog.logs tops !! toID username) as [e|] eqn:He;
      [|discriminate].
    intros [= <-]. cbn [TopLog.prefix TopLog.currenttop TopLog.logs].
    repeat split; [now symmetry |]. eexists. split; [reflexivity |].
    split; [reflexivity |]. intros Hfin Hw Hl.
    destruct (Hfin _ _ He) as ((Hcw & Hcl) & Horig & Hstreak & Hticks).
    unfold finiteEntry, finiteStat, retainTop.
    cbn [TopLog.currentstat TopLog.originalstat TopLog.continuouswin
         TopLog.ticks TopLog.win TopLog.lose].
    repeat split; try assumption; try apply Horig.
    + destruct (JsNum.gt _ _); [reflexivity |].
      destruct (TopLog.continuouswin e), win,
        (TopLog.win (TopLog.currentstat e)); try discriminate; reflexivity.
    + destruct (ladderopen c); [|assumption].
      destruct (TopLog.ticks e); try discriminate; reflexivity.
  - intros [= <-]. cbn [TopLog.prefix TopLog.currenttop TopLog.logs].
    repeat split. eexists. split; [reflexivity |]. split; [reflexivity |].
    intros _ Hw Hl. repeat split; assumption.
Qed.

Lemma finiteTops_insert tops tops' userid e :
  finiteTops tops -> finiteEntry e ->
  TopLog.logs tops' = <[userid := e]> (TopLog.logs tops) ->
  finiteTops tops'.
Proof.
  intros Hfin He Hlogs k e'. rewrite Hlogs.
  destruct (decide (userid = k)) as [->|Hne].
  - rewrite lookup_insert_eq. now intros [= <-].
  - rewrite lookup_insert_ne by exact Hne. apply Hfin.
Qed.

(** X15. An update fails as reading the file of the top log fails, and
    throws a [TypeError] when the file holds [null]; nothing is saved then.
    When it has a log to work on (the one the file holds under the prefix
    of the client, or a new one when there is no file or the file is kept
    under another prefix), it throws a [TypeError] in one case only: the
    incoming top has the identifier the log records as the current top,
    and the log has no entry for it.  In every other case it returns, and
    the log it saves bears the prefix of the client, records the incoming
    top as the current top and holds an entry for it, with the incoming
    statistics; the entries of the other entrants are the ones it had. *)
Theorem updateTopLog_returns username win lose date c :
  (forall e, getTopLog c = Throws e ->
             updateTopLog username win lose date c = Throws e)
  /\ (getTopLog c = Returns VNull ->
      updateTopLog username win lose date c = Throws JsTypeError)
  /\ (forall tops,
        currentTopLog c = Returns tops ->
        (TopLog.currenttop tops = toID username
         /\ TopLog.logs tops !! toID username = None ->
         updateTopLog username win lose date c = Throws JsTypeError)
        /\ (~ (TopLog.currenttop tops = toID username
               /\ TopLog.logs tops !! toID username = None) ->
            exists tops' e',
              updateTopLog username win lose date c
              = Returns (saveTopLog tops' c)
              /\ TopLog.prefix tops' = prefix c
              /\ TopLog.currenttop tops' = toID username
              /\ TopLog.logs tops'
                 = <[toID username := e']> (TopLog.logs tops)
              /\ TopLog.currentstat e'
                 = {| TopLog.win := win; TopLog.lose := lose |})).
Proof.
  split; [| split].
  - intros e Hget. unfold updateTopLog, currentTopLog. now rewrite Hget.
  - intros Hget. unfold updateTopLog, currentTopLog. now rewrite Hget.
  - intros tops Hload. rewrite (updateTopLog_unfold _ _ _ _ _ _ Hload).
    split.
    + intros [Htop Hnone]. unfold updateTops.
      now rewrite <- Htop, String.eqb_refl, Htop, Hnone.
    + intros Hok.
      destruct (updateTops username win lose date c tops)
        as [tops'|e|] eqn:Hupd.
      * destruct (updateTops_post _ _ _ _ _ _ _ Hupd)
          as (Hp & Ht & e' & Hlogs & Hstat & _).
        exists tops', e'. rewrite Hp, (currentTopLog_prefix c tops Hload).
        repeat split; assumption.
      * exfalso. apply Hok. revert Hupd. unfold updateTops.
        destruct (String.eqb_spec (toID username) (TopLog.currenttop tops));
          [|discriminate].
        destruct (TopLog.logs tops !! toID username); [discriminate |].
        now split.
      * exfalso. revert Hupd. unfold updateTops.
        destruct (String.eqb _ _); [|discriminate].
        destruct (TopLog.logs tops !! toID username); discriminate.
Qed.

Lemma updateTopLog_returns_witness :
  currentTopLog (newClient "abc") = Returns (newTopLog (newClient "abc"))
  /\ updateTopLog "???" (Num 1) (Num 0) exampleNow (newClient "abc")
     = Throws JsTypeError
  /\ getTopLog (set_tops_json (Contents "null") (newClient "abc"))
     = Returns VNull
  /\ updateTopLog "ABC Al" (Num 1) (Num 0) exampleNow
       (set_tops_json (Contents "null") (newClient "abc"))
     = Throws JsTypeError.
Proof.
  split; [reflexivity |]. split.
  - apply (proj1 (proj2 (proj2 (updateTopLog_returns "???" (Num 1) (Num 0)
                                  exampleNow (newClient "abc")))
                    (newTopLog (newClient "abc")) eq_refl)).
    split; reflexivity.
  - split; [reflexivity |].
    exact (proj1 (proj2 (updateTopLog_returns "ABC Al" (Num 1) (Num 0)
                           exampleNow
                           (set_tops_json (Contents "null")
                              (newClient "abc"))))
             eq_refl).
Defined.

(** X16. A top log kept under another prefix is dropped at the next
    update: when [tops.json] holds a value that is not [null] and whose
    prefix is not the prefix of the client (or is no string, or is not
    there), the update starts from a new log, and what it saves has the
    incoming top as its only entry, whatever entries the file held. *)
Theorem updateTopLog_other_prefix username win lose date c v :
  getTopLog c = Returns v ->
  v <> VNull ->
  getProp "prefix" v <> Some (VStr (prefix c)) ->
  toID username <> "" ->
  updateTopLog username win lose date c
  = Returns (saveTopLog
               {| TopLog.prefix := prefix c;
                  TopLog.currenttop := toID username;
                  TopLog.logs :=
                    {[ toID username :=
                         newTop username win lose
                           (formatDateTime (timezone c) date) ]} |} c).
Proof.
  intros Hget Hnull Hprefix Hid.
  assert (Hload : currentTopLog c = Returns (newTopLog c)).
  { unfold currentTopLog. rewrite Hget.
    destruct v as [|b|n|s|l|members]; try reflexivity; [contradiction |].
    destruct (getProp "prefix" (VObj members)) as [[| | |p| |]|];
      try reflexivity.
    destruct (String.eqb_spec p (prefix c)) as [->|]; [|reflexivity].
    now contradiction Hprefix. }
  rewrite (updateTopLog_switch _ _ _ _ _ _ Hload).
  - cbn [newTopLog TopLog.prefix TopLog.logs]. now rewrite insert_empty.
  - cbn [newTopLog TopLog.currenttop]. congruence.
Qed.

Lemma updateTopLog_other_prefix_witness :
  getTopLog (set_prefix "xyz" clientWithTops)
  = Returns (TopLog.toValue storedTops)
  /\ TopLog.toValue storedTops <> VNull
  /\ getProp "prefix" (TopLog.toValue storedTops)
     <> Some (VStr (prefix (set_prefix "xyz" clientWithTops)))
  /\ toID "XYZ Cy" <> ""
  /\ updateTopLog "XYZ Cy" (Num 7) (Num 0) exampleNow
       (set_prefix "xyz" clientWithTops)
     = Returns (saveTopLog
                  {| TopLog.prefix := "xyz";
                     TopLog.currenttop := "xyzcy";
                     TopLog.logs :=
                       {[ "xyzcy" := newTop "XYZ Cy" (Num 7) (Num 0)
                                       "2026-10-02 23:05" ]} |}
                  (set_prefix "xyz" clientWithTops)).
Proof.
  assert (Hget : getTopLog (set_prefix "xyz" clientWithTops)
                 = Returns (TopLog.toValue storedTops)).
  { unfold getTopLog, clientWithTops, saveTopLog.
    cbn [tops_json set_tops_json set_prefix].
    now rewrite JSON_parse_stringify,
      (sanitize_toValue storedTops storedTops_finite). }
  assert (Hnull : TopLog.toValue storedTops <> VNull) by discriminate.
  assert (Hp : getProp "prefix" (TopLog.toValue storedTops)
               <> Some (VStr (prefix (set_prefix "xyz" clientWithTops))))
    by discriminate.
  assert (Hid : toID "XYZ Cy" <> "") by discriminate.
  split; [exact Hget |]. split; [exact Hnull |]. split; [exact Hp |].
  split; [exact Hid |].
  exact (updateTopLog_other_prefix "XYZ Cy" (Num 7) (Num 0) exampleNow
           (set_prefix "xyz" clientWithTops) _ Hget Hnull Hp Hid).
Defined.

(** X17. Updates go on: after an update that returned, on a log whose
    numbers are finite and with finite statistics, the file holds the log
    that update left, and the next update, for any entrant, returns too.
    The current top the file records then always has an entry. *)
Theorem updateTopLog_again u1 w1 l1 d1 u2 w2 l2 d2 c c1 tops :
  currentTopLog c = Returns tops ->
  finiteTops tops ->
  JsNum.finite w1 = true -> JsNum.finite l1 = true ->
  updateTopLog u1 w1 l1 d1 c = Returns c1 ->
  exists tops1,
    updateTops u1 w1 l1 d1 c tops = Returns tops1
    /\ c1 = saveTopLog tops1 c
    /\ currentTopLog c1 = Returns tops1
    /\ finiteTops tops1
    /\ TopLog.currenttop tops1 = toID u1
    /\ is_Some (TopLog.logs tops1 !! TopLog.currenttop tops1)
    /\ exists tops2, updateTopLog u2 w2 l2 d2 c1
                     = Returns (saveTopLog tops2 c1).
Proof.
  intros Hload Hfin Hw Hl Hupd.
  rewrite (updateTopLog_unfold _ _ _ _ _ _ Hload) in Hupd.
  destruct (updateTops u1 w1 l1 d1 c tops) as [tops1| |] eqn:Hstep;
    try discriminate.
  injection Hupd as <-.
  destruct (updateTops_post _ _ _ _ _ _ _ Hstep)
    as (Hp & Ht & e1 & Hlogs & _ & Hfin1).
  assert (Hfin' : finiteTops tops1)
    by exact (finiteTops_insert tops tops1 _ e1 Hfin (Hfin1 Hfin Hw Hl) Hlogs).
  assert (Hload1 : currentTopLog (saveTopLog tops1 c) = Returns tops1).
  { apply currentTopLog_saved; [exact Hfin' |].
    now rewrite Hp, (currentTopLog_prefix c tops Hload). }
  assert (Hentry : is_Some (TopLog.logs tops1 !! TopLog.currenttop tops1)).
  { rewrite Ht, Hlogs, lookup_insert_eq. eauto. }
  exists tops1. split; [reflexivity |]. split; [reflexivity |].
  split; [exact Hload1 |]. split; [exact Hfin' |].
  split; [exact Ht |]. split; [exact Hentry |].
  rewrite (updateTopLog_unfold _ _ _ _ _ _ Hload1). unfold updateTops.
  destruct (String.eqb_spec (toID u2) (TopLog.currenttop tops1)) as [E|E].
  - rewrite E. destruct Hentry as [e He]. rewrite He. eauto.
  - eauto.
Qed.

Lemma updateTopLog_again_witness :
  currentTopLog clientWithTops = Returns storedTops
  /\ finiteTops storedTops
  /\ JsNum.finite (Num 13) = true /\ JsNum.finite (Num 3) = true
  /\ exists c1,
       updateTopLog "ABC Bob" (Num 13) (Num 3) exampleNow clientWithTops
       = Returns c1
       /\ exists tops2,
            updateTopLog "ABC Al" (Num 10) (Num 2) (exampleNow + 60000) c1
            = Returns (saveTopLog tops2 c1).
Proof.
  assert (Hload : currentTopLog clientWithTops = Returns storedTops)
    by exact (currentTopLog_saved storedTops (newClient "abc")
                storedTops_finite eq_refl).
  split; [exact Hload |]. split; [exact storedTops_finite |].
  split; [reflexivity |]. split; [reflexivity |].
  assert (Hupd : exists c1,
             updateTopLog "ABC Bob" (Num 13) (Num 3) exampleNow clientWithTops
             = Returns c1).
  { rewrite (updateTopLog_retain "ABC Bob" (Num 13) (Num 3) exampleNow
               clientWithTops storedTops logOfBob Hload
               ltac:(vm_compute; reflexivity) ltac:(vm_compute; reflexivity)).
    eauto. }
  destruct Hupd as [c1 Hupd]. exists c1. split; [exact Hupd |].
  destruct (updateTopLog_again "ABC Bob" (Num 13) (Num 3) exampleNow
              "ABC Al" (Num 10) (Num 2) (exampleNow + 60000)
              clientWithTops c1 storedTops Hload storedTops_finite
              eq_refl eq_refl Hupd)
    as (tops1 & _ & _ & _ & _ & _ & _ & Hnext).
  exact Hnext.
Defined.

(** ** The cooldown of the leaderboard command *)

(** X18. The leaderboard command of a user without rank is let through
    when no board was shown yet.  After a board was shown, [wait] minutes
    ago: while the board has not changed, when the minutes and the lines
    of chat since add up to 60; once it has changed, when the minutes and
    the lines of others add up to 10, with at least 5 such lines or 3
    minutes.  A command that is let through at some time is let through
    at any later time, and after an hour every command is. *)
Theorem leaderboardCooldown_thresholds now c :
  (cooldown c = None -> leaderboardCooldown now c = true)
  /\ (forall since,
        cooldown c = Some since ->
        let wait := (now - since) / 60000 in
        leaderboardCooldown now c
        = if changed c
          then (10 <=? wait + them (lines c))
               && negb ((them (lines c) <? 5) && (wait <? 3))
          else 60 <=? wait + total (lines c))
  /\ (forall later,
        now <= later ->
        leaderboardCooldown now c = true ->
        leaderboardCooldown later c = true)
  /\ (forall since,
        cooldown c = Some since ->
        0 <= them (lines c) -> 0 <= total (lines c) ->
        since + 3600000 <= now ->
        leaderboardCooldown now c = true).
Proof.
  unfold leaderboardCooldown. split; [now intros -> |].
  split; [|split].
  - intros since ->. cbn zeta.
    destruct (changed c).
    + destruct (Z.ltb_spec (them (lines c)) 5),
        (Z.ltb_spec ((now - since) / 60000) 3),
        (Z.leb_spec 10 ((now - since) / 60000 + them (lines c))),
        (Z.leb_spec 60 (6 * ((now - since) / 60000 + them (lines c))));
        cbn [andb negb]; try reflexivity; lia.
    + destruct (Z.ltb_spec (total (lines c)) 5),
        (Z.ltb_spec ((now - since) / 60000) 3),
        (Z.leb_spec 60 ((now - since) / 60000 + total (lines c)));
        cbn [andb negb];
        try (destruct (Z.leb_spec 60
                         (1 * ((now - since) / 60000 + total (lines c))));
             try reflexivity; lia).
  - intros later Hlater. destruct (cooldown c) as [since|]; [|trivial].
    cbn zeta.
    assert (Hwait : (now - since) / 60000 <= (later - since) / 60000)
      by (apply Z.div_le_mono; lia).
    set (n := if changed c then them (lines c) else total (lines c)).
    set (factor := if changed c then 6 else 1).
    assert (Hfactor : 0 < factor) by (subst factor; destruct (changed c); lia).
    destruct (Z.ltb_spec n 5), (Z.ltb_spec ((now - since) / 60000) 3),
      (Z.ltb_spec ((later - since) / 60000) 3);
      cbn [andb]; try discriminate; try lia;
      rewrite !Z.leb_le; nia.
  - intros since -> Hthem Htotal Hsince. cbn zeta.
    assert (Hwait : 60 <= (now - since) / 60000)
      by (apply Z.div_le_lower_bound; lia).
    destruct (changed c).
    + destruct (Z.ltb_spec (them (lines c)) 5),
        (Z.ltb_spec ((now - since) / 60000) 3);
        cbn [andb]; try lia; rewrite Z.leb_le; lia.
    + destruct (Z.ltb_spec (total (lines c)) 5),
        (Z.ltb_spec ((now - since) / 60000) 3);
        cbn [andb]; try lia; rewrite Z.leb_le; lia.
Qed.

Lemma leaderboardCooldown_thresholds_witness :
  cooldown (set_cooldown (Some exampleNow) (newClient "abc"))
  = Some exampleNow
  /\ exampleNow + 59 * 60000 <= exampleNow + 60 * 60000
  /\ leaderboardCooldown (exampleNow + 59 * 60000)
       (set_cooldown (Some exampleNow) (newClient "abc")) = false
  /\ leaderboardCooldown (exampleNow + 60 * 60000)
       (set_cooldown (Some exampleNow) (newClient "abc")) = true.
Proof.
  split; [reflexivity |]. split; [lia |]. split; [reflexivity |].
  apply (proj2 (proj2 (proj2 (leaderboardCooldown_thresholds
                                (exampleNow + 60 * 60000)
                                (set_cooldown (Some exampleNow)
                                   (newClient "abc")))))
           exampleNow eq_refl);
    cbn; lia.
Defined.

(** ** Starting and stopping *)

Lemma boardRows_first_board board :
  forall i,
    Forall (fun r => row_arrow r = None) (boardRows [] i board)
    /\ map row_entry (boardRows [] i board) = board.
Proof. apply boardRows_plain. reflexivity. Qed.

(** X19. [stop()] on a client that runs marks it as stopped, sends the
    status once and forgets both snapshots; then tracking finds no change
    on any board, the next board is shown without arrows, and a second
    [stop()] does nothing.  [start()] on a client that runs does nothing,
    and on one that does not it sends the status once. *)
Theorem stop_forgets c :
  started c = true ->
  started (stop c) = false
  /\ outbox (stop c) = (outbox c ++ [Status true])%list
  /\ current (leaderboard (stop c)) = None
  /\ last (leaderboard (stop c)) = None
  /\ stop (stop c) = stop c
  /\ start c = c
  /\ outbox (start (stop c)) = (outbox c ++ [Status true; Status false])%list
  /\ (forall board display, trackChanges board display (stop c) = stop c)
  /\ (forall board,
        exists rows,
          styleLeaderboard board None (stop c) = HtmlLeaderboard None rows
          /\ Forall (fun r => row_arrow r = None) rows
          /\ map row_entry rows = board).
Proof.
  intros Hrun. unfold stop, start. rewrite Hrun.
  cbn [started set_last set_current report set_outbox set_started outbox
       leaderboard set_leaderboard current last].
  repeat split.
  - now rewrite <- app_assoc.
  - intros board. unfold styleLeaderboard.
    cbn [started set_last set_current report set_outbox set_started outbox
         leaderboard set_leaderboard current last].
    eexists. split; [reflexivity |]. apply boardRows_first_board.
Qed.

Lemma stop_forgets_witness :
  started (start clientWithBoard) = true
  /\ current (leaderboard (stop (start clientWithBoard))) = None
  /\ stop (stop (start clientWithBoard)) = stop (start clientWithBoard).
Proof.
  pose proof (stop_forgets (start clientWithBoard) eq_refl)
    as (_ & _ & Hcur & _ & Hstop & _).
  split; [reflexivity |]. split; [exact Hcur | exact Hstop].
Defined.

(** ** The final board *)

Lemma getLeaderboard_quiet c :
  outbox (getLeaderboard false c).2 = outbox c
  /\ deadline (getLeaderboard false c).2 = deadline c
  /\ (ladder_tsv c = None -> getLeaderboard false c = ([], c)).
Proof.
  unfold getLeaderboard. destruct (ladder_tsv c) as [text|].
  - destruct (fold_left _ _ _) as [table board]. repeat split. discriminate.
  - repeat split.
Qed.

(** X20. [captureFinalLeaderboard] lets the tick pass as long as the clock
    is before the deadline.  From the deadline on, and also with no
    deadline set, it sends one message, the final board with the clock
    reading, on which no row has an arrow whatever board was shown before,
    and it clears the deadline, after which [watchTop] does nothing.  The
    board is the one [getLeaderboard] reads at that time: when the ladder
    file cannot be read, the final board is sent empty, and no failure is
    reported. *)
Theorem captureFinalLeaderboard_final now c :
  (forall t, deadline c = Some t -> now < t ->
             captureFinalLeaderboard now c = None)
  /\ ((deadline c = None \/ exists t, deadline c = Some t /\ t <= now) ->
      now <> 0 ->
      exists c' rows,
        captureFinalLeaderboard now c = Some c'
        /\ deadline c' = None
        /\ outbox c'
           = (outbox c ++ [HtmlLeaderboard (Some (Num now)) rows])%list
        /\ Forall (fun r => row_arrow r = None) rows
        /\ map row_entry rows = (getLeaderboard false c).1
        /\ (ladder_tsv c = None -> rows = [])
        /\ forall later, watchTop later c' = (c', Returns tt)).
Proof.
  unfold captureFinalLeaderboard, deadlineValue. split.
  - intros t -> Hlt. cbn [JsNum.lt].
    destruct (Z.ltb_spec now t); [reflexivity | lia].
  - intros Hdue Hnow.
    assert (Hgo : JsNum.lt (Num now)
                    match deadline c with Some t => Num t | None => NaN end
                  = false).
    { destruct Hdue as [-> | (t & -> & Hle)]; [reflexivity |].
      cbn [JsNum.lt]. destruct (Z.ltb_spec now t); [lia | reflexivity]. }
    rewrite Hgo.
    destruct (getLeaderboard_quiet c) as (Hout & _ & Hfail).
    destruct (getLeaderboard false c) as [board c1] eqn:Hget.
    cbn [fst snd] in *.
    assert (Hfinal : JsNum.truthy (Num now) = true).
    { cbn [JsNum.truthy]. destruct (Z.eqb_spec now 0); [contradiction |].
      reflexivity. }
    assert (Hstyle : styleLeaderboard board (Some (Num now)) c1
                     = HtmlLeaderboard (Some (Num now)) (boardRows [] 0 board)).
    { unfold styleLeaderboard. rewrite Hfinal.
      now destruct (last (leaderboard c1)). }
    rewrite Hstyle. eexists _, (boardRows [] 0 board).
    split; [reflexivity |]. split; [reflexivity |].
    split; [cbn [outbox set_deadline report set_outbox]; now rewrite Hout |].
    destruct (boardRows_first_board board 0) as [Harrows Hentries].
    split; [exact Harrows |]. split; [exact Hentries |].
    split; [|reflexivity].
    intros Hfile. specialize (Hfail Hfile). now injection Hfail as -> _.
Qed.

Lemma captureFinalLeaderboard_final_witness :
  (deadline clientWithBoard = None
   \/ exists t, deadline clientWithBoard = Some t /\ t <= exampleNow)
  /\ exampleNow <> 0
  /\ exists c' rows,
       captureFinalLeaderboard exampleNow clientWithBoard = Some c'
       /\ deadline c' = None
       /\ outbox c'
          = (outbox clientWithBoard
             ++ [HtmlLeaderboard (Some (Num exampleNow)) rows])%list
       /\ rows = [].
Proof.
  assert (Hdue : deadline clientWithBoard = None
                 \/ exists t, deadline clientWithBoard = Some t
                              /\ t <= exampleNow) by now left.
  assert (Hnow : exampleNow <> 0) by discriminate.
  split; [exact Hdue |]. split; [exact Hnow |].
  destruct (proj2 (captureFinalLeaderboard_final exampleNow clientWithBoard)
              Hdue Hnow)
    as (c' & rows & Hrun & Hdead & Hout & _ & _ & Hempty & _).
  exists c', rows. repeat split; try assumption. now apply Hempty.
Defined.

(** ** Watching the top *)

Lemma set_lookup_same c : set_lookup (lookup (leaderboard c)) c = c.
Proof. now destruct c as [? ? ? ? ? ? ? ? ? [? ? ?] ? ? ? ? ? ? ? ? ? ?]. Qed.

Lemma set_tops_json_same c : set_tops_json (tops_json c) c = c.
Proof. now destruct c. Qed.

Lemma boardWatched_frame now c :
  exists table,
    (boardWatched now c).2 = set_lookup table c.
Proof.
  assert (Hread : exists table,
             (getLeaderboard false c).2 = set_lookup table c).
  { unfold getLeaderboard. destruct (ladder_tsv c).
    - destruct (fold_left _ _ _) as [table board]. now exists table.
    - exists (lookup (leaderboard c)). now rewrite set_lookup_same. }
  unfold boardWatched. destruct (current (leaderboard c)); [|exact Hread].
  destruct (_ <? _); [|exact Hread].
  exists (lookup (leaderboard c)). now rewrite set_lookup_same.
Qed.

Lemma updateTopLog_frame username win lose date c c' :
  updateTopLog username win lose date c = Returns c' ->
  exists tops0 tops,
    currentTopLog c = Returns tops0
    /\ updateTops username win lose date c tops0 = Returns tops
    /\ c' = saveTopLog tops c.
Proof.
  unfold updateTopLog.
  destruct (currentTopLog c) as [tops0| |]; try discriminate.
  destruct (updateTops _ _ _ _ _ _) as [tops| |] eqn:Hupd; try discriminate.
  intros [= <-]. eauto.
Qed.

(** X21. [watchTop] does nothing when no deadline is set and from the
    deadline on.  It never sends a message and touches nothing of the
    client but the lookup table and the file of the top log.  Within the
    deadline, when the board it looks at has a first entry and the call
    returns, the file holds a log with the prefix of the client whose
    current top is that entry's identifier, with an entry for it; when the
    board is empty, the file is left as it is. *)
Theorem watchTop_frame now c :
  ((deadline c = None \/ exists t, deadline c = Some t /\ t <= now) ->
   watchTop now c = (c, Returns tt))
  /\ (exists table file,
        (watchTop now c).1 = set_tops_json file (set_lookup table c))
  /\ (forall t c1,
        deadline c = Some t -> now < t ->
        boardWatched now c = ([], c1) ->
        watchTop now c = (c1, Returns tt) /\ tops_json c1 = tops_json c)
  /\ (forall t top rest c1 c2,
        deadline c = Some t -> now < t ->
        boardWatched now c = (top :: rest, c1) ->
        watchTop now c = (c2, Returns tt) ->
        exists tops,
          c2 = saveTopLog tops c1
          /\ TopLog.prefix tops = prefix c
          /\ TopLog.currenttop tops = idOf top
          /\ is_Some (TopLog.logs tops !! idOf top)).
Proof.
  split; [|split; [|split]].
  - unfold watchTop. intros [-> | (t & -> & Hle)]; [reflexivity |].
    destruct (Z.leb_spec t now); [reflexivity | lia].
  - assert (Hsame : exists table file,
               c = set_tops_json file (set_lookup table c)).
    { exists (lookup (leaderboard c)), (tops_json c).
      now rewrite set_lookup_same, set_tops_json_same. }
    unfold watchTop. destruct (deadline c) as [t|]; [|exact Hsame].
    destruct (t <=? now); [exact Hsame |].
    destruct (boardWatched_frame now c) as [table Htable].
    destruct (boardWatched now c) as [board c1]. cbn [snd] in Htable.
    assert (Hread : exists table file,
               c1 = set_tops_json file (set_lookup table c)).
    { exists table, (tops_json c). rewrite Htable. now destruct c. }
    destruct board as [|top rest]; [exact Hread |].
    destruct (updateTopLog _ _ _ _ _) as [c2| |] eqn:Hupd;
      try exact Hread.
    destruct (updateTopLog_frame _ _ _ _ _ _ Hupd) as (_ & tops & _ & _ & ->).
    exists table, (Contents (JSON_stringify (TopLog.toValue tops))).
    rewrite Htable. reflexivity.
  - intros t c1 Hdead Hlt Hboard. unfold watchTop.
    rewrite Hdead, Hboard. destruct (Z.leb_spec t now); [lia |].
    split; [reflexivity |].
    destruct (boardWatched_frame now c) as [table Htable].
    rewrite Hboard in Htable. cbn [snd] in Htable. now rewrite Htable.
  - intros t top rest c1 c2 Hdead Hlt Hboard. unfold watchTop.
    rewrite Hdead, Hboard. destruct (Z.leb_spec t now); [lia |].
    destruct (updateTopLog _ _ _ _ _) as [c2'| |] eqn:Hupd;
      try discriminate.
    intros [= ->].
    destruct (updateTopLog_frame _ _ _ _ _ _ Hupd)
      as (tops0 & tops & Hload & Hstep & ->).
    destruct (updateTops_post _ _ _ _ _ _ _ Hstep)
      as (Hp & Ht & e' & Hlogs & _).
    exists tops. split; [reflexivity |].
    destruct (boardWatched_frame now c) as [table Htable].
    rewrite Hboard in Htable. cbn [snd] in Htable.
    split; [|split].
    + rewrite Hp, (currentTopLog_prefix c1 tops0 Hload), Htable.
      reflexivity.
    + exact Ht.
    + unfold idOf. rewrite Hlogs, lookup_insert_eq. eauto.
Qed.

Lemma watchTop_frame_witness :
  (deadline clientWithBoard = None
   \/ exists t, deadline clientWithBoard = Some t /\ t <= exampleNow)
  /\ watchTop exampleNow clientWithBoard = (clientWithBoard, Returns tt).
Proof.
  assert (Hdue : deadline clientWithBoard = None
                 \/ exists t, deadline clientWithBoard = Some t
                              /\ t <= exampleNow) by now left.
  split; [exact Hdue |].
  exact (proj1 (watchTop_frame exampleNow clientWithBoard) Hdue).
Defined.

(** ** The tick of the interval *)

Lemma trackChanges_unchanged display c previous :
  current (leaderboard c) = Some previous ->
  NoDup (ids previous) ->
  trackChanges previous display c = c.
Proof.
  intros Hcur Hprev. unfold trackChanges. rewrite Hcur.
  destruct (config_cutoff c) as [n|]; [|reflexivity].
  destruct (n =? 0); [reflexivity |].
  now rewrite getDiffs_same_window.
Qed.

Lemma set_current_same c board :
  current (leaderboard c) = Some board -> set_current (Some board) c = c.
Proof.
  destruct c as [? ? ? ? ? ? ? ? ? [? ? ?] ? ? ? ? ? ? ? ? ? ?].
  cbn. now intros ->.
Qed.

(** What reading the ladder without display does to the client. *)
Lemma getLeaderboard_read c text :
  ladder_tsv c = Some text ->
  getLeaderboard false c
  = ((fold_left (addRow (prefix c)) (ladderRows text) (∅, [])).2,
     set_lookup (fold_left (addRow (prefix c)) (ladderRows text) (∅, [])).1 c).
Proof.
  intros Hfile. unfold getLeaderboard. rewrite Hfile.
  now destruct (fold_left _ _ _).
Qed.

Lemma set_lookup_twice table c :
  set_lookup table (set_lookup table c) = set_lookup table c.
Proof. reflexivity. Qed.

(** X22. The tick of the interval asks for the room list, and that is all
    it sends unless changes are displayed.  When the board it reads is
    empty, because the ladder file cannot be read or no row has the
    prefix, the snapshot the client holds stays and nothing is tracked.
    Otherwise the board read becomes the snapshot.  A second tick on a
    ladder file that has not changed, every identifier being once on the
    board, leaves the client as the first tick left it. *)
Theorem intervalTick_snapshot r :
  sent (intervalTick r)
  = (sent r ++ [(length (outbox (client r)), RoomList (format (client r)))])%list
  /\ ((getLeaderboard false (client r)).1 = [] ->
      client (intervalTick r) = (getLeaderboard false (client r)).2
      /\ current (leaderboard (client (intervalTick r)))
         = current (leaderboard (client r))
      /\ outbox (client (intervalTick r)) = outbox (client r)
      /\ changed (client (intervalTick r)) = changed (client r))
  /\ ((getLeaderboard false (client r)).1 <> [] ->
      current (leaderboard (client (intervalTick r)))
      = Some (getLeaderboard false (client r)).1)
  /\ (forall text,
        ladder_tsv (client r) = Some text ->
        NoDup (ids (getLeaderboard false (client r)).1) ->
        client (intervalTick (intervalTick r)) = client (intervalTick r)).
Proof.
  unfold intervalTick. cbn [client say sent with_client].
  split; [reflexivity |].
  generalize (client r) as c. clear r. intros c.
  split; [|split].
  - unfold trackBoard.
    destruct (getLeaderboard_quiet c) as (Hout & _).
    destruct (getLeaderboard false c) as [board c1] eqn:Hget.
    cbn [fst snd] in *. intros ->.
    split; [reflexivity |]. split; [|split; [exact Hout |]].
    + revert Hget. unfold getLeaderboard.
      destruct (ladder_tsv c); [|now intros [= <-]].
      destruct (fold_left _ _ _). now intros [= _ <-].
    + revert Hget. unfold getLeaderboard.
      destruct (ladder_tsv c); [|now intros [= <-]].
      destruct (fold_left _ _ _). now intros [= _ <-].
  - unfold trackBoard.
    destruct (getLeaderboard false c) as [board c1]. cbn [fst].
    intros Hne. destruct board as [|e board]; [contradiction |].
    reflexivity.
  - intros text Hfile. unfold trackBoard at 2 3.
    rewrite (getLeaderboard_read _ text Hfile). cbn [fst].
    set (rows := ladderRows text).
    set (table := (fold_left (addRow (prefix c)) rows (∅, [])).1).
    destruct (fold_left (addRow (prefix c)) rows (∅, [])).2
      as [|e board] eqn:Hb; intros Hboard.
    + unfold trackBoard.
      rewrite (getLeaderboard_read (set_lookup table c) text Hfile).
      change (prefix (set_lookup table c)) with (prefix c).
      fold rows. rewrite Hb. reflexivity.
    + set (c1 := set_lookup table c).
      set (c2 := set_current (Some (e :: board))
                   (trackChanges (e :: board) (showdiffs c1) c1)).
      destruct (trackChanges_frame (e :: board) (showdiffs c1) c1)
        as (flag & messages & Htrack & _).
      assert (Hfile2 : ladder_tsv c2 = Some text)
        by (subst c2; now rewrite Htrack).
      assert (Hprefix2 : prefix c2 = prefix c)
        by (subst c2; now rewrite Htrack).
      assert (Hlookup2 : set_lookup table c2 = c2)
        by (subst c2; now rewrite Htrack).
      assert (Hcur2 : current (leaderboard c2) = Some (e :: board))
        by reflexivity.
      unfold trackBoard.
      rewrite (getLeaderboard_read _ text Hfile2), Hprefix2. fold rows.
      rewrite Hb. fold table. rewrite Hlookup2.
      rewrite (trackChanges_unchanged _ c2 (e :: board) Hcur2 Hboard).
      now apply set_current_same.
Qed.

Lemma intervalTick_snapshot_witness :
  ladder_tsv (client (newRoom (set_ladder_tsv (Some ladderText)
                                 (newClient "abc")))) = Some ladderText
  /\ NoDup (ids (getLeaderboard false
                   (client (newRoom (set_ladder_tsv (Some ladderText)
                                       (newClient "abc"))))).1)
  /\ client (intervalTick (intervalTick
               (newRoom (set_ladder_tsv (Some ladderText)
                           (newClient "abc")))))
     = client (intervalTick
                 (newRoom (set_ladder_tsv (Some ladderText)
                             (newClient "abc")))).
Proof.
  assert (Hb : NoDup (ids (getLeaderboard false
                   (client (newRoom (set_ladder_tsv (Some ladderText)
                                       (newClient "abc"))))).1))
    by (apply (bool_decide_unpack _); vm_compute; exact I).
  split; [reflexivity |]. split; [exact Hb |].
  exact (proj2 (proj2 (proj2 (intervalTick_snapshot
           (newRoom (set_ladder_tsv (Some ladderText) (newClient "abc"))))))
           ladderText eq_refl Hb).
Defined.

(** ** Which battles are reported *)

(** X23. Whether a battle is reported does not depend on the cutoff nor
    on the ranks of the players: the branch of [tracking] that reads them
    is behind a test that fails whenever it is reached.  A battle is
    reported when one of its players is a tracked user, or when one of them
    bears the prefix and the rating of the battle is at least the rating
    asked for; the answer is always a boolean. *)
Theorem tracking_ignores_cutoff battle battleRating r :
  tracking battle battleRating r
  = JBool
      ((negb (Z.of_nat (length (users r)) =? 0)
        && (set_has (toID (p1 battle)) (users r)
            || set_has (toID (p2 battle)) (users r)))
       || ((startsWith (toID (p1 battle)) (prefix (client r))
            || startsWith (toID (p2 battle)) (prefix (client r)))
           && JsNum.ge battleRating (rating r))).
Proof.
  unfold tracking. cbn zeta.
  destruct (negb _ && (set_has _ _ || set_has _ _)); [reflexivity |].
  cbn [orb].
  destruct (startsWith (toID (p1 battle)) (prefix (client r))) eqn:H1;
    [reflexivity |].
  destruct (startsWith (toID (p2 battle)) (prefix (client r))) eqn:H2;
    [reflexivity |].
  cbn [orb andb].
  destruct (config_cutoff (client r)) as [n|]; [|reflexivity].
  now rewrite andb_false_r.
Qed.

(** ** The rating of a battle *)

Lemma add_comm a b : JsNum.add a b = JsNum.add b a.
Proof. destruct a, b; cbn; try reflexivity. f_equal. lia. Qed.

(** X24. The rating of a battle does not depend on the order of its two
    players.  When the lowest rating of the battle is an integer and every
    player the lookup table knows has an integer rating that is not below
    it, the rating of the battle is an integer that is not below it
    either. *)
Theorem getRating_order battle c :
  getRating {| p1 := p2 battle; p2 := p1 battle; minElo := minElo battle |} c
  = getRating battle c
  /\ forall m,
       minElo battle = Num m ->
       (forall id e, lookup (leaderboard c) !! id = Some e ->
                     exists x, elo e = Num x /\ m <= x) ->
       exists rated, (getRating battle c).1 = Num rated /\ m <= rated.
Proof.
  split.
  - unfold getRating. cbn [p1 p2 minElo].
    destruct (lookup (leaderboard c) !! toID (p1 battle)) as [a|],
      (lookup (leaderboard c) !! toID (p2 battle)) as [b|];
      try reflexivity.
    unfold averageRating. now rewrite add_comm.
  - intros m Hmin Hknown. unfold getRating. rewrite Hmin.
    assert (Havg : forall x y, m <= x -> m <= y ->
               exists rated,
                 (averageRating (Num x) (Num y)).1 = Num rated /\ m <= rated).
    { intros x y Hx Hy. eexists. split; [reflexivity |].
      apply Z.div_le_lower_bound; lia. }
    assert (Hlow : exists rated,
               (Num m, LowestOf (Num m)).1 = Num rated /\ m <= rated)
      by (exists m; split; [reflexivity | lia]).
    destruct (lookup (leaderboard c) !! toID (p1 battle)) as [a|] eqn:Ha,
      (lookup (leaderboard c) !! toID (p2 battle)) as [b|] eqn:Hb.
    + destruct (Hknown _ _ Ha) as (x & -> & Hx).
      destruct (Hknown _ _ Hb) as (y & -> & Hy). now apply Havg.
    + destruct (Hknown _ _ Ha) as (x & -> & Hx).
      destruct (JsNum.gt _ _); [apply Havg; lia | exact Hlow].
    + destruct (Hknown _ _ Hb) as (y & -> & Hy).
      destruct (JsNum.gt _ _); [apply Havg; lia | exact Hlow].
    + exact Hlow.
Qed.

Lemma getRating_order_witness :
  minElo {| p1 := "ABC Bob"; p2 := "Zed"; minElo := Num 1201 |} = Num 1201
  /\ (forall id e,
        lookup (leaderboard
                  (set_lookup {[ "abcbob" := player "ABC Bob" 1500 ]}
                     (newClient "abc"))) !! id = Some e ->
        exists x, elo e = Num x /\ 1201 <= x)
  /\ exists rated,
       (getRating {| p1 := "ABC Bob"; p2 := "Zed"; minElo := Num 1201 |}
          (set_lookup {[ "abcbob" := player "ABC Bob" 1500 ]}
             (newClient "abc"))).1 = Num rated
       /\ 1201 <= rated.
Proof.
  assert (Hknown : forall id e,
             lookup (leaderboard
                       (set_lookup {[ "abcbob" := player "ABC Bob" 1500 ]}
                          (newClient "abc"))) !! id = Some e ->
             exists x, elo e = Num x /\ 1201 <= x).
  { intros id e. cbn [lookup leaderboard set_lookup set_leaderboard].
    intros [_ <-]%lookup_singleton_Some. exists 1500. split; [reflexivity | lia]. }
  split; [reflexivity |]. split; [exact Hknown |].
  exact (proj2 (getRating_order
                  {| p1 := "ABC Bob"; p2 := "Zed"; minElo := Num 1201 |}
                  (set_lookup {[ "abcbob" := player "ABC Bob" 1500 ]}
                     (newClient "abc")))
           1201 eq_refl Hknown).
Defined.

(** ** Chat messages *)

Section Chat.

Variable toLowerCase : string -> string.
Variable trim : string -> string.
Variable toNumber : string -> number.
Variable toDate : string -> Date.

Lemma getLeaderboard_settings display c :
  let c' := (getLeaderboard display c).2 in
  prefix c' = prefix c /\ showdiffs c' = showdiffs c
  /\ deadline c' = deadline c /\ final c' = final c
  /\ timers c' = timers c /\ started c' = started c
  /\ looping c' = looping c /\ ladderopen c' = ladderopen c
  /\ tops_json c' = tops_json c
  /\ current (leaderboard c') = current (leaderboard c).
Proof.
  unfold getLeaderboard. destruct (ladder_tsv c).
  - destruct (fold_left _ _ _). destruct display; repeat split.
  - destruct display; repeat split.
Qed.

(** X25. A user without authority changes no setting: whatever the chat
    message, the call returns, and the prefix, the rating asked
    for, the users tracked, the display of changes, the deadline and its
    timer, the watchers, the state of the loop and of the ladder, the file
    of the top log and the snapshot tracked are what they were. *)
Theorem onChat_voiced now parts r user :
  parts !! 3%nat = Some user ->
  isAuthed user = false ->
  exists r',
    onChat toLowerCase trim toNumber toDate now parts r = (r', Returns tt)
    /\ settings r' = settings r.
Proof.
  intros Hparts Hauth. unfold onChat. rewrite Hparts.
  unfold isAuthed in Hauth. rewrite Hauth.
  assert (Hcount : settings (countLine (Some user) r) = settings r)
    by reflexivity.
  generalize dependent (countLine (Some user) r). intros r1 Hcount.
  destruct (afterToken _) as [text|]; [|eauto].
  eexists. split; [reflexivity |]. rewrite <- Hcount. unfold onVoiced.
  destruct (includes ["leaderboard"; "top"] _).
  - destruct (leaderboardCooldown now (client r1)); [|reflexivity].
    unfold settings. cbn [client with_client rating users].
    destruct (getLeaderboard_settings true
                (set_cooldown (Some now) (client r1)))
      as (-> & -> & -> & -> & -> & -> & -> & -> & -> & ->).
    reflexivity.
  - destruct (includes ["remaining"; "deadline"] _); [|reflexivity].
    unfold getDeadline. now destruct (deadline (client r1)).
Qed.

End Chat.

Lemma onChat_voiced_witness :
  ["&"; "c:"; "1793660700"; "+Visitor"; ".prefix xyz"] !! 3%nat
  = Some "+Visitor"
  /\ isAuthed "+Visitor" = false
  /\ exists r',
       onChat (fun s => s) (fun s => s) parseInt (fun _ => None) exampleNow
         ["&"; "c:"; "1793660700"; "+Visitor"; ".prefix xyz"]
         (newRoom (newClient "abc")) = (r', Returns tt)
       /\ settings r' = settings (newRoom (newClient "abc")).
Proof.
  split; [reflexivity |]. split; [reflexivity |].
  exact (onChat_voiced (fun s => s) (fun s => s) parseInt (fun _ => None)
           exampleNow ["&"; "c:"; "1793660700"; "+Visitor"; ".prefix xyz"]
           (newRoom (newClient "abc")) "+Visitor" eq_refl eq_refl).
Defined.

Section Talk.

Variable toLowerCase : string -> string.
Variable trim : string -> string.
Variable toNumber : string -> number.
Variable toDate : string -> Date.

Lemma onChat_talk now parts r :
  isTalk parts = true ->
  onChat toLowerCase trim toNumber toDate now parts r
  = (countLine (parts !! 3%nat) r, Returns tt).
Proof.
  unfold isTalk, onChat. destruct (parts !! 3%nat); [|discriminate].
  now destruct (afterToken _).
Qed.

(** X26. Chat messages that are not commands only count: after any
    number of them, each with an author, the lines counted have grown by
    their number, the lines of others by the number of those whose author
    has not the identifier of the client, and nothing else has changed,
    no setting and no message sent.  A message with no author is counted
    too, and then the call throws a [TypeError]. *)
Theorem onChats_talk messages r :
  (Forall (fun m => isTalk m.2 = true) messages ->
   exists r',
     onChats toLowerCase trim toNumber toDate messages r = (r', Returns tt)
     /\ total (lines (client r'))
        = total (lines (client r)) + Z.of_nat (length messages)
     /\ them (lines (client r'))
        = them (lines (client r))
          + Z.of_nat
              (length (List.filter
                         (fun m => negb (isOwn (config_nickname r) m.2))
                         messages))
     /\ settings r' = settings r
     /\ sent r' = sent r
     /\ outbox (client r') = outbox (client r)
     /\ config_nickname r' = config_nickname r)
  /\ (forall now parts,
        parts !! 3%nat = None ->
        exists r',
          onChat toLowerCase trim toNumber toDate now parts r
          = (r', Throws JsTypeError)
          /\ total (lines (client r')) = total (lines (client r)) + 1).
Proof.
  split.
  - intros Htalk. revert r.
    induction Htalk as [|[now parts] messages Hm Htalk IH]; intros r.
    + exists r. cbn [onChats length List.filter].
      repeat split; lia.
    + cbn [onChats snd] in *. rewrite (onChat_talk now parts r Hm).
      destruct (IH (countLine (parts !! 3%nat) r))
        as (r' & Hrun & Htotal & Hthem & Hset & Hsent & Hout & Hnick).
      exists r'. split; [exact Hrun |].
      cbn [length List.filter snd].
      change (config_nickname (countLine (parts !! 3%nat) r))
        with (config_nickname r) in *.
      unfold isOwn at 1.
      split; [|split; [|repeat split; assumption]].
      * rewrite Htotal. cbn. lia.
      * rewrite Hthem. cbn [countLine client with_client lines set_lines them].
        destruct (String.eqb _ _); cbn [negb length]; lia.
  - intros now parts Hparts. unfold onChat. rewrite Hparts.
    eexists. split; reflexivity.
Qed.

End Talk.

Lemma onChats_talk_witness :
  Forall (fun m => isTalk m.2 = true)
    [(exampleNow, ["&"; "c:"; "1793660700"; "+Visitor"; "hello | there"]);
     (exampleNow + 5, ["&"; "c:"; "1793660705"; "*POSHO-9000"; "ok"])]
  /\ exists r',
       onChats (fun s => s) (fun s => s) parseInt (fun _ => None)
         [(exampleNow,
           ["&"; "c:"; "1793660700"; "+Visitor"; "hello | there"]);
          (exampleNow + 5, ["&"; "c:"; "1793660705"; "*POSHO-9000"; "ok"])]
         (newRoom (newClient "abc")) = (r', Returns tt)
       /\ lines (client r') = {| them := 1; total := 2 |}.
Proof.
  assert (Htalk : Forall (fun m => isTalk m.2 = true)
    [(exampleNow, ["&"; "c:"; "1793660700"; "+Visitor"; "hello | there"]);
     (exampleNow + 5, ["&"; "c:"; "1793660705"; "*POSHO-9000"; "ok"])])
    by (repeat constructor).
  split; [exact Htalk |].
  destruct (proj1 (onChats_talk (fun s => s) (fun s => s) parseInt
                     (fun _ => None) _ (newRoom (newClient "abc"))) Htalk)
    as (r' & Hrun & Htotal & Hthem & _).
  exists r'. split; [exact Hrun |].
  destruct (lines (client r')) as [th to]. cbn in Htotal, Hthem.
  now subst.
Defined.

(** ** The users tracked *)

Lemma set_has_app id s t : set_has id (s ++ t) = set_has id s || set_has id t.
Proof. apply existsb_app. Qed.

Lemma set_has_In id s : set_has id s = true <-> In id s.
Proof.
  unfold set_has. rewrite existsb_exists. split.
  - intros (x & Hx & Heq). apply String.eqb_eq in Heq. now subst.
  - intros Hin. exists id. split; [exact Hin | apply String.eqb_refl].
Qed.

Lemma set_has_add id x s :
  set_has id (set_add x s) = set_has id s || String.eqb id x.
Proof.
  unfold set_add. destruct (set_has x s) eqn:Hx.
  - destruct (String.eqb_spec id x) as [->|]; [|now rewrite orb_false_r].
    now rewrite Hx.
  - rewrite set_has_app. cbn [set_has existsb]. now rewrite orb_false_r.
Qed.

Lemma set_has_delete id x s :
  set_has id (set_delete x s) = set_has id s && negb (String.eqb id x).
Proof.
  unfold set_delete, set_has. induction s as [|y s IH]; [reflexivity |].
  cbn [List.filter existsb].
  destruct (String.eqb_spec x y) as [->|Hxy]; cbn [negb existsb].
  - rewrite IH. destruct (String.eqb_spec id y); cbn [negb orb andb];
      [now rewrite andb_false_r | reflexivity].
  - rewrite IH. destruct (String.eqb_spec id y) as [->|]; cbn [orb];
      [|reflexivity].
    destruct (String.eqb_spec y x); [congruence | reflexivity].
Qed.

Lemma NoDup_set_add x s : NoDup s -> NoDup (set_add x s).
Proof.
  intros Hs. unfold set_add. destruct (set_has x s) eqn:Hx; [exact Hs |].
  apply NoDup_app. split; [exact Hs |]. split; [|apply NoDup_singleton].
  intros y Hy Hin. apply list_elem_of_In in Hy, Hin.
  destruct Hin as [<-|[]]. apply set_has_In in Hy. congruence.
Qed.

Lemma NoDup_set_delete x s : NoDup s -> NoDup (set_delete x s).
Proof.
  intros Hs. unfold set_delete. apply NoDup_ListNoDup.
  apply List.NoDup_filter. now apply NoDup_ListNoDup.
Qed.

Lemma users_added l :
  forall s,
    (forall id,
        set_has id (fold_left (fun s u => set_add (toID u) s) l s)
        = set_has id s || set_has id (map toID l))
    /\ (NoDup s -> NoDup (fold_left (fun s u => set_add (toID u) s) l s)).
Proof.
  induction l as [|u l IH]; intros s; cbn [fold_left map].
  - split; [intros id; change (set_has id []) with false;
           now rewrite orb_false_r | trivial].
  - destruct (IH (set_add (toID u) s)) as [Hhas Hnodup]. split.
    + intros id. rewrite Hhas, set_has_add. cbn [set_has existsb].
      now rewrite orb_assoc.
    + intros Hs. now apply Hnodup, NoDup_set_add.
Qed.

Lemma users_deleted l :
  forall s,
    (forall id,
        set_has id (fold_left (fun s u => set_delete (toID u) s) l s)
        = set_has id s && negb (set_has id (map toID l)))
    /\ (NoDup s -> NoDup (fold_left (fun s u => set_delete (toID u) s) l s)).
Proof.
  induction l as [|u l IH]; intros s; cbn [fold_left map].
  - split; [intros id; change (negb (set_has id [])) with true;
           now rewrite andb_true_r | trivial].
  - destruct (IH (set_delete (toID u) s)) as [Hhas Hnodup]. split.
    + intros id. rewrite Hhas, set_has_delete. cbn [set_has existsb].
      rewrite negb_orb. now rewrite andb_assoc.
    + intros Hs. now apply Hnodup, NoDup_set_delete.
Qed.

Lemma tracked_frame r :
  client (tracked r) = client r /\ users (tracked r) = users r
  /\ rating (tracked r) = rating r.
Proof.
  unfold tracked.
  destruct (users r) eqn:Hu; repeat split; cbn [users say]; now rewrite Hu.
Qed.

Section Users.

Variable toNumber : string -> number.
Variable toDate : string -> Date.

(** X27. The commands that track users add to the users tracked the
    identifier of every name of the list given, keeping those tracked
    before; the commands that stop tracking remove those identifiers and
    keep the others.  In both cases no user is listed twice, the call
    returns, and the client and the rating asked for are left alone. *)
Theorem onAuthed_users command argument now r :
  (includes ["add"; "track"; "watch"; "follow"] command = true ->
   exists r',
     onAuthed toNumber toDate command argument now r = (r', Returns tt)
     /\ (forall id,
           set_has id (users r')
           = set_has id (users r)
             || set_has id (map toID (split "," argument)))
     /\ (NoDup (users r) -> NoDup (users r'))
     /\ client r' = client r /\ rating r' = rating r)
  /\ (includes ["remove"; "untrack"; "unwatch"; "unfollow"] command = true ->
      exists r',
        onAuthed toNumber toDate command argument now r = (r', Returns tt)
        /\ (forall id,
              set_has id (users r')
              = set_has id (users r)
                && negb (set_has id (map toID (split "," argument))))
        /\ (NoDup (users r) -> NoDup (users r'))
        /\ client r' = client r /\ rating r' = rating r).
Proof.
  split; intros Hcmd.
  - assert (Hrun : onAuthed toNumber toDate command argument now r
                   = (tracked
                        (set_users
                           (fold_left (fun s u => set_add (toID u) s)
                              (split "," argument) (users r)) r),
                      Returns tt)).
    { unfold includes in Hcmd. cbn [existsb] in Hcmd.
      repeat (apply orb_true_iff in Hcmd as [Hcmd|Hcmd];
              [apply String.eqb_eq in Hcmd; subst command; reflexivity |]).
      discriminate. }
    rewrite Hrun. eexists. split; [reflexivity |].
    destruct (tracked_frame
                (set_users (fold_left (fun s u => set_add (toID u) s)
                              (split "," argument) (users r)) r))
      as (-> & -> & ->).
    destruct (users_added (split "," argument) (users r)) as [Hhas Hnodup].
    repeat split; assumption.
  - assert (Hrun : onAuthed toNumber toDate command argument now r
                   = (tracked
                        (set_users
                           (fold_left (fun s u => set_delete (toID u) s)
                              (split "," argument) (users r)) r),
                      Returns tt)).
    { unfold includes in Hcmd. cbn [existsb] in Hcmd.
      repeat (apply orb_true_iff in Hcmd as [Hcmd|Hcmd];
              [apply String.eqb_eq in Hcmd; subst command; reflexivity |]).
      discriminate. }
    rewrite Hrun. eexists. split; [reflexivity |].
    destruct (tracked_frame
                (set_users (fold_left (fun s u => set_delete (toID u) s)
                              (split "," argument) (users r)) r))
      as (-> & -> & ->).
    destruct (users_deleted (split "," argument) (users r)) as [Hhas Hnodup].
    repeat split; assumption.
Qed.

End Users.

Lemma onAuthed_users_witness :
  includes ["add"; "track"; "watch"; "follow"] "track" = true
  /\ exists r',
       onAuthed parseInt (fun _ => None) "track" "abc al, abc bob"
         exampleNow (newRoom (newClient "abc")) = (r', Returns tt)
       /\ set_has "abcbob" (users r') = true.
Proof.
  split; [reflexivity |].
  destruct (proj1 (onAuthed_users parseInt (fun _ => None) "track"
                     "abc al, abc bob" exampleNow
                     (newRoom (newClient "abc"))) eq_refl)
    as (r' & Hrun & Hhas & _).
  exists r'. split; [exact Hrun |]. now rewrite Hhas.
Defined.

(** ** The room list *)

Lemma jsLt_irrefl a : jsLt a a = false.
Proof.
  induction a as [|x a IH]; [reflexivity |].
  cbn [jsLt]. now rewrite Ascii.eqb_refl.
Qed.

Lemma jsLt_trans a :
  forall b c, jsLt a b = true -> jsLt b c = true -> jsLt a c = true.
Proof.
  induction a as [|x a IH]; intros [|y b] [|z c]; cbn [jsLt];
    try discriminate; try reflexivity.
  intros Hab Hbc.
  destruct (Ascii.eqb_spec x y) as [Hxy|Hxy],
    (Ascii.eqb_spec y z) as [Hyz|Hyz],
    (Ascii.eqb_spec x z) as [Hxz|Hxz]; try congruence.
  - now apply (IH b c).
  - apply N.ltb_lt in Hab, Hbc. subst z. lia.
  - apply N.ltb_lt in Hab, Hbc. apply N.ltb_lt. lia.
Qed.

(** An identifier that is not before another is not before what that one
    is not before. *)
Lemma notBefore_raise l roomid x :
  roomid <> "" ->
  notBefore (Some l) roomid = false ->
  notBefore (Some l) x = true ->
  notBefore (Some roomid) x = true.
Proof.
  unfold notBefore. intros Hroom Hlow [Hl Hx]%andb_true_iff.
  rewrite Hl in Hlow. cbn [andb] in Hlow.
  apply negb_false_iff in Hlow. apply negb_true_iff in Hx.
  apply andb_true_iff. split.
  - apply negb_true_iff. now apply String.eqb_neq.
  - apply negb_true_iff. destruct (jsLt roomid x) eqn:Hrx; [|reflexivity].
    now rewrite (jsLt_trans l roomid x Hlow Hrx) in Hx.
Qed.

Lemma notBefore_self roomid :
  roomid <> "" -> notBefore (Some roomid) roomid = true.
Proof.
  intros Hroom. unfold notBefore. rewrite jsLt_irrefl.
  apply String.eqb_neq in Hroom. now rewrite Hroom.
Qed.

Lemma reportable_ext battle r r' :
  client r' = client r -> users r' = users r -> rating r' = rating r ->
  reportable battle r' = reportable battle r.
Proof.
  intros Hc Hu Hr. unfold reportable, tracking, getRating.
  now rewrite Hc, Hu, Hr.
Qed.

(** One turn of the loop: what it keeps, and where it leaves [lastid]. *)
Lemma reportBattle_step skipid r roomid battle :
  let r' := reportBattle skipid r roomid battle in
  client r' = client r /\ users r' = users r /\ rating r' = rating r
  /\ (roomid <> "" ->
      (forall x, notBefore (lastid r) x = true ->
                 notBefore (lastid r') x = true)
      /\ (reportable battle r = true ->
          notBefore skipid roomid = true
          \/ notBefore (lastid r') roomid = true)).
Proof.
  unfold reportBattle.
  destruct (reportable battle r) eqn:Hrep; cbn [negb orb].
  2:{ repeat split; try trivial. discriminate. }
  destruct (notBefore skipid roomid) eqn:Hskip.
  { repeat split; try trivial. now left. }
  cbn [lastid say].
  destruct (notBefore (lastid r) roomid) eqn:Hlast.
  { repeat split; try trivial. now right. }
  cbn [client users rating lastid set_lastid say].
  repeat split.
  - intros x Hx. destruct (lastid r) as [l|]; [|discriminate].
    now apply (notBefore_raise l).
  - intros _. right. now apply notBefore_self.
Qed.

(** The loop, when it comes to its end. *)
Lemma reportBattles_run skipid entries :
  Forall (fun e => e.1 <> "") entries ->
  forall r r',
    reportBattles skipid entries r = (r', Returns tt) ->
    client r' = client r /\ users r' = users r /\ rating r' = rating r
    /\ (forall x, notBefore (lastid r) x = true ->
                  notBefore (lastid r') x = true)
    /\ forall roomid v,
         In (roomid, v) entries ->
         exists battle,
           asBattle v = Some battle
           /\ (reportable battle r = true ->
               notBefore skipid roomid = true
               \/ notBefore (lastid r') roomid = true).
Proof.
  induction 1 as [|[roomid v] entries Hid Hids IH]; intros r r';
    cbn [reportBattles].
  - intros [= <-]. repeat split; try trivial. intros ? ? [].
  - destruct (asBattle v) as [battle|] eqn:Hbattle; [|discriminate].
    intros Hrun.
    destruct (reportBattle_step skipid r roomid battle)
      as (Hc & Hu & Hr & Hlast).
    destruct (Hlast Hid) as [Hmono Hhere].
    destruct (IH _ _ Hrun) as (Hc' & Hu' & Hr' & Hmono' & Hrest).
    split; [congruence |]. split; [congruence |]. split; [congruence |].
    split; [intros x Hx; now apply Hmono', Hmono |].
    intros roomid' v' [[= <- <-] | Hin].
    + exists battle. split; [exact Hbattle |]. intros Hrep.
      destruct (Hhere Hrep) as [Hskip | Hnow]; [now left | right].
      now apply Hmono'.
    + destruct (Hrest roomid' v' Hin) as (battle' & Hb' & Hrep').
      exists battle'. split; [exact Hb' |]. intros Hrep. apply Hrep'.
      now rewrite (reportable_ext battle' r _ Hc Hu Hr).
Qed.

(** The loop over battles that are not to report, or not after [skipid]. *)
Lemma reportBattles_none skipid entries r :
  (forall roomid v,
      In (roomid, v) entries ->
      exists battle,
        asBattle v = Some battle
        /\ (reportable battle r = true -> notBefore skipid roomid = true)) ->
  reportBattles skipid entries r = (r, Returns tt).
Proof.
  induction entries as [|[roomid v] entries IH]; intros Hall;
    cbn [reportBattles]; [reflexivity |].
  destruct (Hall roomid v (or_introl eq_refl)) as (battle & -> & Hskip).
  assert (Hsame : reportBattle skipid r roomid battle = r).
  { unfold reportBattle. destruct (reportable battle r); [|reflexivity].
    now rewrite (Hskip eq_refl). }
  rewrite Hsame. apply IH. intros roomid' v' Hin.
  apply Hall. now right.
Qed.

(** X28. No battle is reported twice.  When a room list has been gone
    through, its rooms having identifiers that are not empty, the last
    battle reported is not before any battle of the list that is to
    report, in the order of strings; and the same room list, received
    again, reports nothing and leaves the room as it is.  Going through a
    room list only sends reports and moves the last identifier: the state
    of the client, the users tracked and the rating asked for stay. *)
Theorem onQueryresponse_again parts entries r r1 :
  roomsOf parts = Returns entries ->
  Forall (fun e => e.1 <> "") entries ->
  onQueryresponse parts r = (r1, Returns tt) ->
  onQueryresponse parts r1 = (r1, Returns tt)
  /\ client r1 = client r /\ users r1 = users r /\ rating r1 = rating r
  /\ forall roomid v battle,
       In (roomid, v) entries -> asBattle v = Some battle ->
       reportable battle r = true ->
       notBefore (lastid r1) roomid = true.
Proof.
  intros Hrooms Hids. unfold onQueryresponse. rewrite Hrooms. intros Hrun.
  destruct (reportBattles_run (lastid r) entries Hids r r1 Hrun)
    as (Hc & Hu & Hr & Hmono & Hall).
  assert (Hlast : forall roomid v battle,
             In (roomid, v) entries -> asBattle v = Some battle ->
             reportable battle r = true ->
             notBefore (lastid r1) roomid = true).
  { intros roomid v battle Hin Hb Hrep.
    destruct (Hall roomid v Hin) as (battle' & Hb' & Hhere).
    assert (battle' = battle) by congruence. subst battle'.
    destruct (Hhere Hrep) as [Hskip | Hnow]; [now apply Hmono | exact Hnow]. }
  split; [|repeat split; assumption].
  apply reportBattles_none. intros roomid v Hin.
  destruct (Hall roomid v Hin) as (battle & Hb & _).
  exists battle. split; [exact Hb |]. intros Hrep.
  apply (Hlast roomid v battle Hin Hb).
  now rewrite <- (reportable_ext battle r r1 Hc Hu Hr).
Qed.

Lemma onQueryresponse_again_witness :
  exists entries r1,
    roomsOf roomListParts = Returns entries
    /\ Forall (fun e => e.1 <> "") entries
    /\ onQueryresponse roomListParts (newRoom (newClient "abc"))
       = (r1, Returns tt)
    /\ onQueryresponse roomListParts r1 = (r1, Returns tt)
    /\ lastid r1 = Some "battle-gen8ou-99".
Proof.
  assert (Hrooms : exists entries,
             roomsOf roomListParts = Returns entries
             /\ Forall (fun e => e.1 <> "") entries).
  { eexists. split; [vm_compute; reflexivity |].
    repeat (constructor; [discriminate |]). constructor. }
  destruct Hrooms as (entries & Hrooms & Hids).
  assert (Hrun : exists r1,
             onQueryresponse roomListParts (newRoom (newClient "abc"))
             = (r1, Returns tt)
             /\ lastid r1 = Some "battle-gen8ou-99").
  { eexists. split; [vm_compute; reflexivity | reflexivity]. }
  destruct Hrun as (r1 & Hrun & Hlast).
  exists entries, r1. split; [exact Hrooms |]. split; [exact Hids |].
  split; [exact Hrun |]. split; [|exact Hlast].
  exact (proj1 (onQueryresponse_again roomListParts entries
                  (newRoom (newClient "abc")) r1 Hrooms Hids Hrun)).
Defined.

(** ** Opening and closing in turn *)

(** X29. Opening and closing arm each other.  [closeLadder] closes the
    ladder, sends the close command, followed by the decay command when
    asked for, and arms one watcher, the open watcher, half a second before
    the next open time.  [openLadder], before the deadline or with none,
    opens the ladder, sends the open command and arms one watcher, the
    close watcher, half a second before the next close time; from the
    deadline on it arms none and marks the loop as not running.  With a
    configured time of day a watcher is never due more than half a second
    ago. *)
Theorem ladder_in_turn c now decay :
  (ladderopen (closeLadder decay now c) = false
   /\ timers (closeLadder decay now c)
      = (timers c
         ++ [{| callback := OpenLadderWatcher;
                delay := JsNum.sub
                           (JsNum.sub (valueOf (getNextOpenTime now c))
                              (Num now)) (Num 500) |}])%list
   /\ outbox (closeLadder decay now c)
      = (outbox c ++ LadderTourClose (format c)
           :: (if decay then [LadderTourDecay (format c)] else []))%list
   /\ looping (closeLadder decay now c) = looping c)
  /\ ((deadline c = None \/ exists t, deadline c = Some t /\ now < t) ->
      ladderopen (openLadder now c) = true
      /\ timers (openLadder now c)
         = (timers c
            ++ [{| callback := CloseLadderWatcher;
                   delay := JsNum.sub
                              (JsNum.sub (valueOf (getNextCloseTime now c))
                                 (Num now)) (Num 500) |}])%list
      /\ outbox (openLadder now c)
         = (outbox c ++ [LadderTourOpen (format c)])%list
      /\ looping (openLadder now c) = looping c)
  /\ (forall t,
        deadline c = Some t -> t <= now ->
        ladderopen (openLadder now c) = true
        /\ timers (openLadder now c) = timers c
        /\ outbox (openLadder now c)
           = (outbox c ++ [LadderTourOpen (format c)])%list
        /\ looping (openLadder now c) = false)
  /\ (forall h m,
        Z.abs now <= 8640000000000000 - 2 * msPerDay ->
        (timeOfDay (config_open c) = Some (h, m) ->
         exists due,
           JsNum.sub (JsNum.sub (valueOf (getNextOpenTime now c)) (Num now))
             (Num 500) = Num due /\ - 500 <= due)
        /\ (timeOfDay (config_close c) = Some (h, m) ->
            exists due,
              JsNum.sub
                (JsNum.sub (valueOf (getNextCloseTime now c)) (Num now))
                (Num 500) = Num due /\ - 500 <= due)).
Proof.
  split; [| split; [| split]].
  - unfold closeLadder, delayUntil.
    destruct decay; repeat split;
      cbn [outbox report set_outbox setTimeout set_timers set_ladderopen
           format];
      now rewrite <- ?app_assoc.
  - intros Hdue. unfold openLadder, delayUntil.
    assert (Hgo : JsNum.ge (Num now)
                    (deadlineValue
                       (report (LadderTourOpen (format (set_ladderopen true c)))
                          (set_ladderopen true c))) = false).
    { unfold deadlineValue.
      cbn [deadline report set_outbox set_ladderopen].
      destruct Hdue as [-> | (d & -> & Hlt)]; [reflexivity |].
      cbn [JsNum.ge JsNum.le]. destruct (Z.leb_spec d now); [lia |].
      reflexivity. }
    rewrite Hgo. repeat split.
  - intros t Hdead Hpast. unfold openLadder.
    assert (Hstop : JsNum.ge (Num now)
                      (deadlineValue
                         (report
                            (LadderTourOpen (format (set_ladderopen true c)))
                            (set_ladderopen true c))) = true).
    { unfold deadlineValue.
      cbn [deadline report set_outbox set_ladderopen]. rewrite Hdead.
      cbn [JsNum.ge JsNum.le]. destruct (Z.leb_spec t now); [reflexivity | lia]. }
    rewrite Hstop. repeat split.
  - intros h m Hnow. split; intros Hcfg.
    + unfold getNextOpenTime.
      destruct (nextTimeOfDay_ahead (timezone c) _ now h m Hcfg Hnow)
        as (t & -> & Hahead & _).
      exists (t - now - 500). split; [reflexivity | lia].
    + unfold getNextCloseTime.
      destruct (nextTimeOfDay_ahead (timezone c) _ now h m Hcfg Hnow)
        as (t & -> & Hahead & _).
      exists (t - now - 500). split; [reflexivity | lia].
Qed.

Lemma ladder_in_turn_witness :
  deadline (newClient "abc") = None
  /\ ladderopen (openLadder exampleNow (newClient "abc")) = true
  /\ outbox (openLadder exampleNow (newClient "abc"))
     = [LadderTourOpen "gen8ou"]
  /\ Z.abs exampleNow <= 8640000000000000 - 2 * msPerDay
  /\ timeOfDay (config_open (newClient "abc")) = Some (6, 0)
  /\ exists due,
       timers (closeLadder true exampleNow (newClient "abc"))
       = [{| callback := OpenLadderWatcher; delay := Num due |}]
       /\ - 500 <= due.
Proof.
  assert (Hnow : Z.abs exampleNow <= 8640000000000000 - 2 * msPerDay)
    by (vm_compute; discriminate).
  destruct (ladder_in_turn (newClient "abc") exampleNow true)
    as ((_ & Htimers & _) & Hopen & _ & Hdue).
  destruct (Hopen (or_introl eq_refl)) as (Hladder & _ & Hout & _).
  destruct (proj1 (Hdue 6 0 Hnow) eq_refl) as (due & Heq & Hge).
  split; [reflexivity |]. split; [exact Hladder |]. split; [exact Hout |].
  split; [exact Hnow |]. split; [reflexivity |].
  exists due. split; [| exact Hge]. rewrite Htimers, Heq. reflexivity.
Defined.

(** ** Showing the top board *)

Lemma showTopBoard_saved tops r :
  finiteTops tops ->
  showTopBoard (with_client (saveTopLog tops) r)
  = if String.eqb (TopLog.currenttop tops) "" then
      (say NoTopYet (with_client (saveTopLog tops) r), Returns tt)
    else
      match TopLog.logs tops !! TopLog.currenttop tops with
      | Some _ => (say (TopBoard tops) (with_client (saveTopLog tops) r),
                   Returns tt)
      | None => (with_client (saveTopLog tops) r, Throws JsTypeError)
      end.
Proof.
  intros Hfin. unfold showTopBoard.
  assert (Hget : getTopLog (client (with_client (saveTopLog tops) r))
                 = Returns (TopLog.toValue tops)).
  { unfold getTopLog, saveTopLog, with_client.
    cbn [client tops_json set_tops_json].
    now rewrite JSON_parse_stringify, sanitize_toValue. }
  rewrite Hget.
  change (match TopLog.toValue tops with VNull => ?a | _ => ?b end) with b.
  now rewrite ofValue_toValue.
Qed.

(** X30. The top board after an update.  With no file, [showTopBoard] says
    that nobody has taken part yet.  After an update that returned, on a
    log whose numbers are finite and with finite statistics, it returns and
    shows the board of the log the update saved, whose current top is the
    incoming entrant; when the name of that entrant has no letter or digit,
    so that its identifier is empty, it says that nobody has taken part
    yet, although the log holds an entry.  It never changes the client. *)
Theorem showTopBoard_after_update username win lose date r c1 tops :
  currentTopLog (client r) = Returns tops ->
  finiteTops tops ->
  JsNum.finite win = true -> JsNum.finite lose = true ->
  updateTopLog username win lose date (client r) = Returns c1 ->
  (tops_json (client r) = Missing ->
   showTopBoard r = (say NoTopYet r, Returns tt))
  /\ client (showTopBoard (with_client (fun _ => c1) r)).1 = c1
  /\ exists tops1,
       c1 = saveTopLog tops1 (client r)
       /\ TopLog.currenttop tops1 = toID username
       /\ is_Some (TopLog.logs tops1 !! toID username)
       /\ showTopBoard (with_client (fun _ => c1) r)
          = (say (if String.eqb (toID username) "" then NoTopYet
                  else TopBoard tops1) (with_client (fun _ => c1) r),
             Returns tt).
Proof.
  intros Hload Hfin Hw Hl Hupd.
  destruct (updateTopLog_frame _ _ _ _ _ _ Hupd)
    as (tops0 & tops1 & Hload0 & Hstep & ->).
  rewrite Hload in Hload0. injection Hload0 as <-.
  destruct (updateTops_post _ _ _ _ _ _ _ Hstep)
    as (Hp & Ht & e1 & Hlogs & _ & Hfin1).
  assert (Hfin' : finiteTops tops1)
    by exact (finiteTops_insert tops tops1 _ e1 Hfin (Hfin1 Hfin Hw Hl) Hlogs).
  assert (Hentry : TopLog.logs tops1 !! toID username = Some e1)
    by (rewrite Hlogs; apply lookup_insert_eq).
  assert (Hshow := showTopBoard_saved tops1 r Hfin').
  change (with_client (saveTopLog tops1) r)
    with (with_client (fun _ => saveTopLog tops1 (client r)) r) in Hshow.
  rewrite Ht, Hentry in Hshow.
  split; [|split].
  - intros Hmissing. unfold showTopBoard, getTopLog. rewrite Hmissing.
    reflexivity.
  - rewrite Hshow. now destruct (String.eqb (toID username) "").
  - exists tops1. split; [reflexivity |]. split; [exact Ht |].
    split; [now exists e1 |].
    rewrite Hshow. now destruct (String.eqb (toID username) "").
Qed.

Lemma showTopBoard_after_update_witness :
  exists c1 tops1,
    updateTopLog "ABC Al" (Num 3) (Num 1) exampleNow (newClient "abc")
    = Returns c1
    /\ TopLog.currenttop tops1 = "abcal"
    /\ (showTopBoard (with_client (fun _ => c1) (newRoom (newClient "abc")))).2
       = Returns tt.
Proof.
  destruct (updateTopLog "ABC Al" (Num 3) (Num 1) exampleNow (newClient "abc"))
    as [c1| |] eqn:Hupd; [| vm_compute in Hupd; discriminate Hupd ..].
  assert (Hfin : finiteTops (newTopLog (newClient "abc")))
    by (intros k e Hk; cbn [newTopLog TopLog.logs] in Hk;
        now rewrite lookup_empty in Hk).
  destruct (showTopBoard_after_update "ABC Al" (Num 3) (Num 1) exampleNow
              (newRoom (newClient "abc")) c1 (newTopLog (newClient "abc"))
              eq_refl Hfin eq_refl eq_refl Hupd)
    as (_ & _ & tops1 & _ & Ht & _ & Hshow).
  exists c1, tops1. split; [reflexivity |]. split; [exact Ht |].
  now rewrite Hshow.
Defined.
